(** * Agent session orchestrator of vibe-cli: Gemini and Cursor integrations

    A shallow embedding of the permission handler, the event handler of
    [runGemini], the process clients and the session loops, followed by the
    properties of the orchestrator specification that they decide.

    JavaScript strings are sequences of UTF-16 code units, modelled as
    [list N].  Event objects received from the backend are modelled as records
    of optional string fields, following the declared message types of
    [gemini/types.ts]. *)

From Stdlib Require Import String Ascii NArith Lia.
From stdpp Require Import gmap list.

Set Default Proof Using "Type".

(** ** JavaScript strings *)

Module JS.
#[local] Open Scope N_scope.

Abbreviation jsstr := (list N).

(** A string literal of the source, as code units. *)
Definition lit (s : string) : jsstr := N_of_ascii <$> list_ascii_of_string s.

(** [WhiteSpace] and [LineTerminator] code units: what [\s] and
    [String.prototype.trim] recognise. *)
Definition is_space (c : N) : bool :=
  (c =? 9) || (c =? 10) || (c =? 11) || (c =? 12) || (c =? 13) || (c =? 32)
  || (c =? 160) || (c =? 5760) || ((8192 <=? c) && (c <=? 8202))
  || (c =? 8232) || (c =? 8233) || (c =? 8239) || (c =? 8287)
  || (c =? 12288) || (c =? 65279).

(** [\d] *)
Definition is_digit (c : N) : bool := (48 <=? c) && (c <=? 57).

(** The string of one line feed. *)
Definition lit_newline : jsstr := [10].

(** Truthiness of a string value that may be [undefined]/[null]. *)
Definition truthy (v : option jsstr) : bool :=
  match v with
  | Some (_ :: _) => true
  | _ => false
  end.

(** [a || b] on such values. *)
Definition or_else (a b : option jsstr) : option jsstr :=
  if truthy a then a else b.

(** [a || 'literal'], whose result is always a string. *)
Definition or_lit (a : option jsstr) (d : jsstr) : jsstr :=
  match a with
  | Some (c :: s) => c :: s
  | _ => d
  end.

Fixpoint startsWith (text pat : jsstr) : bool :=
  match pat, text with
  | [], _ => true
  | p :: pat', c :: text' => (c =? p) && startsWith text' pat'
  | _ :: _, [] => false
  end.

Fixpoint includes (text pat : jsstr) : bool :=
  startsWith text pat ||
  match text with
  | [] => false
  | _ :: text' => includes text' pat
  end.

Fixpoint trimStart (s : jsstr) : jsstr :=
  match s with
  | c :: s' => if is_space c then trimStart s' else s
  | [] => []
  end.

Definition trim (s : jsstr) : jsstr := rev (trimStart (rev (trimStart s))).

Definition str_eqb (a b : jsstr) : bool := bool_decide (a = b).

(** [arr.join(sep)] *)
Fixpoint join (sep : jsstr) (parts : list jsstr) : jsstr :=
  match parts with
  | [] => []
  | [p] => p
  | p :: rest => p ++ sep ++ join sep rest
  end.

End JS.
Import JS.

(** ** Regular expressions

    The patterns of the source use only classes, concatenation, alternation,
    [?], [*], [+] and the anchors [^] and [$]; for these, backtracking search
    and language membership coincide, so [RegExp.prototype.test] is decided
    with derivatives. *)

Module Regex.
#[local] Open Scope N_scope.

Inductive re : Type :=
| Void
| Eps
| Cls (p : N -> bool)
| Seq (a b : re)
| Alt (a b : re)
| Star (a : re).

Definition Opt (a : re) : re := Alt a Eps.
Definition Plus (a : re) : re := Seq a (Star a).
Definition Chr (c : N) : re := Cls (N.eqb c).

(** One letter under the [i] flag (no [u] flag): a code unit matches when it
    is the letter in either ASCII case. *)
Definition ChrI (upper : N) : re :=
  Cls (fun c => (c =? upper) || (c =? upper + 32)).

Fixpoint WordI (w : jsstr) : re :=
  match w with
  | [] => Eps
  | c :: w' => Seq (ChrI c) (WordI w')
  end.

Fixpoint nullable (r : re) : bool :=
  match r with
  | Void => false
  | Eps => true
  | Cls _ => false
  | Seq a b => nullable a && nullable b
  | Alt a b => nullable a || nullable b
  | Star _ => true
  end.

Fixpoint deriv (c : N) (r : re) : re :=
  match r with
  | Void => Void
  | Eps => Void
  | Cls p => if p c then Eps else Void
  | Seq a b =>
      if nullable a then Alt (Seq (deriv c a) b) (deriv c b)
      else Seq (deriv c a) b
  | Alt a b => Alt (deriv c a) (deriv c b)
  | Star a => Seq (deriv c a) (Star a)
  end.

(** [/^r/.test(s)]: some prefix of [s] matches [r]. *)
Fixpoint test_prefix (r : re) (s : jsstr) : bool :=
  nullable r ||
  match s with
  | [] => false
  | c :: s' => test_prefix (deriv c r) s'
  end.

(** [/^r$/.test(s)]: the whole of [s] matches [r]. *)
Fixpoint test_full (r : re) (s : jsstr) : bool :=
  match s with
  | [] => nullable r
  | c :: s' => test_full (deriv c r) s'
  end.

(** The language of a pattern. *)
Inductive matches : re -> jsstr -> Prop :=
| m_eps : matches Eps []
| m_cls p c : p c = true -> matches (Cls p) [c]
| m_seq a b s t : matches a s -> matches b t -> matches (Seq a b) (s ++ t)
| m_alt_l a b s : matches a s -> matches (Alt a b) s
| m_alt_r a b s : matches b s -> matches (Alt a b) s
| m_star_nil a : matches (Star a) []
| m_star_cons a c s t :
    matches a (c :: s) -> matches (Star a) t -> matches (Star a) (c :: s ++ t).

End Regex.

(** ** Recognition of Gemini CLI diagnostic output *)

Module Noise.
Import Regex.
#[local] Open Scope char_scope.

Definition code (a : ascii) : N := N_of_ascii a.

(** [\s*] *)
Definition spaces : re := Star (Cls is_space).

(** [/^\[?(DEBUG|INFO|TRACE|WARN)\]?\s/i] *)
Definition re_debug_prefix : re :=
  Seq (Opt (Chr (code "[")))
    (Seq (Alt (WordI (lit "DEBUG"))
           (Alt (WordI (lit "INFO"))
             (Alt (WordI (lit "TRACE")) (WordI (lit "WARN")))))
      (Seq (Opt (Chr (code "]"))) (Cls is_space))).

(** [/^\s*[\[\{]/] *)
Definition re_json_open : re :=
  Seq spaces (Alt (Chr (code "[")) (Chr (code "{"))).

(** [/^\s*\d+,?\s*$/] *)
Definition re_bare_number : re :=
  Seq spaces (Seq (Plus (Cls is_digit)) (Seq (Opt (Chr (code ","))) spaces)).

(** [/^\s*[\]\}],?\s*$/] *)
Definition re_bare_closer : re :=
  Seq spaces
    (Seq (Alt (Chr (code "]")) (Chr (code "}")))
      (Seq (Opt (Chr (code ","))) spaces)).

(** [isGeminiDebugOutput] of the Gemini entry point. *)
Definition isGeminiDebugOutput (text : jsstr) : bool :=
  match text with
  | [] => true
  | _ =>
      test_prefix re_debug_prefix text
      || includes text (lit "[MemoryDiscovery]")
      || includes text (lit "[BfsFileSearch]")
      || includes text (lit "[AgentRegistry]")
      || includes text (lit "Scanning [")
      || includes text (lit "batch of")
      || includes text (lit "Experiments loaded")
      || includes text (lit "experimentIds")
      || includes text (lit "flagId")
      || includes text (lit "floatValue")
      || includes text (lit "stringValue")
      || includes text (lit "Session ID:")
      || includes text (lit "Flushing log events")
      || includes text (lit "Clearcut")
      || includes text (lit "cached credentials")
      || includes text (lit "Loaded cached")
      || startsWith text (lit "Loading")
      || startsWith text (lit "Loaded")
      || startsWith text (lit "Found readable")
      || startsWith text (lit "Searching for")
      || startsWith text (lit "Determined project")
      || startsWith text (lit "Initialized with")
      || test_prefix re_json_open text
      || test_full re_bare_number text
      || test_full re_bare_closer text
  end.

(** [/^\s*\d+,$/] and [/^\s*\]/], used by the stderr listener of the client. *)
Definition re_number_comma : re :=
  Seq spaces (Seq (Plus (Cls is_digit)) (Chr (code ","))).

Definition re_closer_open : re := Seq spaces (Chr (code "]")).

(** The [isDebugOutput] expression of the stderr listener in
    [GeminiClient.startSession]. *)
Definition isDebugOutput (text : jsstr) : bool :=
  test_prefix re_debug_prefix text
  || includes text (lit "[MemoryDiscovery]")
  || includes text (lit "[BfsFileSearch]")
  || includes text (lit "[AgentRegistry]")
  || includes text (lit "Scanning [")
  || includes text (lit "batch of")
  || includes text (lit "Experiments loaded")
  || includes text (lit "experimentIds")
  || includes text (lit "flagId")
  || includes text (lit "Session ID:")
  || includes text (lit "Flushing log events")
  || includes text (lit "Clearcut")
  || includes text (lit "cached credentials")
  || startsWith text (lit "Loading")
  || startsWith text (lit "Loaded")
  || startsWith text (lit "Found readable")
  || startsWith text (lit "Searching for")
  || startsWith text (lit "Determined project")
  || test_prefix re_json_open text
  || test_full re_number_comma text
  || test_prefix re_closer_open text.

End Noise.

(** ** JavaScript [Map]: keyed entries kept in insertion order *)

Module JSMap.
Section JSMap.
Context {V : Type}.

Definition t := list (jsstr * V).

Fixpoint get (k : jsstr) (m : t) : option V :=
  match m with
  | [] => None
  | (k', v) :: m' => if decide (k = k') then Some v else get k m'
  end.

(** [set] on a present key replaces the value where it stands; a new key goes
    to the end. *)
Fixpoint set (k : jsstr) (v : V) (m : t) : t :=
  match m with
  | [] => [(k, v)]
  | (k', v') :: m' =>
      if decide (k = k') then (k, v) :: m' else (k', v') :: set k v m'
  end.

Fixpoint delete (k : jsstr) (m : t) : t :=
  match m with
  | [] => []
  | (k', v') :: m' =>
      if decide (k = k') then delete k m' else (k', v') :: delete k m'
  end.

Definition clear (m : t) : t := [].

Definition size (m : t) : nat := length m.

End JSMap.
Arguments t : clear implicits.
End JSMap.

(** ** The permission handler ([GeminiPermissionHandler]) *)

Module Permission.

(** Tool inputs are opaque JSON values, held as their text. *)
Abbreviation json := jsstr.

Inductive Decision : Type := approved | denied.

Record PermissionResult : Type := mkResult {
  decision : Decision;
  reason : option jsstr
}.

(** The promise returned by [handleToolCall]: pending until one of its two
    callbacks is invoked; later invocations change nothing. *)
Inductive PromiseState : Type :=
| Pending
| Fulfilled (r : PermissionResult)
| Rejected (message : jsstr).

(** [PendingRequest]: the callbacks [resolve]/[reject] of promise number
    [promise], with the tool name and input. *)
Record PendingRequest : Type := mkPending {
  promise : nat;
  toolName : jsstr;
  input : json
}.

(** An entry of [AgentState.requests]. *)
Record AgentRequest : Type := mkAgentRequest {
  tool : jsstr;
  arguments : json;
  createdAt : N
}.

Record GeminiPermissionHandler : Type := mkHandler {
  pendingRequests : JSMap.t PendingRequest;
  (** every promise created so far, by number *)
  promises : list PromiseState;
  (** every invocation of a [resolve] or [reject] callback, in order *)
  callbackLog : list (nat * PromiseState);
  (** [requests] of the session's agent state *)
  agentRequests : gmap jsstr AgentRequest
}.

Definition create : GeminiPermissionHandler :=
  {| pendingRequests := []; promises := []; callbackLog := [];
     agentRequests := ∅ |}.

Definition settlePromise (p : nat) (v : PromiseState) (ps : list PromiseState)
  : list PromiseState :=
  match ps !! p with
  | Some Pending => <[p := v]> ps
  | _ => ps
  end.

(** Invoking [resolve] ([v] fulfilled) or [reject] ([v] rejected) of promise [p]. *)
Definition invoke (p : nat) (v : PromiseState) (h : GeminiPermissionHandler)
  : GeminiPermissionHandler :=
  {| pendingRequests := pendingRequests h;
     promises := settlePromise p v (promises h);
     callbackLog := callbackLog h ++ [(p, v)];
     agentRequests := agentRequests h |}.

(** The ['permission'] RPC handler installed by [setupRpcHandler]. *)
Definition onPermission (requestId : jsstr) (isApproved : bool)
    (why : option jsstr) (h : GeminiPermissionHandler) : GeminiPermissionHandler :=
  match JSMap.get requestId (pendingRequests h) with
  | Some pending =>
      invoke (promise pending)
        (Fulfilled {| decision := if isApproved then approved else denied;
                      reason := why |})
        {| pendingRequests := JSMap.delete requestId (pendingRequests h);
           promises := promises h;
           callbackLog := callbackLog h;
           agentRequests := agentRequests h |}
  | None => h
  end.

(** [handleToolCall]: returns the new state and the promise handed to the
    caller.  [now] is the reading of [Date.now()]. *)
Definition handleToolCall (toolCallId toolName : jsstr) (input : json) (now : N)
    (h : GeminiPermissionHandler) : GeminiPermissionHandler * nat :=
  let p := length (promises h) in
  ({| pendingRequests :=
        JSMap.set toolCallId
          {| promise := p; toolName := toolName; input := input |}
          (pendingRequests h);
      promises := promises h ++ [Pending];
      callbackLog := callbackLog h;
      agentRequests :=
        <[toolCallId := {| tool := toolName; arguments := input;
                           createdAt := now |}]> (agentRequests h) |}, p).

Definition resetMessage : jsstr := lit "Permission handler reset".

Definition rejectAll (entries : list (jsstr * PendingRequest))
    (h : GeminiPermissionHandler) : GeminiPermissionHandler :=
  foldl (fun acc e => invoke (promise e.2) (Rejected resetMessage) acc) h entries.

(** [reset()] *)
Definition reset (h : GeminiPermissionHandler) : GeminiPermissionHandler :=
  let h1 := rejectAll (pendingRequests h) h in
  {| pendingRequests := JSMap.clear (pendingRequests h1);
     promises := promises h1;
     callbackLog := callbackLog h1;
     agentRequests := agentRequests h1 |}.

(** Modelled from the spec: [enumeratePending()], which the handler class does
    not define; it lists the entries of the pending table. *)
Definition enumeratePending (h : GeminiPermissionHandler)
  : list (jsstr * PendingRequest) := pendingRequests h.

(** The states the operations produce: every pending entry holds the
    callbacks of a promise of its own, and that promise is still pending. *)
Definition wf (h : GeminiPermissionHandler) : Prop :=
  NoDup ((fun e => promise e.2) <$> pendingRequests h)
  /\ forall k e, (k, e) ∈ pendingRequests h -> promises h !! promise e = Some Pending.

(** The calls made on the handler: by the entry point ([handleToolCall],
    [reset]) and by the RPC layer (the ['permission'] handler). *)
Inductive Op : Type :=
| opToolCall (toolCallId toolName : jsstr) (input : json) (now : N)
| opPermission (requestId : jsstr) (isApproved : bool) (why : option jsstr)
| opReset.

Definition apply (o : Op) (h : GeminiPermissionHandler) : GeminiPermissionHandler :=
  match o with
  | opToolCall toolCallId toolName input now =>
      (handleToolCall toolCallId toolName input now h).1
  | opPermission requestId isApproved why => onPermission requestId isApproved why h
  | opReset => reset h
  end.

(** A sequence of calls, one after another. *)
Definition applyAll (ops : list Op) (h : GeminiPermissionHandler)
  : GeminiPermissionHandler :=
  foldl (fun acc o => apply o acc) h ops.

(** The log and the promises tell the same story: a promise appears in the
    log once it is settled, with its outcome, and at most once. *)
Definition logged (h : GeminiPermissionHandler) : Prop :=
  NoDup (callbackLog h).*1
  /\ (forall p v, (p, v) ∈ callbackLog h -> promises h !! p = Some v /\ v <> Pending)
  /\ (forall p v, promises h !! p = Some v -> v <> Pending -> (p, v) ∈ callbackLog h).

End Permission.

(** ** Backend events and what the session sends downstream *)

Module Wire.
Import Permission.

(** A parsed backend object, with the properties the clients and handlers
    read.  An absent property is [None]. *)
Record RawEvent : Type := mkEvent {
  ev_type : option jsstr;
  ev_event : option jsstr;
  ev_message : option jsstr;
  ev_text : option jsstr;
  ev_content : option jsstr;
  ev_error : option jsstr;
  (** [msg.delta === true] *)
  ev_delta : bool;
  ev_tool_name : option jsstr;
  ev_name : option jsstr;
  ev_function_name : option jsstr;
  ev_tool_id : option jsstr;
  ev_toolId : option jsstr;
  ev_call_id : option jsstr;
  ev_id : option jsstr;
  ev_parameters : option json;
  ev_input : option json;
  ev_arguments : option json;
  ev_output : option json;
  ev_result : option json;
  ev_status : option jsstr;
  (** [stats.input_tokens], [stats.output_tokens] when [msg.stats] is present *)
  ev_stats : option (option N * option N);
  ev_sessionId : option jsstr;
  ev_session_id : option jsstr;
  (** [msg.session], with its [id] *)
  ev_session : option (option jsstr);
  ev_conversationId : option jsstr;
  ev_conversation_id : option jsstr;
  ev_conversation : option (option jsstr)
}.

(** The object with no property set. *)
Definition emptyEvent : RawEvent :=
  mkEvent None None None None None None false None None None None None None
    None None None None None None None None None None None None None None.

(** [{ type, message, timestamp }], as the client listeners build it. *)
Definition typedText (type text : jsstr) : RawEvent :=
  mkEvent (Some type) None (Some text) None None None false None None None None
    None None None None None None None None None None None None None None None
    None.

(** A streamed message event [{ type: 'message', message, delta }]. *)
Definition messageEvent (text : jsstr) (delta : bool) : RawEvent :=
  mkEvent (Some (lit "message")) None (Some text) None None None delta None None
    None None None None None None None None None None None None None None None
    None None None.

(** An event that only carries a session identifier under one of its keys. *)
Definition sessionIdEvent (sid : jsstr) : RawEvent :=
  mkEvent None None None None None None false None None None None None None
    None None None None None None None None (Some sid) None None None None None.

(** The [n]-th value produced by [randomUUID()]. *)
Inductive Uuid : Type := uuid (n : nat).

Inductive CallId : Type :=
| given (s : jsstr)
| fresh (u : Uuid).

(** Bodies passed to [sendGeminiMessage] / [sendCursorMessage], by their
    [type]: ['message'], ['tool-call'], ['tool-call-result'], ['thinking'],
    ['error'], ['system']. *)
Inductive AgentMessage : Type :=
| Message (text : jsstr) (id : Uuid)
| ToolCall (name : jsstr) (callId : CallId) (input : json) (id : Uuid)
| ToolCallResult (callId : CallId) (output : json) (is_error : option bool) (id : Uuid)
| Thinking (text : jsstr) (id : Uuid)
| ErrorMessage (text : jsstr) (id : Uuid)
| SystemMessage (text : jsstr) (id : Uuid).

Inductive SessionEvent : Type :=
| ready
| notice (text : jsstr).

(** Calls on the session and the push client, in the order they are made. *)
Inductive Outbound : Type :=
| sendAgentMessage (m : AgentMessage)
| keepAlive (thinking : bool)
| sendSessionEvent (e : SessionEvent)
| sendToAllDevices
| sendUsageData (input_tokens output_tokens : N).

(** The canonical text messages among the calls. *)
Definition messagesOf (out : list Outbound) : list jsstr :=
  omap (fun o => match o with
                 | sendAgentMessage (Message text _) => Some text
                 | _ => None
                 end) out.

(** The bodies delivered to the sink among the calls. *)
Definition agentMessagesOf (out : list Outbound) : list AgentMessage :=
  omap (fun o => match o with
                 | sendAgentMessage m => Some m
                 | _ => None
                 end) out.

(** The tool calls and the tool results among the calls. *)
Definition toolCallsOf (out : list Outbound) : list AgentMessage :=
  omap (fun o => match o with
                 | sendAgentMessage (ToolCall name callId input id) =>
                     Some (ToolCall name callId input id)
                 | _ => None
                 end) out.

Definition toolResultsOf (out : list Outbound) : list AgentMessage :=
  omap (fun o => match o with
                 | sendAgentMessage (ToolCallResult callId output is_error id) =>
                     Some (ToolCallResult callId output is_error id)
                 | _ => None
                 end) out.

(** The activity flag the session was last told, [before] when it was told
    nothing. *)
Definition lastKeepAlive (out : list Outbound) (before : bool) : bool :=
  foldl (fun acc o => match o with
                      | keepAlive b => b
                      | _ => acc
                      end) before out.

Definition emptyObject : json := lit "{}".

(** Truthiness of a payload value.  A payload is held as the text
    [JSON.stringify] gives its value; the falsy values a parsed line can hold
    are [null], [false], [0] and the empty string. *)
Definition jsonTruthy (v : json) : bool :=
  negb (str_eqb v (lit "null") || str_eqb v (lit "false") || str_eqb v (lit "0")
        || str_eqb v [34%N; 34%N]).

(** [a || b || ... || {}] on payload properties: the first property that is
    present and truthy. *)
Fixpoint firstPresent (candidates : list (option json)) : json :=
  match candidates with
  | [] => emptyObject
  | Some v :: rest => if jsonTruthy v then v else firstPresent rest
  | None :: rest => firstPresent rest
  end.

(** [a || b || ... || randomUUID()] on identifier properties, given the number
    of values [randomUUID] has produced so far; returns the new count. *)
Definition callIdOf (candidate : option jsstr) (next : nat) : CallId * nat :=
  match candidate with
  | Some (c :: s) => (given (c :: s), next)
  | _ => (fresh (uuid next), S next)
  end.

Definition sendReady : list Outbound := [sendSessionEvent ready; sendToAllDevices].

(** [message.session?.id] *)
Definition nestedId (o : option (option jsstr)) : option jsstr :=
  match o with
  | Some id => id
  | None => None
  end.

(** The session identifier an event exposes, by its candidate keys
    [sessionId], [session_id], [session.id] in this order. *)
Definition exposedSessionId (msg : RawEvent) : option jsstr :=
  or_else (or_else (ev_sessionId msg) (ev_session_id msg)) (nestedId (ev_session msg)).

(** Likewise [conversationId], [conversation_id], [conversation.id]. *)
Definition exposedConversationId (msg : RawEvent) : option jsstr :=
  or_else (or_else (ev_conversationId msg) (ev_conversation_id msg))
    (nestedId (ev_conversation msg)).

(** The latch as the specification words it: a field that holds an
    identifier keeps it; an empty field takes the identifier of the first
    event that exposes one. *)
Definition latch (current : option jsstr) (exposed : list (option jsstr))
  : option jsstr :=
  if truthy current then current
  else match List.find truthy exposed with
       | Some identifier => identifier
       | None => current
       end.

(** The same latch written from the words of the specification alone, with
    no function of the clients: the candidate keys of an event, the first of
    them that holds a non-empty string, and the field that keeps the first
    identifier exposed to it. *)
Definition sessionKeys (msg : RawEvent) : list (option jsstr) :=
  [ev_sessionId msg; ev_session_id msg;
   match ev_session msg with
   | Some (Some id) => Some id
   | _ => None
   end].

Definition conversationKeys (msg : RawEvent) : list (option jsstr) :=
  [ev_conversationId msg; ev_conversation_id msg;
   match ev_conversation msg with
   | Some (Some id) => Some id
   | _ => None
   end].

Fixpoint firstNonEmpty (values : list (option jsstr)) : option jsstr :=
  match values with
  | [] => None
  | Some (c :: s) :: _ => Some (c :: s)
  | _ :: rest => firstNonEmpty rest
  end.

Definition latched (current : option jsstr) (exposed : list (option jsstr))
  : option jsstr :=
  match current with
  | Some (c :: s) => Some (c :: s)
  | _ =>
      match firstNonEmpty exposed with
      | Some identifier => Some identifier
      | None => current
      end
  end.

(** What [JSON.parse] makes of a line of standard output. *)
Inductive Parsed : Type :=
| notJson
(** a number, string or boolean *)
| primitive
| nullValue
| object (message : RawEvent).

End Wire.

(** ** The event handler installed by [runGemini] ([client.setHandler]) *)

Module GeminiHandler.
Import Wire Noise.

(** The variables of [runGemini] that the handler reads and writes. *)
Record Vars : Type := mkVars {
  currentMessageContent : jsstr;
  isStreamingMessage : bool;
  thinking : bool;
  (** how many values [randomUUID()] has produced *)
  uuids : nat
}.

Definition initialVars : Vars :=
  {| currentMessageContent := []; isStreamingMessage := false;
     thinking := false; uuids := 0 |}.

(** A step of the handler: the variables change and calls are made. *)
Definition Act : Type := Vars -> Vars * list Outbound.

Definition skip : Act := fun v => (v, []).

Definition andThen (f g : Act) : Act :=
  fun v => let '(v1, o1) := f v in let '(v2, o2) := g v1 in (v2, o1 ++ o2).

#[local] Infix ">>" := andThen (at level 61, left associativity).

Definition call (o : Outbound) : Act := fun v => (v, [o]).

Definition calls (os : list Outbound) : Act := fun v => (v, os).

(** [session.sendGeminiMessage({ ..., id: randomUUID() })] *)
Definition send (body : Uuid -> AgentMessage) : Act :=
  fun v =>
    ({| currentMessageContent := currentMessageContent v;
        isStreamingMessage := isStreamingMessage v;
        thinking := thinking v;
        uuids := S (uuids v) |},
     [sendAgentMessage (body (uuid (uuids v)))]).

(** The same for a body whose [callId] may itself come from [randomUUID()],
    which is then called first. *)
Definition sendWithCallId (candidate : option jsstr)
    (body : CallId -> Uuid -> AgentMessage) : Act :=
  fun v =>
    let '(cid, n) := callIdOf candidate (uuids v) in
    ({| currentMessageContent := currentMessageContent v;
        isStreamingMessage := isStreamingMessage v;
        thinking := thinking v;
        uuids := S n |},
     [sendAgentMessage (body cid (uuid n))]).

Definition resetStreaming : Act :=
  fun v =>
    ({| currentMessageContent := [];
        isStreamingMessage := false;
        thinking := thinking v;
        uuids := uuids v |}, []).

(** [thinking = b; session.keepAlive(thinking, 'remote')] *)
Definition setThinking (b : bool) : Act :=
  fun v =>
    ({| currentMessageContent := currentMessageContent v;
        isStreamingMessage := isStreamingMessage v;
        thinking := b;
        uuids := uuids v |}, [keepAlive b]).

Definition flushAccumulatedMessage : Act :=
  fun v =>
    if isStreamingMessage v && negb (Nat.eqb (length (currentMessageContent v)) 0)
    then (send (Message (currentMessageContent v)) >> resetStreaming) v
    else skip v.

Inductive Kind : Type :=
| KMessage | KToolUse | KToolCall | KToolResult | KFunctionResult | KThinking
| KError | KSystem | KDone | KResult | KProgress | KUnknown.

Definition isLit (s : jsstr) (l : string) : bool := str_eqb s (lit l).

(** The [case] labels of the [switch (msgType)]. *)
Definition kindOf (msgType : jsstr) : Kind :=
  if isLit msgType "message" || isLit msgType "assistant"
     || isLit msgType "assistant_message" then KMessage
  else if isLit msgType "tool_use" then KToolUse
  else if isLit msgType "tool_call" || isLit msgType "function_call" then KToolCall
  else if isLit msgType "tool_result" then KToolResult
  else if isLit msgType "function_result" then KFunctionResult
  else if isLit msgType "thinking" || isLit msgType "reasoning" then KThinking
  else if isLit msgType "error" then KError
  else if isLit msgType "system" || isLit msgType "system_message" then KSystem
  else if isLit msgType "done" || isLit msgType "complete"
          || isLit msgType "finished" then KDone
  else if isLit msgType "result" then KResult
  else if isLit msgType "progress" || isLit msgType "status" || isLit msgType "log"
          || isLit msgType "debug" || isLit msgType "info" then KProgress
  else KUnknown.

Definition msgTypeOf (msg : RawEvent) : jsstr :=
  or_lit (or_else (ev_type msg) (ev_event msg)) (lit "unknown").

Definition isErrorStatus (status : option jsstr) : bool :=
  match status with
  | Some s => isLit s "error" || isLit s "failed"
  | None => false
  end.

Definition handler (msg : RawEvent) : Act :=
  match kindOf (msgTypeOf msg) with
  | KMessage =>
      let messageText :=
        or_lit (or_else (or_else (ev_message msg) (ev_text msg)) (ev_content msg)) [] in
      if ev_delta msg then
        fun v =>
          ({| currentMessageContent := currentMessageContent v ++ messageText;
              isStreamingMessage := true;
              thinking := thinking v;
              uuids := uuids v |}, [])
      else
        fun v =>
          let finalContent :=
            if isStreamingMessage v then currentMessageContent v ++ messageText
            else messageText in
          ((match finalContent with
            | [] => skip
            | _ => send (Message finalContent)
            end) >> resetStreaming >> setThinking false) v
  | KToolUse =>
      flushAccumulatedMessage >>
      sendWithCallId
        (or_else (or_else (ev_tool_id msg) (ev_toolId msg)) (ev_call_id msg))
        (fun cid =>
           ToolCall (or_lit (or_else (ev_tool_name msg) (ev_name msg)) (lit "unknown"))
             cid (firstPresent [ev_parameters msg; ev_input msg]))
  | KToolCall =>
      flushAccumulatedMessage >>
      sendWithCallId
        (or_else (or_else (or_else (ev_call_id msg) (ev_tool_id msg)) (ev_toolId msg))
           (ev_id msg))
        (fun cid =>
           ToolCall
             (or_lit (or_else (or_else (ev_name msg) (ev_function_name msg))
                        (ev_tool_name msg)) (lit "unknown"))
             cid (firstPresent [ev_input msg; ev_arguments msg; ev_parameters msg]))
  | KToolResult =>
      sendWithCallId
        (or_else (or_else (or_else (ev_tool_id msg) (ev_toolId msg)) (ev_call_id msg))
           (ev_id msg))
        (fun cid =>
           ToolCallResult cid (firstPresent [ev_output msg; ev_result msg])
             (Some (isErrorStatus (ev_status msg))))
  | KFunctionResult =>
      sendWithCallId
        (or_else (or_else (or_else (ev_call_id msg) (ev_tool_id msg)) (ev_toolId msg))
           (ev_id msg))
        (fun cid =>
           ToolCallResult cid (firstPresent [ev_output msg; ev_result msg])
             (Some (isErrorStatus (ev_status msg))))
  | KThinking =>
      (fun v => if thinking v then skip v else setThinking true v) >>
      (if truthy (or_else (ev_text msg) (ev_content msg))
       then send (Thinking (or_lit (or_else (ev_text msg) (ev_content msg)) []))
       else skip)
  | KError =>
      let errorText := or_lit (or_else (ev_message msg) (ev_error msg)) [] in
      let isDebugError := isGeminiDebugOutput errorText in
      if negb (Nat.eqb (length errorText) 0) && negb isDebugError
      then send (ErrorMessage errorText)
      else skip
  | KSystem =>
      send (SystemMessage (or_lit (or_else (ev_message msg) (ev_text msg)) []))
  | KDone =>
      flushAccumulatedMessage >> setThinking false >> calls sendReady
  | KResult =>
      flushAccumulatedMessage >> setThinking false >>
      (match ev_stats msg with
       | Some (input_tokens, output_tokens) =>
           call (sendUsageData (default 0%N input_tokens) (default 0%N output_tokens))
       | None => skip
       end) >>
      calls sendReady
  | KProgress => skip
  | KUnknown =>
      match or_else (or_else (ev_message msg) (ev_text msg)) (ev_content msg) with
      | Some (c :: s) =>
          if negb (isGeminiDebugOutput (c :: s)) then send (Message (c :: s)) else skip
      | _ => skip
      end
  end.

(** The handler over a stream of events, calls accumulated in order. *)
Fixpoint handleAll (msgs : list RawEvent) : Act :=
  match msgs with
  | [] => skip
  | msg :: rest => handler msg >> handleAll rest
  end.

(** The text a message event carries: [msg.message || msg.text || msg.content],
    or the empty string. *)
Definition messageTextOf (msg : RawEvent) : jsstr :=
  or_lit (or_else (or_else (ev_message msg) (ev_text msg)) (ev_content msg)) [].

(** The text an event adds to what the handler has to send as messages: the
    text of a message event, nothing for the other events. *)
Definition textOf (msg : RawEvent) : jsstr :=
  match kindOf (msgTypeOf msg) with
  | KMessage => messageTextOf msg
  | _ => []
  end.

(** An event whose type the [switch] of the handler names. *)
Definition known (msg : RawEvent) : Prop := kindOf (msgTypeOf msg) <> KUnknown.

Definition isToolCall (msg : RawEvent) : bool :=
  match kindOf (msgTypeOf msg) with
  | KToolUse | KToolCall => true
  | _ => false
  end.

Definition isToolResult (msg : RawEvent) : bool :=
  match kindOf (msgTypeOf msg) with
  | KToolResult | KFunctionResult => true
  | _ => false
  end.

(** The states the handler produces: text is buffered only while streaming. *)
Definition buffered (v : Vars) : Prop :=
  isStreamingMessage v = false -> currentMessageContent v = [].

(** The one message made of a text, none when the text is empty. *)
Definition messageOf (text : jsstr) : list jsstr :=
  match text with
  | [] => []
  | _ => [text]
  end.

End GeminiHandler.

(** ** The host: what the clients observe of the operating system *)

Module Host.

Record Error : Type := mkError {
  name : jsstr;
  message : jsstr
}.

(** [new Error(message)] *)
Definition newError (message : jsstr) : Error :=
  {| name := lit "Error"; message := message |}.

(** What a call returns to the [await] of its caller. *)
Inductive Completion : Type :=
| Returned
| Threw (e : Error).

Record McpServer : Type := mkMcpServer {
  command : jsstr;
  args : list jsstr
}.

(** [Record<string, McpServer>], keys in order. *)
Abbreviation McpServers := (list (jsstr * McpServer)).

(** [GeminiSessionConfig] / [CursorSessionConfig] *)
Record SessionConfig : Type := mkConfig {
  prompt : option jsstr;
  model : option jsstr;
  cwd : option jsstr;
  mcpServers : option McpServers;
  (** Cursor only *)
  outputFormat : option jsstr
}.

(** One element of the argument vector of a spawned process. *)
Inductive Arg : Type :=
| arg (s : jsstr)
(** [JSON.stringify({ mcpServers })] *)
| mcpConfigJson (servers : McpServers).

Inductive Stdio : Type := inherit | pipe.

(** Number of an [AbortSignal]. *)
Abbreviation Signal := nat.

Record Spawn : Type := mkSpawn {
  sp_path : jsstr;
  sp_args : list Arg;
  sp_cwd : jsstr;
  sp_stdio : Stdio;
  sp_signal : option Signal;
  sp_shell : bool
}.

(** What a client did to the operating system, in order.  Processes are
    numbered in the order they were spawned. *)
Inductive Action : Type :=
| spawned (pid : nat) (s : Spawn)
| killed (pid : nat)
| readerClosed (pid : nat)
| stdinWritten (pid : nat) (data : jsstr).

(** What is observed of the host during one client call. *)
Record Env : Type := mkEnv {
  stdinIsTTY : bool;
  stdoutIsTTY : bool;
  (** [String(process.env.VIBE_GEMINI_INTERACTIVE || '').toLowerCase()] *)
  interactiveEnv : jsstr;
  (** [process.cwd()] *)
  processCwd : jsstr;
  (** [process.platform === 'win32'] *)
  isWin32 : bool;
  (** result of [getGeminiCliPath()] / [getCursorAgentPath()] *)
  cliPath : option jsstr;
  (** the error [spawn] throws, if it throws *)
  spawnThrows : option Error;
  (** the error [stdin.write] throws, if it throws *)
  stdinWriteThrows : option Error;
  (** [resolve(projectPath(), 'bin', 'vibe-mcp.mjs')] *)
  bridgeCommand : jsstr;
  (** [vibeServer.url] *)
  vibeServerUrl : jsstr;
  (** [Date.now()] *)
  dateNow : N
}.

Fixpoint pidsSpawned (trace : list Action) : nat :=
  match trace with
  | spawned _ _ :: rest => S (pidsSpawned rest)
  | _ :: rest => pidsSpawned rest
  | [] => 0
  end.

Definition isFlag (a : Arg) (flag : string) : bool :=
  match a with
  | arg s => bool_decide (s = lit flag)
  | _ => false
  end.

(** The values that follow a [-p] flag in an argument vector. *)
Fixpoint promptArgsFrom (afterFlag : bool) (args : list Arg) : list jsstr :=
  match args with
  | [] => []
  | a :: rest =>
      if afterFlag then
        match a with
        | arg value => value :: promptArgsFrom false rest
        | _ => promptArgsFrom false rest
        end
      else promptArgsFrom (isFlag a "-p") rest
  end.

(** The prompts that reached a backend process: [-p] arguments of spawned
    processes and text written to a process's standard input. *)
Definition promptsOf (a : Action) : list jsstr :=
  match a with
  | spawned _ s => promptArgsFrom false (sp_args s)
  | stdinWritten _ data => [data]
  | _ => []
  end.

Definition promptsDelivered (trace : list Action) : list jsstr :=
  concat (promptsOf <$> trace).

End Host.

(** ** [GeminiClient] *)

Module GeminiClient.
Import Host Wire Noise.

Record t : Type := mkClient {
  (** the number of the child process held in [this.process] *)
  process : option nat;
  sessionId : option jsstr;
  conversationId : option jsstr;
  connected : bool;
  currentAbortSignal : option Signal;
  (** the process whose standard output [this.stdoutReader] reads *)
  stdoutReader : option nat;
  trace : list Action
}.

Definition create : t :=
  {| process := None; sessionId := None; conversationId := None;
     connected := false; currentAbortSignal := None; stdoutReader := None;
     trace := [] |}.

Definition connect (c : t) : t :=
  {| process := process c; sessionId := sessionId c;
     conversationId := conversationId c; connected := true;
     currentAbortSignal := currentAbortSignal c;
     stdoutReader := stdoutReader c; trace := trace c |}.

(** [if (this.process) { this.process.kill('SIGTERM'); this.process = null; }] *)
Definition killProcess (c : t) : t :=
  match process c with
  | Some pid =>
      {| process := None; sessionId := sessionId c;
         conversationId := conversationId c; connected := connected c;
         currentAbortSignal := currentAbortSignal c;
         stdoutReader := stdoutReader c; trace := trace c ++ [killed pid] |}
  | None => c
  end.

(** [if (this.stdoutReader) { this.stdoutReader.close(); this.stdoutReader = null; }] *)
Definition closeReader (c : t) : t :=
  match stdoutReader c with
  | Some pid =>
      {| process := process c; sessionId := sessionId c;
         conversationId := conversationId c; connected := connected c;
         currentAbortSignal := currentAbortSignal c;
         stdoutReader := None; trace := trace c ++ [readerClosed pid] |}
  | None => c
  end.

Definition setIdentifiers (sid cid : option jsstr) (c : t) : t :=
  {| process := process c; sessionId := sid; conversationId := cid;
     connected := connected c; currentAbortSignal := currentAbortSignal c;
     stdoutReader := stdoutReader c; trace := trace c |}.

(** The identifier properties of a [GeminiToolResponse]. *)
Record Response : Type := mkResponse {
  meta_sessionId : option jsstr;
  r_sessionId : option jsstr;
  meta_conversationId : option jsstr;
  r_conversationId : option jsstr
}.

(** [{ content: [], isError: false }] *)
Definition plainResponse : Response := mkResponse None None None None.

Definition extractIdentifiers (r : Response) (c : t) : t :=
  setIdentifiers
    (if truthy (meta_sessionId r) then meta_sessionId r
     else if truthy (r_sessionId r) then r_sessionId r
     else sessionId c)
    (if truthy (meta_conversationId r) then meta_conversationId r
     else if truthy (r_conversationId r) then r_conversationId r
     else conversationId c)
    c.

Definition forceInteractive (env : Env) : bool :=
  str_eqb (interactiveEnv env) (lit "1")
  || str_eqb (interactiveEnv env) (lit "true")
  || str_eqb (interactiveEnv env) (lit "yes").

Definition flagged (flag : string) (value : option jsstr) : list Arg :=
  match value with
  | Some (c :: s) => [arg (lit flag); arg (c :: s)]
  | _ => []
  end.

Definition notFound : Error :=
  newError (lit "Gemini CLI not found. Please install it: npm install -g @google/gemini-cli").

Definition startFailed (cause : Error) (geminiPath : jsstr) : Error :=
  newError (lit "Failed to start Gemini CLI (" ++ message cause
            ++ lit "). Tried path: " ++ geminiPath).

Definition startSession (env : Env) (config : SessionConfig)
    (signal : option Signal) (c : t) : t * Completion :=
  let c := if connected c then c else connect c in
  let c := killProcess c in
  match cliPath env with
  | None => (c, Threw notFound)
  | Some geminiPath =>
      let isInteractive :=
        forceInteractive env && stdinIsTTY env && stdoutIsTTY env
        && negb (truthy (prompt config)) in
      let args :=
        (if isInteractive then []
         else [arg (lit "--output-format"); arg (lit "stream-json")]
              ++ flagged "-p" (prompt config))
        ++ flagged "-m" (model config) in
      (* configured MCP servers only produce a warning *)
      let cwd := or_lit (cwd config) (processCwd env) in
      let stdioConfig := if isInteractive then inherit else pipe in
      match spawnThrows env with
      | Some cause =>
          ({| process := process c; sessionId := sessionId c;
              conversationId := conversationId c; connected := connected c;
              currentAbortSignal := signal;
              stdoutReader := stdoutReader c; trace := trace c |},
           Threw (startFailed cause geminiPath))
      | None =>
          let pid := pidsSpawned (trace c) in
          let child :=
            {| sp_path := geminiPath; sp_args := args; sp_cwd := cwd;
               sp_stdio := stdioConfig; sp_signal := signal;
               sp_shell := false |} in
          (extractIdentifiers plainResponse
             {| process := Some pid; sessionId := sessionId c;
                conversationId := conversationId c; connected := connected c;
                currentAbortSignal := signal;
                stdoutReader := if isInteractive then stdoutReader c else Some pid;
                trace := trace c ++ [spawned pid child] |},
           Returned)
      end
  end.

Definition continueSession (env : Env) (prompt : jsstr)
    (signal : option Signal) (c : t) : t * Completion :=
  startSession env
    {| prompt := Some prompt; model := None; cwd := Some (processCwd env);
       mcpServers := None; outputFormat := None |}
    signal c.

(** A command-line invocation made of a prompt and a working directory and
    nothing else: the output format and the prompt as arguments, or no
    argument at all for an empty prompt on an interactive terminal. *)
Definition promptOnly (env : Env) (prompt : jsstr) (signal : option Signal)
    (geminiPath : jsstr) : Spawn :=
  let interactive :=
    forceInteractive env && stdinIsTTY env && stdoutIsTTY env
    && negb (truthy (Some prompt)) in
  {| sp_path := geminiPath;
     sp_args := if interactive then []
                else [arg (lit "--output-format"); arg (lit "stream-json")]
                     ++ flagged "-p" (Some prompt);
     sp_cwd := processCwd env;
     sp_stdio := if interactive then inherit else pipe;
     sp_signal := signal;
     sp_shell := false |}.

Definition updateIdentifiersFromMessage (message : RawEvent) (c : t) : t :=
  let sid :=
    or_else (or_else (ev_sessionId message) (ev_session_id message))
      (nestedId (ev_session message)) in
  let c :=
    if truthy sid && negb (truthy (sessionId c))
    then setIdentifiers sid (conversationId c) c else c in
  let cid :=
    or_else (or_else (ev_conversationId message) (ev_conversation_id message))
      (nestedId (ev_conversation message)) in
  if truthy cid && negb (truthy (conversationId c))
  then setIdentifiers (sessionId c) cid c else c.

(** The ['line'] listener: the new client state and the events passed on to
    the handler.  A primitive value has no property the handler reads, and
    the handler's failure on [null] is caught by the listener. *)
Definition onStdoutLine (line : Parsed) (c : t) : t * list RawEvent :=
  match line with
  | notJson => (c, [])
  | primitive => (c, [])
  | nullValue => (c, [])
  | object message => (updateIdentifiersFromMessage message c, [message])
  end.

(** The ['data'] listener of standard error. *)
Definition onStderrData (data : jsstr) : list RawEvent :=
  let text := trim data in
  if negb (isDebugOutput text) && negb (Nat.eqb (length text) 0)
  then [typedText (lit "error") text]
  else [].

(** The ['exit'] listener of a child process. *)
Definition onExit (c : t) : t :=
  let c := closeReader c in
  {| process := None; sessionId := sessionId c;
     conversationId := conversationId c; connected := connected c;
     currentAbortSignal := currentAbortSignal c;
     stdoutReader := stdoutReader c; trace := trace c |}.

Definition hasActiveSession (c : t) : bool :=
  match process c with
  | Some _ => true
  | None => false
  end.

Definition clearSession (c : t) : t :=
  setIdentifiers None None (closeReader (killProcess c)).

Definition disconnect (c : t) : t :=
  let c := clearSession c in
  {| process := process c; sessionId := sessionId c;
     conversationId := conversationId c; connected := false;
     currentAbortSignal := currentAbortSignal c;
     stdoutReader := stdoutReader c; trace := trace c |}.

(** Events reaching the client through [handleMessage], one after another. *)
Definition handleMessages (messages : list RawEvent) (c : t) : t :=
  foldl (fun acc m => updateIdentifiersFromMessage m acc) c messages.

End GeminiClient.

(** ** [CursorClient] *)

Module CursorClient.
Import Host Wire.

Record t : Type := mkClient {
  (** the child process held in [this.process], with its stdio setting *)
  process : option (nat * Stdio);
  sessionId : option jsstr;
  conversationId : option jsstr;
  connected : bool;
  currentAbortSignal : option Signal;
  stdoutReader : option nat;
  trace : list Action
}.

Definition create : t :=
  {| process := None; sessionId := None; conversationId := None;
     connected := false; currentAbortSignal := None; stdoutReader := None;
     trace := [] |}.

Definition connect (c : t) : t :=
  {| process := process c; sessionId := sessionId c;
     conversationId := conversationId c; connected := true;
     currentAbortSignal := currentAbortSignal c;
     stdoutReader := stdoutReader c; trace := trace c |}.

Definition killProcess (c : t) : t :=
  match process c with
  | Some (pid, _) =>
      {| process := None; sessionId := sessionId c;
         conversationId := conversationId c; connected := connected c;
         currentAbortSignal := currentAbortSignal c;
         stdoutReader := stdoutReader c; trace := trace c ++ [killed pid] |}
  | None => c
  end.

Definition closeReader (c : t) : t :=
  match stdoutReader c with
  | Some pid =>
      {| process := process c; sessionId := sessionId c;
         conversationId := conversationId c; connected := connected c;
         currentAbortSignal := currentAbortSignal c;
         stdoutReader := None; trace := trace c ++ [readerClosed pid] |}
  | None => c
  end.

Definition setIdentifiers (sid cid : option jsstr) (c : t) : t :=
  {| process := process c; sessionId := sid; conversationId := cid;
     connected := connected c; currentAbortSignal := currentAbortSignal c;
     stdoutReader := stdoutReader c; trace := trace c |}.

Definition notFound : Error :=
  newError (lit "Cursor CLI (cursor-agent) not found. Please install it: curl https://cursor.com/install -fsS | bash").

Definition flagged (flag : string) (value : option jsstr) : list Arg :=
  match value with
  | Some (c :: s) => [arg (lit flag); arg (c :: s)]
  | _ => []
  end.

(** [cursorPath.includes('\\') || cursorPath.includes('/') || cursorPath.includes(':')] *)
Definition isFullPath (cursorPath : jsstr) : bool :=
  includes cursorPath [92%N] || includes cursorPath (lit "/")
  || includes cursorPath (lit ":").

Definition startSession (env : Env) (config : SessionConfig)
    (signal : option Signal) (c : t) : t * Completion :=
  let c := if connected c then c else connect c in
  let c := killProcess c in
  match cliPath env with
  | None => (c, Threw notFound)
  | Some cursorPath =>
      let isInteractive :=
        stdinIsTTY env && stdoutIsTTY env && negb (truthy (prompt config)) in
      let args :=
        (if isInteractive then []
         else flagged "--output-format" (outputFormat config)
              ++ flagged "-p" (prompt config))
        ++ flagged "--model" (model config)
        ++ match mcpServers config with
           | Some (server :: servers) =>
               [arg (lit "--mcp-config"); mcpConfigJson (server :: servers)]
           | _ => []
           end in
      let cwd := or_lit (cwd config) (processCwd env) in
      let stdioConfig := if isInteractive then inherit else pipe in
      let shell := isWin32 env && negb (isFullPath cursorPath) in
      match spawnThrows env with
      | Some cause =>
          ({| process := process c; sessionId := sessionId c;
              conversationId := conversationId c; connected := connected c;
              currentAbortSignal := signal;
              stdoutReader := stdoutReader c; trace := trace c |},
           Threw cause)
      | None =>
          let pid := pidsSpawned (trace c) in
          let child :=
            {| sp_path := cursorPath; sp_args := args; sp_cwd := cwd;
               sp_stdio := stdioConfig; sp_signal := signal;
               sp_shell := shell |} in
          ({| process := Some (pid, stdioConfig); sessionId := sessionId c;
              conversationId := conversationId c; connected := connected c;
              currentAbortSignal := signal;
              stdoutReader := if isInteractive then stdoutReader c else Some pid;
              trace := trace c ++ [spawned pid child] |},
           Returned)
      end
  end.

Definition continueSession (env : Env) (prompt : jsstr)
    (signal : option Signal) (c : t) : t * Completion :=
  let restart :=
    startSession env
      {| prompt := Some prompt; model := None; cwd := Some (processCwd env);
         mcpServers := None; outputFormat := None |}
      signal c in
  match process c with
  | Some (pid, pipe) =>
      match stdinWriteThrows env with
      | None =>
          ({| process := process c; sessionId := sessionId c;
              conversationId := conversationId c; connected := connected c;
              currentAbortSignal := currentAbortSignal c;
              stdoutReader := stdoutReader c;
              trace := trace c ++ [stdinWritten pid (prompt ++ lit_newline)] |},
           Returned)
      | Some _ => restart
      end
  | _ => restart
  end.

Definition updateIdentifiersFromMessage (message : RawEvent) (c : t) : t :=
  let sid :=
    or_else (or_else (ev_sessionId message) (ev_session_id message))
      (nestedId (ev_session message)) in
  let c :=
    if truthy sid && negb (truthy (sessionId c))
    then setIdentifiers sid (conversationId c) c else c in
  let cid :=
    or_else (or_else (ev_conversationId message) (ev_conversation_id message))
      (nestedId (ev_conversation message)) in
  if truthy cid && negb (truthy (conversationId c))
  then setIdentifiers (sessionId c) cid c else c.

(** The text branch of [processOutputLine]. *)
Definition textEvent (line : jsstr) : list RawEvent :=
  match trim line with
  | [] => []
  | _ =>
      if startsWith line (lit "Error:") || startsWith line (lit "error:")
      then [typedText (lit "error") line]
      else if startsWith line (lit "Thinking...") || includes line (lit "[thinking]")
      then [typedText (lit "thinking") line]
      else [typedText (lit "message") line]
  end.

(** [processOutputLine]: [parsed] is what [JSON.parse(line)] gives.  The
    handler fails on [null]; the failure is caught and the line is then
    treated as text. *)
Definition processOutputLine (line : jsstr) (parsed : Parsed) (c : t)
  : t * list RawEvent :=
  match parsed with
  | object message => (updateIdentifiersFromMessage message c, [message])
  | primitive => (c, [])
  | nullValue => (c, textEvent line)
  | notJson => (c, textEvent line)
  end.

(** The ['data'] listener of standard error: every chunk is passed on. *)
Definition onStderrData (data : jsstr) : list RawEvent :=
  [typedText (lit "error") data].

(** The ['exit'] listener of a child process: the reader is closed, the
    process forgotten, and a [done] event passed on. *)
Definition onExit (c : t) : t * list RawEvent :=
  let c := closeReader c in
  ({| process := None; sessionId := sessionId c;
      conversationId := conversationId c; connected := connected c;
      currentAbortSignal := currentAbortSignal c;
      stdoutReader := stdoutReader c; trace := trace c |},
   [mkEvent (Some (lit "done")) None None None None None false None None None
      None None None None None None None None None None None None None None
      None None None]).

Definition hasActiveSession (c : t) : bool :=
  match process c with
  | Some _ => true
  | None => false
  end.

Definition clearSession (c : t) : t :=
  setIdentifiers None None (closeReader (killProcess c)).

Definition handleMessages (messages : list RawEvent) (c : t) : t :=
  foldl (fun acc m => updateIdentifiersFromMessage m acc) c messages.

(** The bodies a line of text may become, for a given identifier. *)
Definition textBodies (line : jsstr) (id : Uuid) : list AgentMessage :=
  [Message line id; ErrorMessage line id; Thinking line id].

End CursorClient.

(** ** The event handler installed by [runCursor] *)

Module CursorHandler.
Import Wire.

Record Vars : Type := mkVars {
  thinking : bool;
  uuids : nat
}.

Definition initialVars : Vars := {| thinking := false; uuids := 0 |}.

Definition Act : Type := Vars -> Vars * list Outbound.

Definition skip : Act := fun v => (v, []).

Definition andThen (f g : Act) : Act :=
  fun v => let '(v1, o1) := f v in let '(v2, o2) := g v1 in (v2, o1 ++ o2).

#[local] Infix ">>" := andThen (at level 61, left associativity).

Definition calls (os : list Outbound) : Act := fun v => (v, os).

Definition send (body : Uuid -> AgentMessage) : Act :=
  fun v =>
    ({| thinking := thinking v; uuids := S (uuids v) |},
     [sendAgentMessage (body (uuid (uuids v)))]).

Definition sendWithCallId (candidate : option jsstr)
    (body : CallId -> Uuid -> AgentMessage) : Act :=
  fun v =>
    let '(cid, n) := callIdOf candidate (uuids v) in
    ({| thinking := thinking v; uuids := S n |},
     [sendAgentMessage (body cid (uuid n))]).

Definition setThinking (b : bool) : Act :=
  fun v => ({| thinking := b; uuids := uuids v |}, [keepAlive b]).

Inductive Kind : Type :=
| KMessage | KAssistantMessage | KToolCall | KToolResult | KThinking | KError
| KSystem | KDone | KUnknown.

Definition isLit (s : jsstr) (l : string) : bool := str_eqb s (lit l).

Definition kindOf (msgType : jsstr) : Kind :=
  if isLit msgType "message" || isLit msgType "assistant" then KMessage
  else if isLit msgType "assistant_message" then KAssistantMessage
  else if isLit msgType "tool_call" || isLit msgType "function_call" then KToolCall
  else if isLit msgType "tool_result" || isLit msgType "function_result"
  then KToolResult
  else if isLit msgType "thinking" || isLit msgType "reasoning" then KThinking
  else if isLit msgType "error" then KError
  else if isLit msgType "system" || isLit msgType "system_message" then KSystem
  else if isLit msgType "done" || isLit msgType "complete"
          || isLit msgType "finished" then KDone
  else KUnknown.

Definition msgTypeOf (msg : RawEvent) : jsstr :=
  or_lit (or_else (ev_type msg) (ev_event msg)) (lit "unknown").

Definition messageText (msg : RawEvent) : jsstr :=
  or_lit (or_else (or_else (ev_message msg) (ev_text msg)) (ev_content msg)) [].

Definition handler (msg : RawEvent) : Act :=
  match kindOf (msgTypeOf msg) with
  | KMessage => send (Message (messageText msg)) >> setThinking false
  | KAssistantMessage => send (Message (messageText msg))
  | KToolCall =>
      sendWithCallId (or_else (ev_call_id msg) (ev_id msg))
        (fun cid =>
           ToolCall (or_lit (or_else (ev_name msg) (ev_function_name msg)) (lit "unknown"))
             cid (firstPresent [ev_input msg; ev_arguments msg]))
  | KToolResult =>
      sendWithCallId (or_else (ev_call_id msg) (ev_id msg))
        (fun cid => ToolCallResult cid (firstPresent [ev_output msg; ev_result msg]) None)
  | KThinking =>
      (fun v => if thinking v then skip v else setThinking true v) >>
      (let text := or_else (or_else (ev_text msg) (ev_content msg)) (ev_message msg) in
       if truthy text then send (Thinking (or_lit text [])) else skip)
  | KError =>
      send (ErrorMessage (or_lit (or_else (ev_message msg) (ev_error msg))
                            (lit "Unknown error")))
  | KSystem =>
      send (SystemMessage (or_lit (or_else (ev_message msg) (ev_text msg)) []))
  | KDone => setThinking false >> calls sendReady
  | KUnknown =>
      match or_else (or_else (ev_message msg) (ev_text msg)) (ev_content msg) with
      | Some (c :: s) => send (Message (c :: s))
      | _ => skip
      end
  end.

Fixpoint handleAll (msgs : list RawEvent) : Act :=
  match msgs with
  | [] => skip
  | msg :: rest => handler msg >> handleAll rest
  end.

(** The events of the tool-call and of the tool-result [case] labels. *)
Definition isToolCall (msg : RawEvent) : bool :=
  match kindOf (msgTypeOf msg) with
  | KToolCall => true
  | _ => false
  end.

Definition isToolResult (msg : RawEvent) : bool :=
  match kindOf (msgTypeOf msg) with
  | KToolResult => true
  | _ => false
  end.

End CursorHandler.

(** ** [CursorPermissionHandler] *)

Module CursorPermission.
Import Permission.

Inductive Decision : Type := approved | approved_for_session | denied | abort.

Inductive PromiseState : Type :=
| Pending
| Fulfilled (decision : Decision)
| Rejected (message : jsstr).

Inductive Status : Type := status_approved | status_denied | status_canceled.

(** An entry of [AgentState.completedRequests]. *)
Record Completed : Type := mkCompleted {
  request : AgentRequest;
  completedAt : N;
  status : Status;
  completedDecision : option Decision;
  completedReason : option jsstr
}.

Record t : Type := mkHandler {
  pendingRequests : JSMap.t PendingRequest;
  promises : list PromiseState;
  callbackLog : list (nat * PromiseState);
  agentRequests : gmap jsstr AgentRequest;
  completedRequests : gmap jsstr Completed
}.

Definition create : t :=
  {| pendingRequests := []; promises := []; callbackLog := [];
     agentRequests := ∅; completedRequests := ∅ |}.

Definition settlePromise (p : nat) (v : PromiseState) (ps : list PromiseState)
  : list PromiseState :=
  match ps !! p with
  | Some Pending => <[p := v]> ps
  | _ => ps
  end.

Definition invoke (p : nat) (v : PromiseState) (h : t) : t :=
  {| pendingRequests := pendingRequests h;
     promises := settlePromise p v (promises h);
     callbackLog := callbackLog h ++ [(p, v)];
     agentRequests := agentRequests h;
     completedRequests := completedRequests h |}.

Definition resetMessage : jsstr := lit "Session reset".

(** [reset()]: every pending promise is rejected, the table is cleared, and
    the requests of the agent state move to the completed ones as canceled. *)
Definition reset (now : N) (h : t) : t :=
  let h1 :=
    foldl (fun acc e => invoke (promise e.2) (Rejected resetMessage) acc)
      h (pendingRequests h) in
  {| pendingRequests := JSMap.clear (pendingRequests h1);
     promises := promises h1;
     callbackLog := callbackLog h1;
     agentRequests := ∅;
     completedRequests :=
       ((fun r => {| request := r; completedAt := now; status := status_canceled;
                     completedDecision := None;
                     completedReason := Some resetMessage |})
          <$> agentRequests h1) ∪ completedRequests h1 |}.

(** The loop of [reset] over the entries of the table. *)
Definition rejecting (entries : list (jsstr * PendingRequest)) (h : t) : t :=
  foldl (fun acc e => invoke (promise e.2) (Rejected resetMessage) acc) h entries.

(** [PermissionResponse]: what the mobile application answers. *)
Record PermissionResponse : Type := mkResponse {
  responseId : jsstr;
  isApproved : bool;
  responseDecision : option Decision;
  responseReason : option jsstr
}.

(** The [result] the RPC handler builds from a response. *)
Definition resultOf (response : PermissionResponse) : Decision :=
  if isApproved response then
    match responseDecision response with
    | Some approved_for_session => approved_for_session
    | _ => approved
    end
  else
    match responseDecision response with
    | Some denied => denied
    | _ => abort
    end.

(** The ['permission'] RPC handler. *)
Definition onPermission (now : N) (response : PermissionResponse) (h : t) : t :=
  match JSMap.get (responseId response) (pendingRequests h) with
  | None => h
  | Some pending =>
      let h1 :=
        invoke (promise pending) (Fulfilled (resultOf response))
          {| pendingRequests := JSMap.delete (responseId response) (pendingRequests h);
             promises := promises h;
             callbackLog := callbackLog h;
             agentRequests := agentRequests h;
             completedRequests := completedRequests h |} in
      match agentRequests h1 !! responseId response with
      | None => h1
      | Some request =>
          {| pendingRequests := pendingRequests h1;
             promises := promises h1;
             callbackLog := callbackLog h1;
             agentRequests := delete (responseId response) (agentRequests h1);
             completedRequests :=
               <[responseId response :=
                   {| request := request; completedAt := now;
                      status := if isApproved response then status_approved
                                else status_denied;
                      completedDecision := Some (resultOf response);
                      completedReason := None |}]> (completedRequests h1) |}
      end
  end.

Definition handleToolCall (toolCallId toolName : jsstr) (input : json) (now : N)
    (h : t) : t * nat :=
  let p := length (promises h) in
  ({| pendingRequests :=
        JSMap.set toolCallId
          {| promise := p; toolName := toolName; Permission.input := input |}
          (pendingRequests h);
      promises := promises h ++ [Pending];
      callbackLog := callbackLog h;
      agentRequests :=
        <[toolCallId := {| tool := toolName; arguments := input;
                           createdAt := now |}]> (agentRequests h);
      completedRequests := completedRequests h |}, p).

(** The calls made on the handler, each with the reading of [Date.now()]. *)
Inductive Op : Type :=
| opToolCall (toolCallId toolName : jsstr) (input : json) (now : N)
| opPermission (now : N) (response : PermissionResponse)
| opReset (now : N).

Definition apply (o : Op) (h : t) : t :=
  match o with
  | opToolCall toolCallId toolName input now =>
      (handleToolCall toolCallId toolName input now h).1
  | opPermission now response => onPermission now response h
  | opReset now => reset now h
  end.

Definition applyAll (ops : list Op) (h : t) : t :=
  foldl (fun acc o => apply o acc) h ops.

(** A decision that lets the tool run. *)
Definition grants (d : Decision) : bool :=
  match d with
  | approved | approved_for_session => true
  | denied | abort => false
  end.

End CursorPermission.

(** ** The message queue ([MessageQueue2]) *)

Module MessageQueue.

Inductive PermissionMode : Type := mode_default | read_only | safe_yolo | yolo.

(** [EnhancedMode] of the entry points. *)
Record EnhancedMode : Type := mkMode {
  permissionMode : PermissionMode;
  model : option jsstr
}.

Record QueuedMessage : Type := mkQueued {
  text : jsstr;
  mode : EnhancedMode;
  (** the fingerprint [hashObject] gave the mode when it was pushed *)
  modeHash : jsstr;
  isolate : bool
}.

(** What [waitForMessagesAndGetAsString] resolves to. *)
Record Batch : Type := mkBatch {
  message : jsstr;
  batchMode : EnhancedMode;
  hash : jsstr
}.

Abbreviation t := (list QueuedMessage).

Section Queue.
(** The separator placed between the texts of one batch. *)
Variable separator : jsstr.

(** Modelled from the spec: [push] of the queue class, which is absent from
    the sources; it appends a message that may merge with its neighbours. *)
Definition push (text : jsstr) (m : EnhancedMode) (h : jsstr) (q : t) : t :=
  q ++ [{| text := text; mode := m; modeHash := h; isolate := false |}].

(** Modelled from the spec: [reset] of the queue class; it discards every
    queued message. *)
Definition reset (q : t) : t := [].

(** Modelled from the spec: the messages that immediately follow the head,
    share its fingerprint and are not isolated, and the rest of the queue. *)
Fixpoint takeSame (h : jsstr) (q : t) : t * t :=
  match q with
  | [] => ([], [])
  | item :: q' =>
      if bool_decide (modeHash item = h) && negb (isolate item) then
        let '(same, rest) := takeSame h q' in (item :: same, rest)
      else ([], q)
  end.

(** Modelled from the spec: [drainNextBatch], the queue class being absent
    from the sources.  [None] stands for a queue with nothing to drain, on
    which the call stays suspended. *)
Definition drainNextBatch (q : t) : option (Batch * t) :=
  match q with
  | [] => None
  | head :: q' =>
      let '(same, rest) :=
        if isolate head then ([], q') else takeSame (modeHash head) q' in
      Some ({| message := join separator (text <$> (head :: same));
               batchMode := mode head;
               hash := modeHash head |}, rest)
  end.

End Queue.
End MessageQueue.

(** ** [session.onUserMessage] of [runGemini] and [runCursor]

    The two entry points register the same callback: it resolves the
    permission mode and the model of the message against the overrides kept
    from earlier messages, and pushes the text under the resolved mode. *)

Module UserMessages.
Import MessageQueue.

(** [message.meta].  [metaPermissionMode] is the string received, [None] when
    the property is missing; [metaModel] is [None] when
    [hasOwnProperty('model')] is false, and [Some None] for a property that
    holds [null] or [undefined]. *)
Record Meta : Type := mkMeta {
  metaPermissionMode : option jsstr;
  metaModel : option (option jsstr)
}.

Record UserMessage : Type := mkUserMessage {
  meta : option Meta;
  (** [message.content.text] *)
  contentText : jsstr
}.

(** [currentPermissionMode] and [currentModel] of the entry point. *)
Record Overrides : Type := mkOverrides {
  currentPermissionMode : option PermissionMode;
  currentModel : option jsstr
}.

Definition noOverrides : Overrides :=
  {| currentPermissionMode := None; currentModel := None |}.

(** [validModes.includes(s)], with the mode the string names. *)
Definition validMode (s : jsstr) : option PermissionMode :=
  if str_eqb s (lit "default") then Some mode_default
  else if str_eqb s (lit "read-only") then Some read_only
  else if str_eqb s (lit "safe-yolo") then Some safe_yolo
  else if str_eqb s (lit "yolo") then Some yolo
  else None.

(** The body of the callback up to the push: the overrides it leaves and the
    [enhancedMode] it builds. *)
Definition resolve (message : UserMessage) (o : Overrides) : Overrides * EnhancedMode :=
  let requested := meta message ≫= metaPermissionMode in
  let '(messagePermissionMode, permissionMode') :=
    if truthy requested then
      match requested ≫= validMode with
      | Some p => (Some p, Some p)
      | None => (currentPermissionMode o, currentPermissionMode o)
      end
    else (currentPermissionMode o, currentPermissionMode o) in
  let '(messageModel, model') :=
    match meta message ≫= metaModel with
    | Some value =>
        let messageModel := if truthy value then value else None in
        (messageModel, messageModel)
    | None => (currentModel o, currentModel o)
    end in
  ({| currentPermissionMode := permissionMode'; currentModel := model' |},
   {| permissionMode := default mode_default messagePermissionMode;
      model := messageModel |}).

(** The mode a message asks for, when it names one of the valid modes. *)
Definition requestedMode (message : UserMessage) : option PermissionMode :=
  (meta message ≫= metaPermissionMode) ≫= validMode.

(** The model a message asks for: [Some None] asks for the default model. *)
Definition requestedModel (message : UserMessage) : option (option jsstr) :=
  (fun value => if truthy value then value else None) <$> (meta message ≫= metaModel).

Section Push.
(** The fingerprint function the queue was built with:
    [mode => hashObject({permissionMode, model})]. *)
Variable hashObject : EnhancedMode -> jsstr.

(** The callback on the overrides and the queue. *)
Definition onUserMessage (message : UserMessage) (st : Overrides * MessageQueue.t)
  : Overrides * MessageQueue.t :=
  let '(o, enhancedMode) := resolve message st.1 in
  (o, push (contentText message) enhancedMode (hashObject enhancedMode) st.2).

(** The callback over the messages received, in order. *)
Definition onUserMessages (messages : list UserMessage) (st : Overrides * MessageQueue.t)
  : Overrides * MessageQueue.t :=
  foldl (fun st message => onUserMessage message st) st messages.

End Push.

End UserMessages.

(** ** The session loop of [runGemini] and [runCursor]

    The two entry points run the same loop, each over its own client,
    permission handler and handler variables; the loop is written once over
    that interface. *)

Module Loop.
Import Host Wire MessageQueue.

Record Adapter : Type := mkAdapter {
  client : Type;
  permission : Type;
  vars : Type;
  (** [isInteractive] as the loop computes it *)
  loopInteractive : Env -> bool;
  startSession : Env -> SessionConfig -> option Signal -> client -> client * Completion;
  continueSession : Env -> jsstr -> option Signal -> client -> client * Completion;
  clearSession : client -> client;
  (** [permissionHandler.reset()] *)
  resetPermissions : Env -> permission -> permission;
  (** [thinking = false] *)
  stopThinking : vars -> vars;
  actions : client -> list Action;
  (** [client.hasActiveSession()] *)
  hasActiveSession : client -> bool;
  (** the ['exit'] listener of the child process, with the handler where the
      listener calls it: the client and the handler variables it leaves, and
      the calls made on the session *)
  processExit : client -> vars -> client * vars * list Outbound;
  (** the listener changes the handler variables by [thinking = false] at
      most *)
  processExit_thinking :
    forall c v, stopThinking (processExit c v).1.2 = stopThinking v
}.

Definition gemini : Adapter :=
  {| client := GeminiClient.t;
     permission := Permission.GeminiPermissionHandler;
     vars := GeminiHandler.Vars;
     loopInteractive := fun env =>
       stdinIsTTY env && stdoutIsTTY env && GeminiClient.forceInteractive env;
     startSession := GeminiClient.startSession;
     continueSession := GeminiClient.continueSession;
     clearSession := GeminiClient.clearSession;
     resetPermissions := fun _ => Permission.reset;
     stopThinking := fun v =>
       {| GeminiHandler.currentMessageContent := GeminiHandler.currentMessageContent v;
          GeminiHandler.isStreamingMessage := GeminiHandler.isStreamingMessage v;
          GeminiHandler.thinking := false;
          GeminiHandler.uuids := GeminiHandler.uuids v |};
     actions := GeminiClient.trace;
     hasActiveSession := GeminiClient.hasActiveSession;
     processExit := fun c v => (GeminiClient.onExit c, v, []);
     processExit_thinking := fun _ _ => eq_refl |}.

Definition cursor : Adapter :=
  {| client := CursorClient.t;
     permission := CursorPermission.t;
     vars := CursorHandler.Vars;
     loopInteractive := fun env => stdinIsTTY env && stdoutIsTTY env;
     startSession := CursorClient.startSession;
     continueSession := CursorClient.continueSession;
     clearSession := CursorClient.clearSession;
     resetPermissions := fun env => CursorPermission.reset (dateNow env);
     stopThinking := fun v =>
       {| CursorHandler.thinking := false;
          CursorHandler.uuids := CursorHandler.uuids v |};
     actions := CursorClient.trace;
     hasActiveSession := CursorClient.hasActiveSession;
     processExit := fun c v =>
       ((CursorClient.onExit c).1,
        (CursorHandler.handleAll (CursorClient.onExit c).2 v).1,
        (CursorHandler.handleAll (CursorClient.onExit c).2 v).2);
     processExit_thinking := fun _ _ => eq_refl |}.

Section Loop.
(** The separator of the message queue. *)
Variable separator : jsstr.
(** The value of [trimIdent(`Based on this message, call ...`)]. *)
Variable titleInstruction : jsstr.
Variable A : Adapter.

(** The variables of the entry point that the loop reads and writes. *)
Record State : Type := mkState {
  messageQueue : MessageQueue.t;
  theClient : client A;
  permissionHandler : permission A;
  handlerVars : vars A;
  first : bool;
  wasCreated : bool;
  currentModeHash : option jsstr;
  (** the signal of the current [abortController] *)
  abortSignal : Signal;
  (** calls made on the session by the loop, in order *)
  sent : list Outbound
}.

Definition initial (c : client A) (p : permission A) (v : vars A) : State :=
  {| messageQueue := []; theClient := c; permissionHandler := p;
     handlerVars := v; first := true; wasCreated := false;
     currentModeHash := None; abortSignal := 0; sent := [keepAlive false] |}.

(** [session.onUserMessage] after the mode is resolved: [messageQueue.push]. *)
Definition enqueue (text : jsstr) (m : EnhancedMode) (h : jsstr) (s : State) : State :=
  {| messageQueue := push text m h (messageQueue s); theClient := theClient s;
     permissionHandler := permissionHandler s; handlerVars := handlerVars s;
     first := first s; wasCreated := wasCreated s;
     currentModeHash := currentModeHash s; abortSignal := abortSignal s;
     sent := sent s |}.

(** [permissionHandler.reset(); thinking = false; session.keepAlive(thinking, 'remote')] *)
Definition cleanup (env : Env) (s : State) : State :=
  {| messageQueue := messageQueue s; theClient := theClient s;
     permissionHandler := resetPermissions A env (permissionHandler s);
     handlerVars := stopThinking A (handlerVars s);
     first := first s; wasCreated := wasCreated s;
     currentModeHash := currentModeHash s; abortSignal := abortSignal s;
     sent := sent s ++ [keepAlive false] |}.

(** [handleAbort]: the signal is aborted, the queue and the permission handler
    are reset, and a new controller replaces the old one. *)
Definition handleAbort (env : Env) (s : State) : State :=
  {| messageQueue := MessageQueue.reset (messageQueue s); theClient := theClient s;
     permissionHandler := resetPermissions A env (permissionHandler s);
     handlerVars := handlerVars s;
     first := first s; wasCreated := wasCreated s;
     currentModeHash := currentModeHash s; abortSignal := S (abortSignal s);
     sent := sent s |}.

(** The branch taken on a mode change, up to its [continue]. *)
Definition restart (env : Env) (s : State) : State :=
  cleanup env
    {| messageQueue := messageQueue s;
       theClient := clearSession A (theClient s);
       permissionHandler := permissionHandler s; handlerVars := handlerVars s;
       first := first s; wasCreated := false; currentModeHash := None;
       abortSignal := abortSignal s; sent := sent s |}.

Definition vibeServers (env : Env) : McpServers :=
  [(lit "vibe", {| command := bridgeCommand env;
                   args := [lit "--url"; vibeServerUrl env] |})].

Definition isAbortError (e : Error) : bool := str_eqb (name e) (lit "AbortError").

(** The [catch] block. *)
Definition catch (e : Error) (s : State) : State :=
  if isAbortError e then
    {| messageQueue := messageQueue s; theClient := theClient s;
       permissionHandler := permissionHandler s; handlerVars := handlerVars s;
       first := first s; wasCreated := false; currentModeHash := None;
       abortSignal := abortSignal s;
       sent := sent s ++ [sendSessionEvent (notice (lit "Aborted by user"))] |}
  else
    {| messageQueue := messageQueue s; theClient := theClient s;
       permissionHandler := permissionHandler s; handlerVars := handlerVars s;
       first := first s; wasCreated := wasCreated s;
       currentModeHash := currentModeHash s; abortSignal := abortSignal s;
       sent := sent s
               ++ [sendSessionEvent (notice (lit "Process exited unexpectedly"))] |}.

Definition withClient (c : client A) (s : State) : State :=
  {| messageQueue := messageQueue s; theClient := c;
     permissionHandler := permissionHandler s; handlerVars := handlerVars s;
     first := first s; wasCreated := wasCreated s;
     currentModeHash := currentModeHash s; abortSignal := abortSignal s;
     sent := sent s |}.

(** The ['exit'] event of the child process: its listener runs, and the
    handler where the listener calls it. *)
Definition processExited (s : State) : State :=
  {| messageQueue := messageQueue s;
     theClient := (processExit A (theClient s) (handlerVars s)).1.1;
     permissionHandler := permissionHandler s;
     handlerVars := (processExit A (theClient s) (handlerVars s)).1.2;
     first := first s; wasCreated := wasCreated s;
     currentModeHash := currentModeHash s; abortSignal := abortSignal s;
     sent := sent s ++ (processExit A (theClient s) (handlerVars s)).2 |}.

(** [if (isInteractive && client.hasActiveSession()) await ...]: the wait of
    an interactive pass ends when the process has exited, no abort being
    requested during the pass. *)
Definition awaitExit (env : Env) (s : State) : State :=
  if loopInteractive A env && hasActiveSession A (theClient s)
  then processExited s
  else s.

(** The call awaited in the [try] block: [startSession] for a session not
    yet created, [continueSession] otherwise. *)
Definition attempt (env : Env) (batch : Batch) (s : State) : client A * Completion :=
  if wasCreated s then
    continueSession A env (message batch) (Some (abortSignal s)) (theClient s)
  else
    let promptText :=
      if first s then message batch ++ lit_newline ++ lit_newline ++ titleInstruction
      else message batch in
    let startConfig :=
      {| prompt := if loopInteractive A env then None else Some promptText;
         Host.model :=
           if truthy (MessageQueue.model (batchMode batch))
           then MessageQueue.model (batchMode batch) else None;
         cwd := Some (processCwd env);
         mcpServers := Some (vibeServers env);
         outputFormat := None |} in
    startSession A env startConfig (Some (abortSignal s)) (theClient s).

(** The [try] block with its [catch] and [finally]; a session that was just
    started on an interactive terminal is waited for. *)
Definition turn (env : Env) (batch : Batch) (s : State) : State :=
  let '(c, outcome) := attempt env batch s in
  let s := withClient c s in
  cleanup env
    match outcome with
    | Returned =>
        if wasCreated s then s
        else
          awaitExit env
            {| messageQueue := messageQueue s; theClient := theClient s;
               permissionHandler := permissionHandler s;
               handlerVars := handlerVars s;
               first := false; wasCreated := true;
               currentModeHash := currentModeHash s;
               abortSignal := abortSignal s; sent := sent s |}
    | Threw e => catch e s
    end.

(** How one pass through the [while] body ends: suspended on an empty queue,
    or back at the head of the loop. *)
Inductive Pass : Type :=
| suspended (s : State)
| again (s : State).

Definition stateOf (p : Pass) : State :=
  match p with
  | suspended s => s
  | again s => s
  end.

(** [message.hash !== currentModeHash] *)
Definition differs (h : jsstr) (current : option jsstr) : bool :=
  negb (bool_decide (current = Some h)).

Definition modeChanged (batch : Batch) (s : State) : bool :=
  wasCreated s && truthy (currentModeHash s)
  && differs (hash batch) (currentModeHash s).

(** One pass through the body of [while (!shouldExit)], with a queue that is
    not cancelled and no abort requested during the pass. *)
Definition pass (env : Env) (s : State) : Pass :=
  match drainNextBatch separator (messageQueue s) with
  | None => suspended s
  | Some (batch, rest) =>
      let s :=
        {| messageQueue := rest; theClient := theClient s;
           permissionHandler := permissionHandler s;
           handlerVars := handlerVars s;
           first := first s; wasCreated := wasCreated s;
           currentModeHash := currentModeHash s;
           abortSignal := abortSignal s; sent := sent s |} in
      if modeChanged batch s then again (restart env s)
      else
        again
          (turn env batch
             {| messageQueue := messageQueue s; theClient := theClient s;
                permissionHandler := permissionHandler s;
                handlerVars := handlerVars s;
                first := first s; wasCreated := wasCreated s;
                currentModeHash := Some (hash batch);
                abortSignal := abortSignal s; sent := sent s |})
  end.

(** The loop over successive observations of the host, until it is suspended
    or the observations run out. *)
Fixpoint run (envs : list Env) (s : State) : Pass :=
  match envs with
  | [] => again s
  | env :: rest =>
      match pass env s with
      | suspended s' => suspended s'
      | again s' => run rest s'
      end
  end.

End Loop.

Arguments messageQueue {A}.
Arguments theClient {A}.
Arguments permissionHandler {A}.
Arguments handlerVars {A}.
Arguments first {A}.
Arguments wasCreated {A}.
Arguments currentModeHash {A}.
Arguments abortSignal {A}.
Arguments sent {A}.
Arguments stateOf {A}.
Arguments suspended {A}.
Arguments again {A}.

(** The loop of [runGemini]. *)
Definition runGemini (separator titleInstruction : jsstr)
  : list Env -> State gemini -> Pass gemini :=
  run separator titleInstruction gemini.

(** The loop of [runCursor]. *)
Definition runCursor (separator titleInstruction : jsstr)
  : list Env -> State cursor -> Pass cursor :=
  run separator titleInstruction cursor.

End Loop.

(** ** Client listeners composed with the handlers they feed *)

Module Pipeline.
Import Wire.

(** A chunk of standard error of the Gemini process, through the client's
    listener and the handler of [runGemini]. *)
Definition geminiStderr (data : jsstr) : GeminiHandler.Act :=
  GeminiHandler.handleAll (GeminiClient.onStderrData data).

(** A line of standard output of the Gemini process. *)
Definition geminiStdout (line : Parsed) (c : GeminiClient.t) (v : GeminiHandler.Vars)
  : GeminiClient.t * (GeminiHandler.Vars * list Outbound) :=
  let '(c', msgs) := GeminiClient.onStdoutLine line c in
  (c', GeminiHandler.handleAll msgs v).

(** A chunk of standard error of the cursor-agent process, through the
    client's listener and the handler of [runCursor]. *)
Definition cursorStderr (data : jsstr) : CursorHandler.Act :=
  CursorHandler.handleAll (CursorClient.onStderrData data).

(** A line of standard output of the cursor-agent process, through
    [processOutputLine] and the handler of [runCursor]. *)
Definition cursorStdout (line : jsstr) (parsed : Parsed) (c : CursorClient.t)
    (v : CursorHandler.Vars)
  : CursorClient.t * (CursorHandler.Vars * list Outbound) :=
  let '(c', msgs) := CursorClient.processOutputLine line parsed c in
  (c', CursorHandler.handleAll msgs v).

End Pipeline.

(** ** Sample inputs *)

Module Samples.
Import Permission Wire Host MessageQueue.

(** A host on which the command-line tools are installed and start, with no
    terminal attached. *)
Definition healthy : Env :=
  {| stdinIsTTY := false; stdoutIsTTY := false; interactiveEnv := [];
     processCwd := lit "/work"; isWin32 := false;
     cliPath := Some (lit "/usr/local/bin/agent"); spawnThrows := None;
     stdinWriteThrows := None; bridgeCommand := lit "/opt/vibe/bin/vibe-mcp.mjs";
     vibeServerUrl := lit "http://127.0.0.1:4000"; dateNow := 1000 |}.

(** The same host without the command-line tool. *)
Definition missingCli : Env :=
  {| stdinIsTTY := false; stdoutIsTTY := false; interactiveEnv := [];
     processCwd := lit "/work"; isWin32 := false;
     cliPath := None; spawnThrows := None;
     stdinWriteThrows := None; bridgeCommand := lit "/opt/vibe/bin/vibe-mcp.mjs";
     vibeServerUrl := lit "http://127.0.0.1:4000"; dateNow := 1000 |}.

(** A host with a terminal attached, on which the interactive mode of the
    Gemini entry point is asked for. *)
Definition terminal : Env :=
  {| stdinIsTTY := true; stdoutIsTTY := true; interactiveEnv := lit "1";
     processCwd := lit "/work"; isWin32 := false;
     cliPath := Some (lit "/usr/local/bin/agent"); spawnThrows := None;
     stdinWriteThrows := None; bridgeCommand := lit "/opt/vibe/bin/vibe-mcp.mjs";
     vibeServerUrl := lit "http://127.0.0.1:4000"; dateNow := 1000 |}.

(** A Gemini client after a first session started with a model and the MCP
    servers of the entry point, and after the backend announced its session. *)
Definition startedWithModel : GeminiClient.t :=
  GeminiClient.handleMessages [sessionIdEvent (lit "A")]
    (GeminiClient.startSession healthy
       {| prompt := Some (lit "first"); Host.model := Some (lit "gemini-2.5-pro");
          cwd := Some (lit "/work");
          mcpServers := Some [(lit "vibe", {| command := lit "/opt/vibe/bin/vibe-mcp.mjs";
                                              args := [lit "--url"] |})];
          outputFormat := None |}
       (Some 0%nat) GeminiClient.create).1.

Definition modeA : EnhancedMode := {| permissionMode := mode_default; MessageQueue.model := None |}.
Definition modeB : EnhancedMode := {| permissionMode := yolo; MessageQueue.model := None |}.

(** The text [trimIdent] is applied to in the entry points. *)
Definition titleText : jsstr :=
  lit "Based on this message, call functions.vibe__change_title to change chat session title that would represent the current task. If chat idea would change dramatically - call this function again to update the title.".

(** The Gemini loop before its first pass, with message ["a"] under mode A
    queued before message ["b"] under mode B, their fingerprints differing. *)
Definition geminiTwoModes : Loop.State Loop.gemini :=
  Loop.enqueue Loop.gemini (lit "b") modeB (lit "hashB")
    (Loop.enqueue Loop.gemini (lit "a") modeA (lit "hashA")
       (Loop.initial Loop.gemini GeminiClient.create Permission.create
          GeminiHandler.initialVars)).

(** The same for the Cursor loop. *)
Definition cursorTwoModes : Loop.State Loop.cursor :=
  Loop.enqueue Loop.cursor (lit "b") modeB (lit "hashB")
    (Loop.enqueue Loop.cursor (lit "a") modeA (lit "hashA")
       (Loop.initial Loop.cursor CursorClient.create CursorPermission.create
          CursorHandler.initialVars)).

(** Both loops run on a healthy host until they are suspended. *)
Definition geminiTwoModesRun : Loop.Pass Loop.gemini :=
  Loop.runGemini lit_newline titleText [healthy; healthy; healthy; healthy]
    geminiTwoModes.

Definition cursorTwoModesRun : Loop.Pass Loop.cursor :=
  Loop.runCursor lit_newline titleText [healthy; healthy; healthy; healthy]
    cursorTwoModes.



(** The loops after that, when a third message ["c"] arrives under mode B and
    they run again until they are suspended. *)
Definition geminiThirdMessageRun : Loop.Pass Loop.gemini :=
  Loop.runGemini lit_newline titleText [healthy; healthy; healthy; healthy]
    (Loop.enqueue Loop.gemini (lit "c") modeB (lit "hashB")
       (Loop.stateOf geminiTwoModesRun)).

Definition cursorThirdMessageRun : Loop.Pass Loop.cursor :=
  Loop.runCursor lit_newline titleText [healthy; healthy; healthy; healthy]
    (Loop.enqueue Loop.cursor (lit "c") modeB (lit "hashB")
       (Loop.stateOf cursorTwoModesRun)).

(** The event stream [[sessionId="A", sessionId="B"]]. *)
Definition sessionAB : list RawEvent :=
  [sessionIdEvent (lit "A"); sessionIdEvent (lit "B")].

(** An event that carries the candidate keys of the session identifier:
    [sessionId], [session_id] and the [session] object with its [id]. *)
Definition sessionKeysEvent (sessionId session_id : option jsstr)
    (session : option (option jsstr)) : RawEvent :=
  mkEvent None None None None None None false None None None None None None
    None None None None None None None None sessionId session_id session None None
    None.

(** Likewise [conversationId], [conversation_id] and [conversation]. *)
Definition conversationKeysEvent (conversationId conversation_id : option jsstr)
    (conversation : option (option jsstr)) : RawEvent :=
  mkEvent None None None None None None false None None None None None None
    None None None None None None None None None None None conversationId
    conversation_id conversation.

(** A stream whose first identifier comes under [session_id]. *)
Definition sessionBySnakeKey : list RawEvent :=
  [sessionKeysEvent None (Some (lit "A")) None;
   sessionKeysEvent (Some (lit "B")) None None].

(** A stream whose first events expose nothing (a [session] object without
    [id], an empty [sessionId]) and whose first identifier comes under
    [session.id]. *)
Definition sessionByNestedKey : list RawEvent :=
  [sessionKeysEvent None None (Some None);
   sessionKeysEvent (Some []) None (Some (Some (lit "A")));
   sessionKeysEvent (Some (lit "B")) (Some (lit "C")) None].

(** One event that holds the three keys: [sessionId] comes first, and
    [session_id] comes before [session.id]. *)
Definition sessionAllKeys : list RawEvent :=
  [sessionKeysEvent (Some (lit "A")) (Some (lit "B")) (Some (Some (lit "C")))].

Definition sessionSnakeAndNested : list RawEvent :=
  [sessionKeysEvent None (Some (lit "B")) (Some (Some (lit "C")))].

(** The same streams for the conversation identifier. *)
Definition conversationAB : list RawEvent :=
  [conversationKeysEvent (Some (lit "A")) None None;
   conversationKeysEvent (Some (lit "B")) None None].

Definition conversationBySnakeKey : list RawEvent :=
  [conversationKeysEvent None (Some (lit "A")) None;
   conversationKeysEvent (Some (lit "B")) None None].

Definition conversationByNestedKey : list RawEvent :=
  [conversationKeysEvent None None (Some None);
   conversationKeysEvent (Some []) None (Some (Some (lit "A")));
   conversationKeysEvent (Some (lit "B")) (Some (lit "C")) None].

(** The deltas ["Hel"], ["lo"]. *)
Definition helloDeltas : list RawEvent :=
  [messageEvent (lit "Hel") true; messageEvent (lit "lo") true].

(** A handler with one pending request for call ["t1"]. *)
Definition onePending : GeminiPermissionHandler :=
  (handleToolCall (lit "t1") (lit "Bash") emptyObject 0 create).1.

(** The same call identifier requested a second time. *)
Definition requestedTwice : GeminiPermissionHandler * nat :=
  handleToolCall (lit "t1") (lit "Bash") emptyObject 1 onePending.

(** The Gemini loop with an active session under mode A, identifiers latched,
    a permission request pending, and a message under mode B queued. *)
Definition geminiActive : Loop.State Loop.gemini :=
  Loop.mkState Loop.gemini
    [{| text := lit "b"; mode := modeB; modeHash := lit "hashB"; isolate := false |}]
    startedWithModel onePending GeminiHandler.initialVars
    false true (Some (lit "hashA")) 0 [].

(** A Cursor handler with one pending request for call ["t1"]. *)
Definition cursorOnePending : CursorPermission.t :=
  (CursorPermission.handleToolCall (lit "t1") (lit "Bash") emptyObject 0
     CursorPermission.create).1.

(** A refusal that nevertheless carries the decision ["approved"]. *)
Definition mixedResponse : CursorPermission.PermissionResponse :=
  {| CursorPermission.responseId := lit "t1";
     CursorPermission.isApproved := false;
     CursorPermission.responseDecision := Some CursorPermission.approved;
     CursorPermission.responseReason := None |}.

(** A Cursor client after a first session started with a prompt. *)
Definition cursorStarted : CursorClient.t :=
  (CursorClient.startSession healthy
     {| prompt := Some (lit "first"); Host.model := None; cwd := Some (lit "/work");
        mcpServers := None; outputFormat := None |}
     (Some 0%nat) CursorClient.create).1.

(** User messages: one without [meta], one asking for the mode ["yolo"], one
    asking for a mode that does not exist, and one asking for a model. *)
Definition plainMessage (text : jsstr) : UserMessages.UserMessage :=
  {| UserMessages.meta := None; UserMessages.contentText := text |}.

Definition yoloMessage (text : jsstr) : UserMessages.UserMessage :=
  {| UserMessages.meta :=
       Some {| UserMessages.metaPermissionMode := Some (lit "yolo");
               UserMessages.metaModel := None |};
     UserMessages.contentText := text |}.

Definition bogusModeMessage (text : jsstr) : UserMessages.UserMessage :=
  {| UserMessages.meta :=
       Some {| UserMessages.metaPermissionMode := Some (lit "bogus");
               UserMessages.metaModel := None |};
     UserMessages.contentText := text |}.

Definition modelMessage (model : option jsstr) (text : jsstr) : UserMessages.UserMessage :=
  {| UserMessages.meta :=
       Some {| UserMessages.metaPermissionMode := None;
               UserMessages.metaModel := Some model |};
     UserMessages.contentText := text |}.

(** A fingerprint function that tells the models apart. *)
Definition modelFingerprint (m : EnhancedMode) : jsstr :=
  or_lit (MessageQueue.model m) (lit "default").

End Samples.

(** * Properties *)

Arguments JS.or_lit : simpl never.
Arguments Noise.isGeminiDebugOutput : simpl never.
Arguments Noise.isDebugOutput : simpl never.
Arguments GeminiHandler.kindOf : simpl never.
Arguments CursorHandler.kindOf : simpl never.

(** ** Regular expressions: the derivative test decides the language *)

Module RegexFacts.
Import Regex.

Lemma matches_seq_inv a b u :
  matches (Seq a b) u -> exists s t, u = s ++ t /\ matches a s /\ matches b t.
Proof. inversion 1; subst; eauto. Qed.

Lemma matches_alt_inv a b u : matches (Alt a b) u -> matches a u \/ matches b u.
Proof. inversion 1; subst; eauto. Qed.

Lemma matches_star_inv a u :
  matches (Star a) u ->
  u = [] \/ exists c s t, u = c :: s ++ t /\ matches a (c :: s) /\ matches (Star a) t.
Proof. inversion 1; subst; eauto 8. Qed.

Lemma nullable_matches r : nullable r = true <-> matches r [].
Proof.
  induction r as [| |p|a IHa b IHb|a IHa b IHb|a IHa]; simpl.
  - split; [discriminate | inversion 1].
  - split; [constructor | reflexivity].
  - split; [discriminate | inversion 1].
  - rewrite andb_true_iff, IHa, IHb. split.
    + intros [Ha Hb]. apply (m_seq a b [] []); assumption.
    + intros (s & t & Heq & Ha & Hb)%matches_seq_inv. symmetry in Heq.
      apply app_eq_nil in Heq as [-> ->]. split; assumption.
  - rewrite orb_true_iff, IHa, IHb. split.
    + intros [H|H]; [apply m_alt_l | apply m_alt_r]; assumption.
    + apply matches_alt_inv.
  - split; [constructor | reflexivity].
Qed.

Lemma deriv_matches c r : forall s, matches (deriv c r) s <-> matches r (c :: s).
Proof.
  induction r as [| |p|a IHa b IHb|a IHa b IHb|a IHa]; intros s; simpl.
  - split; inversion 1.
  - split; inversion 1.
  - destruct (p c) eqn:Hp; split.
    + inversion 1; subst. constructor; assumption.
    + inversion 1; subst. constructor.
    + inversion 1.
    + inversion 1; subst. congruence.
  - assert (Hl : forall u, matches (Seq (deriv c a) b) u -> matches (Seq a b) (c :: u)).
    { intros u (s1 & t & -> & Ha & Hb)%matches_seq_inv.
      apply IHa in Ha. apply (m_seq a b (c :: s1) t); assumption. }
    assert (Hr : forall u, matches (Seq a b) (c :: u) ->
                 matches (Seq (deriv c a) b) u \/ (matches a [] /\ matches b (c :: u))).
    { intros u (s1 & t & Heq & Ha & Hb)%matches_seq_inv.
      destruct s1 as [|c1 s1]; simpl in Heq.
      - right. subst t. split; assumption.
      - injection Heq as <- ->. left. apply m_seq; [apply IHa|]; assumption. }
    destruct (nullable a) eqn:Hn; split.
    + intros [H|H]%matches_alt_inv; [apply Hl; assumption|].
      apply (m_seq a b [] (c :: s)); [apply nullable_matches; assumption|].
      apply IHb; assumption.
    + intros H. destruct (Hr _ H) as [H1|[_ H2]].
      * apply m_alt_l; assumption.
      * apply m_alt_r, IHb; assumption.
    + apply Hl.
    + intros H. destruct (Hr _ H) as [H1|[H2 _]]; [assumption|].
      apply nullable_matches in H2. congruence.
  - split.
    + intros [H|H]%matches_alt_inv; [apply m_alt_l, IHa | apply m_alt_r, IHb]; assumption.
    + intros [H|H]%matches_alt_inv; [apply m_alt_l, IHa | apply m_alt_r, IHb]; assumption.
  - split.
    + intros (s1 & t & -> & Ha & Hb)%matches_seq_inv.
      apply IHa in Ha. apply (m_star_cons a c s1 t); assumption.
    + intros [Heq|(c' & s1 & t & Heq & Ha & Hb)]%matches_star_inv; [discriminate|].
      injection Heq as <- ->. apply m_seq; [apply IHa|]; assumption.
Qed.

Lemma test_full_matches r s : test_full r s = true <-> matches r s.
Proof.
  revert r. induction s as [|c s IH]; intros r; simpl.
  - apply nullable_matches.
  - rewrite IH. apply deriv_matches.
Qed.

Lemma test_prefix_matches r s :
  test_prefix r s = true <-> exists p q, s = p ++ q /\ matches r p.
Proof.
  revert r. induction s as [|c s IH]; intros r; simpl.
  - rewrite orb_false_r, nullable_matches. split.
    + intros H. exists [], []. split; [reflexivity | assumption].
    + intros (p & q & Heq & H). symmetry in Heq.
      apply app_eq_nil in Heq as [-> _]. assumption.
  - rewrite orb_true_iff, nullable_matches, IH. split.
    + intros [H|(p & q & -> & H)].
      * exists [], (c :: s). split; [reflexivity | assumption].
      * exists (c :: p), q. split; [reflexivity|]. apply deriv_matches; assumption.
    + intros (p & q & Heq & H). destruct p as [|c' p]; [left; assumption|].
      simpl in Heq. injection Heq as <- ->. right.
      exists p, q. split; [reflexivity|]. apply deriv_matches; assumption.
Qed.

(** A line that begins with a full match is matched at its start. *)
Lemma test_prefix_of_full r p rest :
  test_full r p = true -> test_prefix r (p ++ rest) = true.
Proof.
  intros H. apply test_prefix_matches. exists p, rest.
  split; [reflexivity | apply test_full_matches, H].
Qed.

End RegexFacts.

(** ** The noise patterns on sample lines *)

Module NoiseFacts.
Import Noise.

Example noise_debug_prefix : isGeminiDebugOutput (lit "[DEBUG] loading") = true.
Proof. reflexivity. Qed.

(** [if (!text || text.length === 0) return true] *)
Lemma noise_empty : isGeminiDebugOutput [] = true.
Proof. reflexivity. Qed.

Example noise_info_lowercase : isGeminiDebugOutput (lit "info starting") = true.
Proof. reflexivity. Qed.

Example noise_json_fragment : isGeminiDebugOutput (lit "  { a: 1") = true.
Proof. reflexivity. Qed.

Example noise_number : isGeminiDebugOutput (lit " 42, ") = true.
Proof. reflexivity. Qed.

Example noise_closer : isGeminiDebugOutput (lit "],") = true.
Proof. reflexivity. Qed.

Example not_noise_plain : isGeminiDebugOutput (lit "Quota exceeded") = false.
Proof. reflexivity. Qed.

(** Each of the four patterns is enough to be recognised. *)
Lemma recognised_by_pattern (text : jsstr) :
  text <> [] ->
  Regex.test_prefix re_debug_prefix text = true
  \/ Regex.test_prefix re_json_open text = true
  \/ Regex.test_full re_bare_number text = true
  \/ Regex.test_full re_bare_closer text = true ->
  isGeminiDebugOutput text = true.
Proof.
  intros Hne H. destruct text as [|c s]; [congruence|].
  unfold isGeminiDebugOutput.
  destruct H as [H|[H|[H|H]]].
  - rewrite H. reflexivity.
  - apply orb_true_intro; left. apply orb_true_intro; left.
    apply orb_true_intro; right. exact H.
  - apply orb_true_intro; left. apply orb_true_intro; right. exact H.
  - apply orb_true_intro; right. exact H.
Qed.

Lemma matches_star_class (p : N -> bool) (s : jsstr) :
  forallb p s = true -> Regex.matches (Regex.Star (Regex.Cls p)) s.
Proof.
  induction s as [|c s IH]; simpl; [constructor|].
  intros [Hc Hs]%andb_true_iff.
  apply (Regex.m_star_cons (Regex.Cls p) c [] s); [constructor; exact Hc | auto].
Qed.

(** A line made of digits only is a bare number. *)
Lemma digits_are_noise (ds : jsstr) :
  ds <> [] -> forallb is_digit ds = true -> isGeminiDebugOutput ds = true.
Proof.
  intros Hne Hd. apply recognised_by_pattern; [assumption|].
  right. right. left. apply RegexFacts.test_full_matches.
  destruct ds as [|d ds]; [congruence|]. simpl in Hd.
  apply andb_true_iff in Hd as [Hd Hds].
  apply (Regex.m_seq _ _ [] (d :: ds)); [constructor|].
  rewrite <- (app_nil_r (d :: ds)).
  apply Regex.m_seq.
  - apply (Regex.m_seq _ _ [d] ds); [constructor; exact Hd|].
    apply matches_star_class, Hds.
  - apply (Regex.m_seq _ _ [] []); [apply Regex.m_alt_r; constructor | constructor].
Qed.

End NoiseFacts.

(** ** Lookup after update in a [Map] *)

Module JSMapFacts.
Section JSMapFacts.
Context {V : Type}.
Implicit Types (m : JSMap.t V) (v : V).
Import JSMap.

Lemma get_set_eq k v m : get k (set k v m) = Some v.
Proof.
  induction m as [|[k' v'] m IH]; simpl.
  - rewrite decide_True; [reflexivity | reflexivity].
  - destruct (decide (k = k')) as [->|Hne]; simpl.
    + rewrite decide_True; reflexivity.
    + rewrite decide_False; assumption.
Qed.

Lemma get_set_ne k k' v m : k <> k' -> get k' (set k v m) = get k' m.
Proof.
  intros Hne. induction m as [|[k0 v0] m IH]; simpl.
  - rewrite decide_False; [reflexivity | congruence].
  - destruct (decide (k = k0)) as [->|Hne0]; simpl.
    + rewrite !decide_False; [reflexivity | congruence | congruence].
    + rewrite IH. reflexivity.
Qed.

Lemma get_delete_eq k m : get k (delete k m) = None.
Proof.
  induction m as [|[k0 v0] m IH]; simpl; [reflexivity|].
  destruct (decide (k = k0)) as [->|Hne]; simpl; [assumption|].
  rewrite decide_False; assumption.
Qed.

Lemma get_delete_ne k k' m : k <> k' -> get k' (delete k m) = get k' m.
Proof.
  intros Hne. induction m as [|[k0 v0] m IH]; simpl; [reflexivity|].
  destruct (decide (k = k0)) as [->|Hne0]; simpl.
  - rewrite IH. rewrite decide_False; [reflexivity | congruence].
  - rewrite IH. reflexivity.
Qed.

Lemma get_Some_elem k v m : get k m = Some v -> (k, v) ∈ m.
Proof.
  induction m as [|[k0 v0] m IH]; simpl; [discriminate|].
  destruct (decide (k = k0)) as [->|Hne].
  - intros [= ->]. apply list_elem_of_here.
  - intros H. apply list_elem_of_further, IH, H.
Qed.

Lemma delete_absent k m : get k m = None -> delete k m = m.
Proof.
  induction m as [|[k0 v0] m IH]; simpl; [reflexivity|].
  destruct (decide (k = k0)); [discriminate|]. intros H. rewrite IH; auto.
Qed.

Lemma size_set_present k v m :
  is_Some (get k m) -> size (set k v m) = size m.
Proof.
  unfold size. induction m as [|[k0 v0] m IH]; simpl.
  - intros [? [=]].
  - destruct (decide (k = k0)); simpl; [reflexivity|]. intros H. rewrite IH; auto.
Qed.

End JSMapFacts.
End JSMapFacts.

(** ** The permission handler *)

Module PermissionFacts.
Import Permission.

Lemma settlePromise_lookup p v ps q :
  settlePromise p v ps !! q =
  match ps !! p with
  | Some Pending => if decide (p = q) then Some v else ps !! q
  | _ => ps !! q
  end.
Proof.
  unfold settlePromise. destruct (ps !! p) as [[| |]|] eqn:Hp; try reflexivity.
  destruct (decide (p = q)) as [<-|Hne].
  - apply list_lookup_insert_eq. eapply lookup_lt_Some, Hp.
  - apply list_lookup_insert_ne, Hne.
Qed.

Lemma settlePromise_length p v ps : length (settlePromise p v ps) = length ps.
Proof.
  unfold settlePromise. destruct (ps !! p) as [[| |]|]; try reflexivity.
  apply length_insert.
Qed.

Lemma rejectAll_pending entries h :
  pendingRequests (rejectAll entries h) = pendingRequests h.
Proof.
  revert h. induction entries as [|e entries IH]; intros h; simpl; [reflexivity|].
  unfold rejectAll in *. simpl. rewrite IH. reflexivity.
Qed.

Lemma rejectAll_agentRequests entries h :
  agentRequests (rejectAll entries h) = agentRequests h.
Proof.
  revert h. induction entries as [|e entries IH]; intros h; simpl; [reflexivity|].
  unfold rejectAll in *. simpl. rewrite IH. reflexivity.
Qed.

Lemma rejectAll_log entries h :
  callbackLog (rejectAll entries h) =
  callbackLog h ++ ((fun e => (promise e.2, Rejected resetMessage)) <$> entries).
Proof.
  revert h. induction entries as [|e entries IH]; intros h; simpl.
  - rewrite app_nil_r. reflexivity.
  - unfold rejectAll in *. simpl. rewrite IH. simpl.
    rewrite <- app_assoc. reflexivity.
Qed.

(** A promise that was pending is rejected as soon as one entry names it, and
    nothing afterwards changes it. *)
Lemma rejectAll_promises entries h q :
  promises (rejectAll entries h) !! q =
  match promises h !! q with
  | Some Pending =>
      if bool_decide (q ∈ (fun e => promise e.2) <$> entries)
      then Some (Rejected resetMessage) else Some Pending
  | other => other
  end.
Proof.
  revert h. induction entries as [|e entries IH]; intros h.
  - simpl. destruct (promises h !! q) as [[| |]|]; reflexivity.
  - unfold rejectAll in *. simpl foldl. rewrite IH. simpl promises.
    rewrite settlePromise_lookup. rewrite fmap_cons.
    destruct (decide (promise e.2 = q)) as [Heq|Hne].
    + subst q. destruct (promises h !! promise e.2) as [[| |]|] eqn:Hq;
        rewrite ?Hq; try reflexivity.
      rewrite ?decide_True by reflexivity.
      rewrite (bool_decide_eq_true_2 (promise e.2 ∈ promise e.2 :: _));
        [reflexivity | apply list_elem_of_here].
    + assert (Hin : bool_decide (q ∈ promise e.2 :: ((fun e => promise e.2) <$> entries))
                    = bool_decide (q ∈ (fun e => promise e.2) <$> entries)).
      { apply bool_decide_ext. rewrite elem_of_cons. split; [|auto].
        intros [?|?]; [congruence | assumption]. }
      rewrite Hin.
      destruct (promises h !! promise e.2) as [[| |]|]; reflexivity.
Qed.

Lemma wf_create : wf create.
Proof.
  split; [constructor|]. intros k e H. simpl in H. apply elem_of_nil in H. contradiction.
Qed.

Lemma elem_of_set k v (m : JSMap.t PendingRequest) k' e :
  (k', e) ∈ JSMap.set k v m -> (k' = k /\ e = v) \/ (k', e) ∈ m.
Proof.
  induction m as [|[k0 v0] m IH]; simpl.
  - intros [= -> ->]%list_elem_of_singleton. left. split; reflexivity.
  - destruct (decide (k = k0)) as [->|Hne].
    + intros [[= -> ->]|H]%elem_of_cons; [left; split; reflexivity|].
      right. apply list_elem_of_further, H.
    + intros [[= -> ->]|H]%elem_of_cons; [right; apply list_elem_of_here|].
      destruct (IH H) as [?|?]; [left; assumption|].
      right. apply list_elem_of_further. assumption.
Qed.

Lemma elem_of_delete k (m : JSMap.t PendingRequest) k' e :
  (k', e) ∈ JSMap.delete k m -> k' <> k /\ (k', e) ∈ m.
Proof.
  induction m as [|[k0 v0] m IH]; simpl.
  - intros H. apply elem_of_nil in H. contradiction.
  - destruct (decide (k = k0)) as [->|Hne].
    + intros H. destruct (IH H) as [? ?]. split; [assumption|].
      apply list_elem_of_further. assumption.
    + intros [[= -> ->]|H]%elem_of_cons.
      * split; [congruence | apply list_elem_of_here].
      * destruct (IH H) as [? ?]. split; [assumption|].
        apply list_elem_of_further. assumption.
Qed.

Lemma promise_elem (m : JSMap.t PendingRequest) k e :
  (k, e) ∈ m -> promise e ∈ (fun x => promise x.2) <$> m.
Proof. intros H. apply (list_elem_of_fmap_2 (fun x => promise x.2) _ _ H). Qed.

Lemma NoDup_set k v (m : JSMap.t PendingRequest) :
  promise v ∉ (fun e => promise e.2) <$> m ->
  NoDup ((fun e => promise e.2) <$> m) ->
  NoDup ((fun e => promise e.2) <$> JSMap.set k v m).
Proof.
  induction m as [|[k0 v0] m IH]; simpl; intros Hnot Hnd.
  - apply NoDup_singleton.
  - apply not_elem_of_cons in Hnot as [Hne Hnot].
    apply NoDup_cons in Hnd as [Hv0 Hnd].
    destruct (decide (k = k0)) as [->|Hk]; simpl.
    + apply NoDup_cons. split; assumption.
    + apply NoDup_cons. split; [|apply IH; assumption].
      intros ([k1 e1] & Heq & Hin)%list_elem_of_fmap. simpl in Heq.
      apply elem_of_set in Hin as [[-> ->]|Hin]; [congruence|].
      apply Hv0. rewrite Heq. eapply promise_elem, Hin.
Qed.

Lemma NoDup_delete k (m : JSMap.t PendingRequest) :
  NoDup ((fun e => promise e.2) <$> m) ->
  NoDup ((fun e => promise e.2) <$> JSMap.delete k m).
Proof.
  induction m as [|[k0 v0] m IH]; simpl; intros Hnd; [constructor|].
  apply NoDup_cons in Hnd as [Hv0 Hnd].
  destruct (decide (k = k0)) as [->|Hk]; simpl; [apply IH, Hnd|].
  apply NoDup_cons. split; [|apply IH, Hnd].
  intros ([k1 e1] & Heq & Hin)%list_elem_of_fmap. simpl in Heq.
  apply elem_of_delete in Hin as [_ Hin].
  apply Hv0. rewrite Heq. eapply promise_elem, Hin.
Qed.

(** Two entries of a well-formed table that share a promise are the same key. *)
Lemma wf_promise_inj (m : JSMap.t PendingRequest) k1 e1 k2 e2 :
  NoDup ((fun e => promise e.2) <$> m) ->
  (k1, e1) ∈ m -> (k2, e2) ∈ m -> promise e1 = promise e2 -> (k1, e1) = (k2, e2).
Proof.
  induction m as [|[k0 v0] m IH]; simpl; intros Hnd H1 H2 Heq.
  - apply elem_of_nil in H1. contradiction.
  - apply NoDup_cons in Hnd as [Hv0 Hnd].
    apply elem_of_cons in H1 as [H1|H1]; apply elem_of_cons in H2 as [H2|H2].
    + congruence.
    + injection H1 as -> ->. exfalso. apply Hv0. rewrite Heq.
      eapply promise_elem, H2.
    + injection H2 as -> ->. exfalso. apply Hv0. rewrite <- Heq.
      eapply promise_elem, H1.
    + apply IH; assumption.
Qed.

(** Replacing the entry of a key drops the promise the old entry held. *)
Lemma set_drops_old k v (m : JSMap.t PendingRequest) e :
  NoDup ((fun x => promise x.2) <$> m) ->
  JSMap.get k m = Some e -> promise v <> promise e ->
  promise e ∉ (fun x => promise x.2) <$> JSMap.set k v m.
Proof.
  induction m as [|[k0 v0] m IH]; simpl; intros Hnd Hget Hne; [discriminate|].
  apply NoDup_cons in Hnd as [Hv0 Hnd].
  destruct (decide (k = k0)) as [->|Hk]; simpl.
  - injection Hget as ->. apply not_elem_of_cons. split; [congruence | assumption].
  - apply not_elem_of_cons. split; [|apply IH; assumption].
    intros Heq. apply Hv0. rewrite <- Heq.
    eapply promise_elem, JSMapFacts.get_Some_elem, Hget.
Qed.

Lemma wf_handleToolCall id tool inp now h :
  wf h -> wf (handleToolCall id tool inp now h).1.
Proof.
  intros [Hnd Hwf]. split; simpl.
  - apply NoDup_set; [|assumption]. simpl.
    intros ([k e] & Heq & Hin)%list_elem_of_fmap. simpl in Heq.
    apply Hwf in Hin. apply lookup_lt_Some in Hin. lia.
  - intros k e H.
    apply elem_of_set in H as [[-> ->]|H]; simpl.
    + rewrite lookup_app_r by lia. rewrite Nat.sub_diag. reflexivity.
    + rewrite lookup_app_l; [eapply Hwf, H|]. eapply lookup_lt_Some, Hwf, H.
Qed.

Lemma wf_onPermission id ok why h : wf h -> wf (onPermission id ok why h).
Proof.
  intros [Hnd Hwf]. unfold onPermission.
  destruct (JSMap.get id (pendingRequests h)) as [e|] eqn:Hget; [|split; assumption].
  apply JSMapFacts.get_Some_elem in Hget.
  split; simpl.
  - apply NoDup_delete, Hnd.
  - intros k e' Hin. apply elem_of_delete in Hin as [Hk Hin].
    rewrite settlePromise_lookup, (Hwf _ _ Hget).
    destruct (decide (promise e = promise e')) as [Heq|Hne]; [|eapply Hwf, Hin].
    pose proof (wf_promise_inj _ _ _ _ _ Hnd Hget Hin Heq). congruence.
Qed.

Lemma wf_reset h : wf (reset h).
Proof.
  split; simpl; [constructor|].
  intros k e H. apply elem_of_nil in H. contradiction.
Qed.

End PermissionFacts.

(** ** The handler of [runGemini] *)

Module GeminiHandlerFacts.
Import Wire GeminiHandler.

Lemma buffered_initial : buffered initialVars.
Proof. intros _. reflexivity. Qed.

Lemma flush_empty v :
  currentMessageContent v = [] -> flushAccumulatedMessage v = (v, []).
Proof.
  intros H. unfold flushAccumulatedMessage. rewrite H. simpl.
  rewrite andb_false_r. reflexivity.
Qed.

(** What a flush does to a buffered state. *)
Lemma flush_buffered v :
  buffered v ->
  messagesOf (flushAccumulatedMessage v).2 = messageOf (currentMessageContent v)
  /\ currentMessageContent (flushAccumulatedMessage v).1 = []
  /\ thinking (flushAccumulatedMessage v).1 = thinking v
  /\ buffered (flushAccumulatedMessage v).1.
Proof.
  intros Hb. unfold flushAccumulatedMessage, buffered in *.
  destruct v as [content streaming th n]; simpl in *.
  destruct streaming; simpl.
  - destruct content as [|c s]; simpl; repeat split; auto.
  - rewrite Hb by reflexivity. simpl. repeat split; auto.
Qed.

Lemma messagesOf_app a b : messagesOf (a ++ b) = messagesOf a ++ messagesOf b.
Proof. unfold messagesOf. apply omap_app. Qed.

Lemma andThen_fst (f g : Act) v : (andThen f g v).1 = (g (f v).1).1.
Proof. unfold andThen. destruct (f v) as [v1 o1]. simpl. destruct (g v1). reflexivity. Qed.

Lemma andThen_snd (f g : Act) v : (andThen f g v).2 = (f v).2 ++ (g (f v).1).2.
Proof. unfold andThen. destruct (f v) as [v1 o1]. simpl. destruct (g v1). reflexivity. Qed.

Lemma sendWithCallId_fst candidate body v :
  currentMessageContent (sendWithCallId candidate body v).1 = currentMessageContent v
  /\ isStreamingMessage (sendWithCallId candidate body v).1 = isStreamingMessage v
  /\ thinking (sendWithCallId candidate body v).1 = thinking v.
Proof.
  unfold sendWithCallId. destruct (callIdOf candidate (uuids v)). simpl. auto.
Qed.

Lemma sendWithCallId_toolCall candidate name inp v :
  messagesOf (sendWithCallId candidate (fun cid => ToolCall name cid inp) v).2 = [].
Proof.
  unfold sendWithCallId. destruct (callIdOf candidate (uuids v)). reflexivity.
Qed.

Lemma sendWithCallId_toolResult candidate out err v :
  messagesOf (sendWithCallId candidate (fun cid => ToolCallResult cid out err) v).2 = [].
Proof.
  unfold sendWithCallId. destruct (callIdOf candidate (uuids v)). reflexivity.
Qed.

End GeminiHandlerFacts.

(** ** Identifier capture in the clients *)

Module ClientFacts.
Import Wire.

Lemma latch_cons current x rest :
  latch (if truthy x && negb (truthy current) then x else current) rest
  = latch current (x :: rest).
Proof.
  unfold latch. simpl. destruct (truthy current) eqn:Hc; simpl.
  - rewrite andb_false_r, Hc. reflexivity.
  - rewrite andb_true_r. destruct (truthy x) eqn:Hx; [rewrite Hx|rewrite Hc]; reflexivity.
Qed.

Lemma gemini_update m c :
  GeminiClient.sessionId (GeminiClient.updateIdentifiersFromMessage m c)
  = (if truthy (exposedSessionId m) && negb (truthy (GeminiClient.sessionId c))
     then exposedSessionId m else GeminiClient.sessionId c)
  /\ GeminiClient.conversationId (GeminiClient.updateIdentifiersFromMessage m c)
     = (if truthy (exposedConversationId m)
           && negb (truthy (GeminiClient.conversationId c))
        then exposedConversationId m else GeminiClient.conversationId c).
Proof.
  unfold GeminiClient.updateIdentifiersFromMessage.
  fold (exposedSessionId m). fold (exposedConversationId m).
  destruct (truthy (exposedSessionId m) && negb (truthy (GeminiClient.sessionId c)));
    simpl;
    destruct (truthy (exposedConversationId m)
              && negb (truthy (GeminiClient.conversationId c)));
    simpl; split; reflexivity.
Qed.

Lemma cursor_update m c :
  CursorClient.sessionId (CursorClient.updateIdentifiersFromMessage m c)
  = (if truthy (exposedSessionId m) && negb (truthy (CursorClient.sessionId c))
     then exposedSessionId m else CursorClient.sessionId c)
  /\ CursorClient.conversationId (CursorClient.updateIdentifiersFromMessage m c)
     = (if truthy (exposedConversationId m)
           && negb (truthy (CursorClient.conversationId c))
        then exposedConversationId m else CursorClient.conversationId c).
Proof.
  unfold CursorClient.updateIdentifiersFromMessage.
  fold (exposedSessionId m). fold (exposedConversationId m).
  destruct (truthy (exposedSessionId m) && negb (truthy (CursorClient.sessionId c)));
    simpl;
    destruct (truthy (exposedConversationId m)
              && negb (truthy (CursorClient.conversationId c)));
    simpl; split; reflexivity.
Qed.

Lemma gemini_stream msgs c :
  GeminiClient.sessionId (GeminiClient.handleMessages msgs c)
  = latch (GeminiClient.sessionId c) (exposedSessionId <$> msgs)
  /\ GeminiClient.conversationId (GeminiClient.handleMessages msgs c)
     = latch (GeminiClient.conversationId c) (exposedConversationId <$> msgs).
Proof.
  revert c. induction msgs as [|m msgs IH]; intros c.
  - unfold latch. simpl.
    destruct (truthy (GeminiClient.sessionId c)),
      (truthy (GeminiClient.conversationId c)); split; reflexivity.
  - unfold GeminiClient.handleMessages in *. simpl foldl.
    destruct (IH (GeminiClient.updateIdentifiersFromMessage m c)) as [Hs Hc].
    destruct (gemini_update m c) as [Us Uc].
    rewrite Hs, Hc, Us, Uc, !fmap_cons, !latch_cons. split; reflexivity.
Qed.

Lemma cursor_stream msgs c :
  CursorClient.sessionId (CursorClient.handleMessages msgs c)
  = latch (CursorClient.sessionId c) (exposedSessionId <$> msgs)
  /\ CursorClient.conversationId (CursorClient.handleMessages msgs c)
     = latch (CursorClient.conversationId c) (exposedConversationId <$> msgs).
Proof.
  revert c. induction msgs as [|m msgs IH]; intros c.
  - unfold latch. simpl.
    destruct (truthy (CursorClient.sessionId c)),
      (truthy (CursorClient.conversationId c)); split; reflexivity.
  - unfold CursorClient.handleMessages in *. simpl foldl.
    destruct (IH (CursorClient.updateIdentifiersFromMessage m c)) as [Hs Hc].
    destruct (cursor_update m c) as [Us Uc].
    rewrite Hs, Hc, Us, Uc, !fmap_cons, !latch_cons. split; reflexivity.
Qed.

Lemma pidsSpawned_app a b :
  Host.pidsSpawned (a ++ b) = (Host.pidsSpawned a + Host.pidsSpawned b)%nat.
Proof.
  induction a as [|x a IH]; simpl; [reflexivity|].
  destruct x; simpl; rewrite IH; reflexivity.
Qed.

Lemma gemini_killProcess c :
  GeminiClient.process (GeminiClient.killProcess c) = None
  /\ GeminiClient.trace (GeminiClient.killProcess c)
     = GeminiClient.trace c
       ++ match GeminiClient.process c with
          | Some pid => [Host.killed pid]
          | None => []
          end
  /\ Host.pidsSpawned (GeminiClient.trace (GeminiClient.killProcess c))
     = Host.pidsSpawned (GeminiClient.trace c)
  /\ GeminiClient.sessionId (GeminiClient.killProcess c) = GeminiClient.sessionId c
  /\ GeminiClient.conversationId (GeminiClient.killProcess c)
     = GeminiClient.conversationId c.
Proof.
  unfold GeminiClient.killProcess.
  destruct (GeminiClient.process c) as [pid|] eqn:Hp; simpl.
  - rewrite pidsSpawned_app. simpl. rewrite Nat.add_0_r. auto.
  - rewrite app_nil_r. auto.
Qed.

(** The value an event exposes through the clients' expression
    [a || b || c?.id] is truthy exactly when one of the candidate keys holds a
    non-empty string, and is then the first such string. *)
Lemma exposed_first_non_empty (a b : option jsstr) (o : option (option jsstr)) :
  firstNonEmpty [a; b; match o with Some (Some id) => Some id | _ => None end]
  = (if truthy (or_else (or_else a b) (nestedId o))
     then or_else (or_else a b) (nestedId o) else None).
Proof.
  destruct a as [[|ca sa]|], b as [[|cb sb]|], o as [[[|co so]|]|]; reflexivity.
Qed.

Lemma latch_words current (exposed : list (option jsstr)) :
  latch current exposed
  = latched current ((fun x => if truthy x then x else None) <$> exposed).
Proof.
  unfold latch, latched.
  assert (H : match List.find truthy exposed with
              | Some identifier => identifier
              | None => current
              end
              = match firstNonEmpty ((fun x => if truthy x then x else None) <$> exposed) with
                | Some identifier => Some identifier
                | None => current
                end).
  { induction exposed as [|x rest IH]; [reflexivity|].
    destruct x as [[|c s]|]; simpl; auto. }
  destruct current as [[|c s]|]; simpl; auto.
Qed.

Lemma latch_sessionKeys current msgs :
  latch current (exposedSessionId <$> msgs)
  = latched current ((fun msg => firstNonEmpty (sessionKeys msg)) <$> msgs).
Proof.
  rewrite latch_words, <- list_fmap_compose. f_equal.
  apply list_fmap_ext. intros i msg _. simpl. unfold sessionKeys, exposedSessionId.
  symmetry. apply exposed_first_non_empty.
Qed.

Lemma latch_conversationKeys current msgs :
  latch current (exposedConversationId <$> msgs)
  = latched current ((fun msg => firstNonEmpty (conversationKeys msg)) <$> msgs).
Proof.
  rewrite latch_words, <- list_fmap_compose. f_equal.
  apply list_fmap_ext. intros i msg _. simpl.
  unfold conversationKeys, exposedConversationId.
  symmetry. apply exposed_first_non_empty.
Qed.

End ClientFacts.

(** * The claims of the orchestrator specification *)

Section PermissionClaims.
Import Permission PermissionFacts Samples.

(** C2, as stated, fails: a second [handleToolCall] for a call identifier that
    is already pending returns an ordinary pending promise instead of failing,
    and the pending entry is replaced instead of being left intact. *)
Lemma C2_counterexample :
  is_Some (JSMap.get (lit "t1") (pendingRequests onePending))
  /\ promises requestedTwice.1 !! requestedTwice.2 = Some Pending
  /\ JSMap.get (lit "t1") (pendingRequests requestedTwice.1)
     <> JSMap.get (lit "t1") (pendingRequests onePending).
Proof.
  split; [eexists; reflexivity|]. split; [reflexivity|].
  vm_compute. discriminate.
Qed.

(** C2, amended: a call of [handleToolCall] whose call identifier is already
    pending does not fail.  It returns a fresh pending promise and binds the
    identifier to the new request in place of the old one, every other entry
    being kept; the promise of the earlier request stays unsettled, no entry
    holds its callbacks any more, and a later settlement of the identifier or
    a reset leaves it pending. *)
Theorem C2_duplicate_call_replaces_entry
    (id tool inp : jsstr) (now : N) (h h' : GeminiPermissionHandler)
    (e : PendingRequest) (p : nat) :
  wf h ->
  JSMap.get id (pendingRequests h) = Some e ->
  handleToolCall id tool inp now h = (h', p) ->
  promises h' !! p = Some Pending
  /\ JSMap.get id (pendingRequests h')
     = Some {| promise := p; toolName := tool; input := inp |}
  /\ JSMap.size (pendingRequests h') = JSMap.size (pendingRequests h)
  /\ (forall k, k <> id ->
        JSMap.get k (pendingRequests h') = JSMap.get k (pendingRequests h))
  /\ callbackLog h' = callbackLog h
  /\ promise e <> p
  /\ promises h' !! promise e = Some Pending
  /\ (promise e ∉ (fun x => promise x.2) <$> pendingRequests h')
  /\ (forall ok why, promises (onPermission id ok why h') !! promise e = Some Pending)
  /\ promises (reset h') !! promise e = Some Pending.
Proof.
  intros [Hnd Hwf] Hget [= <- <-].
  pose proof (JSMapFacts.get_Some_elem _ _ _ Hget) as Hin.
  pose proof (Hwf _ _ Hin) as He.
  pose proof (lookup_lt_Some _ _ _ He) as Hlt.
  assert (Hold : (promises h ++ [Pending]) !! promise e = Some Pending).
  { rewrite lookup_app_l; assumption. }
  assert (Hdrop : promise e ∉ (fun x => promise x.2) <$>
                    JSMap.set id {| promise := length (promises h); toolName := tool;
                                    input := inp |} (pendingRequests h)).
  { apply set_drops_old; [assumption | assumption | simpl; lia]. }
  simpl. repeat split.
  - rewrite lookup_app_r by lia. rewrite Nat.sub_diag. reflexivity.
  - apply JSMapFacts.get_set_eq.
  - apply JSMapFacts.size_set_present. rewrite Hget. eexists; reflexivity.
  - intros k Hk. apply JSMapFacts.get_set_ne. congruence.
  - lia.
  - exact Hold.
  - exact Hdrop.
  - intros ok why. unfold onPermission. simpl.
    rewrite JSMapFacts.get_set_eq. simpl.
    rewrite settlePromise_lookup.
    rewrite lookup_app_r by lia. rewrite Nat.sub_diag. simpl.
    rewrite decide_False by lia. exact Hold.
  - unfold reset. simpl. rewrite rejectAll_promises. simpl. rewrite Hold.
    rewrite bool_decide_eq_false_2; [reflexivity | exact Hdrop].
Qed.

Lemma C2_duplicate_call_replaces_entry_witness :
  promises requestedTwice.1 !! 1%nat = Some Pending
  /\ JSMap.get (lit "t1") (pendingRequests requestedTwice.1)
     = Some {| promise := 1; toolName := lit "Bash"; input := Wire.emptyObject |}
  /\ promises requestedTwice.1 !! 0%nat = Some Pending
  /\ promises (reset requestedTwice.1) !! 0%nat = Some Pending.
Proof.
  pose proof (C2_duplicate_call_replaces_entry (lit "t1") (lit "Bash")
                Wire.emptyObject 1 onePending requestedTwice.1
                {| promise := 0; toolName := lit "Bash"; input := Wire.emptyObject |}
                1%nat
                (wf_handleToolCall _ _ _ _ _ wf_create) eq_refl eq_refl)
    as (H1 & H2 & _ & _ & _ & _ & H3 & _ & _ & H4).
  exact (conj H1 (conj H2 (conj H3 H4))).
Defined.

(** C3, as stated, fails: [reset] takes no reason, and the promises it rejects
    carry the fixed message of the handler, not a reason such as
    ["mode-changed"] supplied by the caller. *)
Lemma C3_counterexample :
  JSMap.get (lit "t1") (pendingRequests onePending)
  = Some {| promise := 0; toolName := lit "Bash"; input := Wire.emptyObject |}
  /\ promises (reset onePending) !! 0%nat
     = Some (Rejected (lit "Permission handler reset"))
  /\ promises (reset onePending) !! 0%nat <> Some (Rejected (lit "mode-changed")).
Proof.
  split; [reflexivity|]. split; [reflexivity|]. vm_compute. discriminate.
Qed.

(** C3, amended: on a handler with N pending entries, [reset()] invokes the
    [reject] callback of each of the N entries once, in the order of the
    table, with the fixed error message ["Permission handler reset"]; every
    one of their promises is then rejected with that message, and the
    pending table is empty afterwards. *)
Theorem C3_reset_rejects_all_and_clears (h : GeminiPermissionHandler) :
  wf h ->
  (forall k e, JSMap.get k (pendingRequests h) = Some e ->
     promises (reset h) !! promise e = Some (Rejected resetMessage))
  /\ callbackLog (reset h)
     = callbackLog h
       ++ ((fun e => (promise e.2, Rejected resetMessage)) <$> pendingRequests h)
  /\ length (callbackLog (reset h))
     = (length (callbackLog h) + JSMap.size (pendingRequests h))%nat
  /\ pendingRequests (reset h) = []
  /\ enumeratePending (reset h) = [].
Proof.
  intros [Hnd Hwf]. repeat split.
  - intros k e Hget. apply JSMapFacts.get_Some_elem in Hget.
    unfold reset. simpl. rewrite rejectAll_promises, (Hwf _ _ Hget).
    rewrite bool_decide_eq_true_2; [reflexivity|].
    eapply promise_elem, Hget.
  - unfold reset. simpl. apply rejectAll_log.
  - unfold reset. simpl. rewrite rejectAll_log, length_app, length_fmap.
    reflexivity.
Qed.

Lemma C3_reset_rejects_all_and_clears_witness :
  promises (reset requestedTwice.1) !! 1%nat = Some (Rejected resetMessage)
  /\ callbackLog (reset requestedTwice.1) = [(1%nat, Rejected resetMessage)]
  /\ enumeratePending (reset requestedTwice.1) = [].
Proof.
  pose proof (C3_reset_rejects_all_and_clears requestedTwice.1
                (wf_handleToolCall _ _ _ _ _
                   (wf_handleToolCall _ _ _ _ _ wf_create)))
    as (H1 & H2 & _ & _ & H3).
  split; [exact (H1 (lit "t1") _ eq_refl)|]. split; [exact H2 | exact H3].
Defined.

(** C4: the ['permission'] RPC handler does nothing when the call identifier
    has no pending entry; otherwise it removes the entry and invokes the
    [resolve] callback of its promise exactly once, with the decision.  After
    [handleToolCall] for an identifier and an approving settlement, the
    promise is fulfilled with [approved] by a single callback invocation, and
    any further settlement of the identifier changes nothing. *)
Theorem C4_settle_once (id : jsstr) (ok : bool) (why : option jsstr)
    (h : GeminiPermissionHandler) :
  wf h ->
  (JSMap.get id (pendingRequests h) = None -> onPermission id ok why h = h)
  /\ (forall e, JSMap.get id (pendingRequests h) = Some e ->
        JSMap.get id (pendingRequests (onPermission id ok why h)) = None
        /\ promises (onPermission id ok why h) !! promise e
           = Some (Fulfilled {| decision := if ok then approved else denied;
                                reason := why |})
        /\ callbackLog (onPermission id ok why h)
           = callbackLog h
             ++ [(promise e, Fulfilled {| decision := if ok then approved else denied;
                                          reason := why |})]
        /\ forall ok' why',
             onPermission id ok' why' (onPermission id ok why h)
             = onPermission id ok why h)
  /\ (forall tool inp now,
        promises (onPermission id true None (handleToolCall id tool inp now h).1)
          !! (handleToolCall id tool inp now h).2
        = Some (Fulfilled {| decision := approved; reason := None |})
        /\ callbackLog (onPermission id true None (handleToolCall id tool inp now h).1)
           = callbackLog h
             ++ [((handleToolCall id tool inp now h).2,
                  Fulfilled {| decision := approved; reason := None |})]
        /\ forall ok' why',
             onPermission id ok' why'
               (onPermission id true None (handleToolCall id tool inp now h).1)
             = onPermission id true None (handleToolCall id tool inp now h).1).
Proof.
  intros [Hnd Hwf].
  assert (Hgone : forall h0 e0, JSMap.get id (pendingRequests h0) = Some e0 ->
            forall ok0 why0 ok' why',
              onPermission id ok' why' (onPermission id ok0 why0 h0)
              = onPermission id ok0 why0 h0).
  { intros h0 e0 Hget ok0 why0 ok' why'.
    unfold onPermission at 2 3. rewrite Hget.
    unfold onPermission. simpl. rewrite JSMapFacts.get_delete_eq. reflexivity. }
  split; [|split].
  - intros Hget. unfold onPermission. rewrite Hget. reflexivity.
  - intros e Hget.
    pose proof (Hwf _ _ (JSMapFacts.get_Some_elem _ _ _ Hget)) as He.
    repeat split.
    + unfold onPermission. rewrite Hget. simpl. apply JSMapFacts.get_delete_eq.
    + unfold onPermission. rewrite Hget. simpl.
      rewrite settlePromise_lookup, He. rewrite decide_True by reflexivity.
      reflexivity.
    + unfold onPermission. rewrite Hget. reflexivity.
    + apply (Hgone h e Hget).
  - intros tool inp now.
    assert (Hget : JSMap.get id (pendingRequests (handleToolCall id tool inp now h).1)
                   = Some {| promise := length (promises h); toolName := tool;
                             input := inp |}).
    { simpl. apply JSMapFacts.get_set_eq. }
    repeat split.
    + unfold onPermission. rewrite Hget. simpl.
      rewrite settlePromise_lookup.
      rewrite lookup_app_r by lia. rewrite Nat.sub_diag. simpl.
      rewrite decide_True by reflexivity. reflexivity.
    + unfold onPermission. rewrite Hget. reflexivity.
    + apply (Hgone _ _ Hget).
Qed.

Lemma C4_settle_once_witness :
  promises (onPermission (lit "t1") true None onePending) !! 0%nat
  = Some (Fulfilled {| decision := approved; reason := None |})
  /\ callbackLog (onPermission (lit "t1") true None onePending)
     = [(0%nat, Fulfilled {| decision := approved; reason := None |})]
  /\ onPermission (lit "t1") false None (onPermission (lit "t1") true None onePending)
     = onPermission (lit "t1") true None onePending
  /\ onPermission (lit "t9") true None onePending = onePending.
Proof.
  pose proof (C4_settle_once (lit "t1") true None onePending
                (wf_handleToolCall _ _ _ _ _ wf_create)) as (_ & H & _).
  destruct (H _ eq_refl) as (_ & H1 & H2 & H3).
  pose proof (C4_settle_once (lit "t9") true None onePending
                (wf_handleToolCall _ _ _ _ _ wf_create)) as (H4 & _ & _).
  exact (conj H1 (conj H2 (conj (H3 false None) (H4 eq_refl)))).
Defined.

End PermissionClaims.

Section NormalizerClaims.
Import Wire GeminiHandler Samples.

(** C6, as stated, fails.  An error event is no terminator: after the deltas
    ["Hel"], ["lo"], an error event produces an error body but no [Message],
    and the buffer still holds ["Hello"].  And a non-delta message is a
    terminator whose own text is sent with the buffer: after the same deltas,
    the complete message ["Hello"] yields [Message("HelloHello")]. *)
Lemma C6_counterexample :
  messagesOf
    (handleAll (helloDeltas ++ [typedText (lit "error") (lit "boom")]) initialVars).2
  = []
  /\ agentMessagesOf
       (handleAll (helloDeltas ++ [typedText (lit "error") (lit "boom")]) initialVars).2
     = [ErrorMessage (lit "boom") (uuid 0)]
  /\ currentMessageContent
       (handleAll (helloDeltas ++ [typedText (lit "error") (lit "boom")]) initialVars).1
     = lit "Hello"
  /\ messagesOf
       (handleAll (helloDeltas ++ [messageEvent (lit "Hello") false]) initialVars).2
     = [lit "HelloHello"].
Proof. repeat split; reflexivity. Qed.

(** C6, amended: delta-flagged text is appended to the buffer and nothing is
    sent; the buffered text is sent, as a single [Message], only at a
    terminator (a non-delta message, whose own text is joined to it, a
    tool-call event, or a turn-completion event), after which the buffer is
    empty; every other event sends none of the buffered text and leaves the
    buffer as it is: an event of unknown type sends its own text, as a
    [Message], unless the text is empty or recognised as noise, and the
    remaining events, an error event included, send no [Message] at all.
    Deltas ["Hel"], ["lo"] followed by a non-delta message of text [t] yield
    exactly [Message("Hello" ++ t)], hence [Message("Hello")] when the
    closing message carries no text; followed by a tool-call event or by a
    turn-completion event they yield exactly [Message("Hello")]; and flushing
    an empty buffer sends nothing. *)
Theorem C6_streaming_reassembly (msg : RawEvent) (v : Vars) :
  buffered v ->
  match kindOf (msgTypeOf msg) with
  | KMessage =>
      if ev_delta msg then
        (handler msg v).2 = []
        /\ currentMessageContent (handler msg v).1
           = currentMessageContent v ++ messageTextOf msg
      else
        messagesOf (handler msg v).2
        = messageOf (currentMessageContent v ++ messageTextOf msg)
        /\ currentMessageContent (handler msg v).1 = []
  | KToolUse | KToolCall | KDone | KResult =>
      messagesOf (handler msg v).2 = messageOf (currentMessageContent v)
      /\ currentMessageContent (handler msg v).1 = []
  | KUnknown =>
      agentMessagesOf (handler msg v).2
      = (if Noise.isGeminiDebugOutput (messageTextOf msg) then []
         else [Message (messageTextOf msg) (uuid (uuids v))])
      /\ currentMessageContent (handler msg v).1 = currentMessageContent v
      /\ isStreamingMessage (handler msg v).1 = isStreamingMessage v
  | _ =>
      messagesOf (handler msg v).2 = []
      /\ currentMessageContent (handler msg v).1 = currentMessageContent v
      /\ isStreamingMessage (handler msg v).1 = isStreamingMessage v
  end
  /\ buffered (handler msg v).1
  /\ (forall t,
        messagesOf (handleAll (helloDeltas ++ [messageEvent t false]) initialVars).2
        = [lit "Hello" ++ t])
  /\ messagesOf (handleAll (helloDeltas ++ [typedText (lit "tool_use") []]) initialVars).2
     = [lit "Hello"]
  /\ messagesOf (handleAll (helloDeltas ++ [typedText (lit "function_call") []])
                   initialVars).2
     = [lit "Hello"]
  /\ messagesOf (handleAll (helloDeltas ++ [typedText (lit "done") []]) initialVars).2
     = [lit "Hello"]
  /\ messagesOf (handleAll (helloDeltas ++ [typedText (lit "result") []]) initialVars).2
     = [lit "Hello"]
  /\ messagesOf
       (handleAll (helloDeltas ++ [typedText (lit "other") (lit "note")]) initialVars).2
     = [lit "note"]
  /\ currentMessageContent
       (handleAll (helloDeltas ++ [typedText (lit "other") (lit "note")]) initialVars).1
     = lit "Hello"
  /\ (currentMessageContent v = [] -> flushAccumulatedMessage v = (v, [])).
Proof.
  intros Hb.
  destruct (GeminiHandlerFacts.flush_buffered v Hb) as (Hf1 & Hf2 & Hf3 & Hf4).
  assert (Hcases :
    match kindOf (msgTypeOf msg) with
    | KMessage =>
        if ev_delta msg then
          (handler msg v).2 = []
          /\ currentMessageContent (handler msg v).1
             = currentMessageContent v ++ messageTextOf msg
        else
          messagesOf (handler msg v).2
          = messageOf (currentMessageContent v ++ messageTextOf msg)
          /\ currentMessageContent (handler msg v).1 = []
    | KToolUse | KToolCall | KDone | KResult =>
        messagesOf (handler msg v).2 = messageOf (currentMessageContent v)
        /\ currentMessageContent (handler msg v).1 = []
    | KUnknown =>
        agentMessagesOf (handler msg v).2
        = (if Noise.isGeminiDebugOutput (messageTextOf msg) then []
           else [Message (messageTextOf msg) (uuid (uuids v))])
        /\ currentMessageContent (handler msg v).1 = currentMessageContent v
        /\ isStreamingMessage (handler msg v).1 = isStreamingMessage v
    | _ =>
        messagesOf (handler msg v).2 = []
        /\ currentMessageContent (handler msg v).1 = currentMessageContent v
        /\ isStreamingMessage (handler msg v).1 = isStreamingMessage v
    end /\ buffered (handler msg v).1).
  { unfold handler, messageTextOf.
    destruct (kindOf (msgTypeOf msg)).
    - (* message *)
      destruct (ev_delta msg).
      + simpl. split; [split; reflexivity|]. intros [=].
      + unfold buffered in Hb. destruct v as [content streaming th n]. simpl in *.
        set (text := or_lit _ []).
        destruct streaming; simpl.
        * destruct (content ++ text) eqn:E; simpl; (split; [split; reflexivity|]);
            intros _; reflexivity.
        * rewrite (Hb eq_refl). simpl.
          destruct text; simpl; (split; [split; reflexivity|]); intros _; reflexivity.
    - (* tool_use *)
      rewrite GeminiHandlerFacts.andThen_snd, GeminiHandlerFacts.andThen_fst,
        GeminiHandlerFacts.messagesOf_app, GeminiHandlerFacts.sendWithCallId_toolCall,
        app_nil_r.
      destruct (GeminiHandlerFacts.sendWithCallId_fst
                  (or_else (or_else (ev_tool_id msg) (ev_toolId msg)) (ev_call_id msg))
                  (fun cid => ToolCall (or_lit (or_else (ev_tool_name msg) (ev_name msg))
                                          (lit "unknown")) cid
                                (firstPresent [ev_parameters msg; ev_input msg]))
                  (flushAccumulatedMessage v).1) as (E1 & E2 & E3).
      split; [split; [assumption | congruence]|].
      unfold buffered in *. rewrite E1, E2. assumption.
    - (* tool_call, function_call *)
      rewrite GeminiHandlerFacts.andThen_snd, GeminiHandlerFacts.andThen_fst,
        GeminiHandlerFacts.messagesOf_app, GeminiHandlerFacts.sendWithCallId_toolCall,
        app_nil_r.
      destruct (GeminiHandlerFacts.sendWithCallId_fst
                  (or_else (or_else (or_else (ev_call_id msg) (ev_tool_id msg))
                              (ev_toolId msg)) (ev_id msg))
                  (fun cid => ToolCall
                                (or_lit (or_else (or_else (ev_name msg) (ev_function_name msg))
                                           (ev_tool_name msg)) (lit "unknown")) cid
                                (firstPresent [ev_input msg; ev_arguments msg;
                                               ev_parameters msg]))
                  (flushAccumulatedMessage v).1) as (E1 & E2 & E3).
      split; [split; [assumption | congruence]|].
      unfold buffered in *. rewrite E1, E2. assumption.
    - (* tool_result *)
      rewrite GeminiHandlerFacts.sendWithCallId_toolResult.
      match goal with
      | |- context [sendWithCallId ?c ?b v] =>
          destruct (GeminiHandlerFacts.sendWithCallId_fst c b v) as (E1 & E2 & E3)
      end.
      split; [auto|]. unfold buffered in *. rewrite E1, E2. assumption.
    - (* function_result *)
      rewrite GeminiHandlerFacts.sendWithCallId_toolResult.
      match goal with
      | |- context [sendWithCallId ?c ?b v] =>
          destruct (GeminiHandlerFacts.sendWithCallId_fst c b v) as (E1 & E2 & E3)
      end.
      split; [auto|]. unfold buffered in *. rewrite E1, E2. assumption.
    - (* thinking, reasoning *)
      unfold andThen, buffered in *. destruct v as [content streaming th n].
      simpl in *. destruct th; simpl;
        destruct (truthy (or_else (ev_text msg) (ev_content msg))); simpl; auto.
    - (* error *)
      destruct (_ && _); simpl; auto.
    - (* system *)
      simpl. auto.
    - (* done, complete, finished *)
      unfold andThen. destruct (flushAccumulatedMessage v) as [v1 o1] eqn:E.
      simpl in *. rewrite !GeminiHandlerFacts.messagesOf_app. simpl.
      rewrite !app_nil_r. split; [split; assumption|].
      unfold buffered in *. simpl. assumption.
    - (* result *)
      unfold andThen. destruct (flushAccumulatedMessage v) as [v1 o1] eqn:E.
      simpl in *.
      destruct (ev_stats msg) as [[i o]|]; simpl;
        rewrite !GeminiHandlerFacts.messagesOf_app; simpl; rewrite !app_nil_r;
        (split; [split; assumption|]); unfold buffered in *; simpl; assumption.
    - (* progress *)
      simpl. auto.
    - (* unknown *)
      destruct (or_else _ _) as [[|c s]|]; unfold or_lit.
      + rewrite NoiseFacts.noise_empty. simpl. auto.
      + destruct (Noise.isGeminiDebugOutput (c :: s)); simpl; auto.
      + rewrite NoiseFacts.noise_empty. simpl. auto. }
  destruct Hcases as [Hk Hb'].
  split; [exact Hk|]. split; [exact Hb'|].
  split; [intros [|ch t]; reflexivity|].
  do 6 (split; [reflexivity|]).
  apply GeminiHandlerFacts.flush_empty.
Qed.

Lemma C6_streaming_reassembly_witness :
  messagesOf
    (handler (messageEvent (lit "!") false) (handleAll helloDeltas initialVars).1).2
  = [lit "Hello!"]
  /\ currentMessageContent
       (handler (messageEvent (lit "!") false) (handleAll helloDeltas initialVars).1).1
     = [].
Proof.
  pose proof (C6_streaming_reassembly (messageEvent (lit "!") false)
                (handleAll helloDeltas initialVars).1) as H.
  simpl in H. apply H. intros [=].
Defined.

(** C8, as stated, fails.  The cursor-agent client passes every chunk of
    standard error on, and the handler of [runCursor] sends it as an error
    body, a recognised debug line included; and the handler of [runGemini]
    sends the text of a message event without testing it. *)
Lemma C8_counterexample :
  Noise.isGeminiDebugOutput (lit "[DEBUG] loading") = true
  /\ agentMessagesOf
       (Pipeline.cursorStderr (lit "[DEBUG] loading") CursorHandler.initialVars).2
     = [ErrorMessage (lit "[DEBUG] loading") (uuid 0)]
  /\ agentMessagesOf
       (handler (messageEvent (lit "[DEBUG] loading") false) initialVars).2
     = [Message (lit "[DEBUG] loading") (uuid 0)].
Proof. repeat split; reflexivity. Qed.

(** C8, amended: in the Gemini integration, text that [isGeminiDebugOutput]
    recognises (debug prefixes such as [[DEBUG]] and [[INFO]], lines that
    start with an opening bracket or brace, bare numbers, bare closing
    brackets) is dropped wherever the filter is applied: a chunk of standard
    error, an event of type [error], and an event of an unknown type carrying
    that text make no call on the session at all, so nothing of it reaches the
    sink. *)
Theorem C8_gemini_noise_is_dropped (text : jsstr) (v : Vars) :
  Noise.isGeminiDebugOutput text = true ->
  (forall data, trim data = text -> Pipeline.geminiStderr data v = (v, []))
  /\ (forall msg,
        kindOf (msgTypeOf msg) = KError ->
        or_lit (or_else (ev_message msg) (ev_error msg)) [] = text ->
        handler msg v = (v, []))
  /\ (forall msg,
        kindOf (msgTypeOf msg) = KUnknown ->
        or_else (or_else (ev_message msg) (ev_text msg)) (ev_content msg) = Some text ->
        handler msg v = (v, []))
  /\ handler (typedText (lit "error") text) v = (v, [])
  /\ (forall rest,
        Noise.isGeminiDebugOutput (lit "[DEBUG] " ++ rest) = true
        /\ Noise.isGeminiDebugOutput (lit "[INFO] " ++ rest) = true
        /\ Noise.isGeminiDebugOutput (lit "[" ++ rest) = true
        /\ Noise.isGeminiDebugOutput (lit "{" ++ rest) = true)
  /\ (forall digits,
        digits <> [] -> forallb is_digit digits = true ->
        Noise.isGeminiDebugOutput digits = true)
  /\ Noise.isGeminiDebugOutput (lit "]") = true
  /\ Noise.isGeminiDebugOutput (lit "}") = true.
Proof.
  intros Hnoise.
  assert (Herr : forall msg,
            kindOf (msgTypeOf msg) = KError ->
            or_lit (or_else (ev_message msg) (ev_error msg)) [] = text ->
            handler msg v = (v, [])).
  { intros msg Hk Ht. unfold handler. rewrite Hk. simpl. rewrite Ht, Hnoise.
    rewrite andb_false_r. reflexivity. }
  assert (Htyped : handler (typedText (lit "error") text) v = (v, [])).
  { apply Herr; [reflexivity|]. simpl. destruct text; reflexivity. }
  split; [|split; [exact Herr|split; [|split; [exact Htyped|]]]].
  - intros data Hd. unfold Pipeline.geminiStderr, GeminiClient.onStderrData.
    rewrite Hd. destruct (_ && _); [|reflexivity].
    simpl. unfold andThen. rewrite Htyped. reflexivity.
  - intros msg Hk Ht. unfold handler. rewrite Hk, Ht.
    destruct text as [|c s]; [reflexivity|]. rewrite Hnoise. reflexivity.
  - split; [|split; [exact NoiseFacts.digits_are_noise | split; reflexivity]].
    intros rest. repeat split;
      (apply NoiseFacts.recognised_by_pattern; [discriminate|]).
    + left. apply RegexFacts.test_prefix_of_full. vm_compute. reflexivity.
    + left. apply RegexFacts.test_prefix_of_full. vm_compute. reflexivity.
    + right. left. apply RegexFacts.test_prefix_of_full. vm_compute. reflexivity.
    + right. left. apply RegexFacts.test_prefix_of_full. vm_compute. reflexivity.
Qed.

Lemma C8_gemini_noise_is_dropped_witness :
  Noise.isGeminiDebugOutput (lit "[DEBUG] loading") = true
  /\ Pipeline.geminiStderr (lit "  [DEBUG] loading ") initialVars = (initialVars, [])
  /\ handler (typedText (lit "error") (lit "[DEBUG] loading")) initialVars
     = (initialVars, []).
Proof.
  pose proof (C8_gemini_noise_is_dropped (lit "[DEBUG] loading") initialVars eq_refl)
    as (H1 & _ & _ & H2 & _).
  exact (conj eq_refl (conj (H1 (lit "  [DEBUG] loading ") eq_refl) H2)).
Defined.

End NormalizerClaims.

Section ClientClaims.
Import Wire Host Samples.

(** C7: over any sequence of events, each client ends with the identifiers
    the latch prescribes: a field that already holds an identifier keeps it
    whatever the events expose, and an empty field takes the identifier of
    the first event exposing one, which is the first non-empty string among
    the keys [sessionId], [session_id], [session.id] of that event (likewise
    [conversationId], [conversation_id], [conversation.id]).  After the events
    [[sessionId="A", sessionId="B"]], and whatever events follow, the session
    identifier is ["A"]; so it is when ["A"] comes under [session_id] or
    under [session.id], after events that expose nothing; and of the keys of
    one event [sessionId] comes before [session_id], which comes before
    [session.id]. *)
Theorem C7_identifiers_latch (msgs : list RawEvent)
    (g : GeminiClient.t) (c : CursorClient.t) :
  GeminiClient.sessionId (GeminiClient.handleMessages msgs g)
  = latched (GeminiClient.sessionId g)
      ((fun msg => firstNonEmpty (sessionKeys msg)) <$> msgs)
  /\ GeminiClient.conversationId (GeminiClient.handleMessages msgs g)
     = latched (GeminiClient.conversationId g)
         ((fun msg => firstNonEmpty (conversationKeys msg)) <$> msgs)
  /\ CursorClient.sessionId (CursorClient.handleMessages msgs c)
     = latched (CursorClient.sessionId c)
         ((fun msg => firstNonEmpty (sessionKeys msg)) <$> msgs)
  /\ CursorClient.conversationId (CursorClient.handleMessages msgs c)
     = latched (CursorClient.conversationId c)
         ((fun msg => firstNonEmpty (conversationKeys msg)) <$> msgs)
  /\ Forall
       (fun first =>
          GeminiClient.sessionId
            (GeminiClient.handleMessages (first ++ msgs) GeminiClient.create)
          = Some (lit "A")
          /\ CursorClient.sessionId
               (CursorClient.handleMessages (first ++ msgs) CursorClient.create)
             = Some (lit "A"))
       [sessionAB; sessionBySnakeKey; sessionByNestedKey; sessionAllKeys]
  /\ Forall
       (fun first =>
          GeminiClient.conversationId
            (GeminiClient.handleMessages (first ++ msgs) GeminiClient.create)
          = Some (lit "A")
          /\ CursorClient.conversationId
               (CursorClient.handleMessages (first ++ msgs) CursorClient.create)
             = Some (lit "A"))
       [conversationAB; conversationBySnakeKey; conversationByNestedKey]
  /\ GeminiClient.sessionId
       (GeminiClient.handleMessages (sessionSnakeAndNested ++ msgs) GeminiClient.create)
     = Some (lit "B")
  /\ CursorClient.sessionId
       (CursorClient.handleMessages (sessionSnakeAndNested ++ msgs) CursorClient.create)
     = Some (lit "B").
Proof.
  assert (G : forall msgs g,
    GeminiClient.sessionId (GeminiClient.handleMessages msgs g)
    = latched (GeminiClient.sessionId g)
        ((fun msg => firstNonEmpty (sessionKeys msg)) <$> msgs)
    /\ GeminiClient.conversationId (GeminiClient.handleMessages msgs g)
       = latched (GeminiClient.conversationId g)
           ((fun msg => firstNonEmpty (conversationKeys msg)) <$> msgs)).
  { intros ms g'. destruct (ClientFacts.gemini_stream ms g') as [G1 G2].
    rewrite G1, G2, ClientFacts.latch_sessionKeys, ClientFacts.latch_conversationKeys.
    auto. }
  assert (K : forall msgs c,
    CursorClient.sessionId (CursorClient.handleMessages msgs c)
    = latched (CursorClient.sessionId c)
        ((fun msg => firstNonEmpty (sessionKeys msg)) <$> msgs)
    /\ CursorClient.conversationId (CursorClient.handleMessages msgs c)
       = latched (CursorClient.conversationId c)
           ((fun msg => firstNonEmpty (conversationKeys msg)) <$> msgs)).
  { intros ms c'. destruct (ClientFacts.cursor_stream ms c') as [K1 K2].
    rewrite K1, K2, ClientFacts.latch_sessionKeys, ClientFacts.latch_conversationKeys.
    auto. }
  destruct (G msgs g) as [G1 G2]. destruct (K msgs c) as [K1 K2].
  do 4 (split; [assumption|]).
  split; [|split; [|split]].
  - repeat (apply Forall_cons; split); try apply Forall_nil; try exact I; cbv beta;
      match goal with
      | |- context [GeminiClient.handleMessages (?first ++ msgs)] =>
          destruct (G (first ++ msgs) GeminiClient.create) as [-> _];
          destruct (K (first ++ msgs) CursorClient.create) as [-> _]
      end; rewrite fmap_app; split; reflexivity.
  - repeat (apply Forall_cons; split); try apply Forall_nil; try exact I; cbv beta;
      match goal with
      | |- context [GeminiClient.handleMessages (?first ++ msgs)] =>
          destruct (G (first ++ msgs) GeminiClient.create) as [_ ->];
          destruct (K (first ++ msgs) CursorClient.create) as [_ ->]
      end; rewrite fmap_app; split; reflexivity.
  - destruct (G (sessionSnakeAndNested ++ msgs) GeminiClient.create) as [-> _].
    reflexivity.
  - destruct (K (sessionSnakeAndNested ++ msgs) CursorClient.create) as [-> _].
    reflexivity.
Qed.

(** C10, as stated, fails.  When the command-line tool is missing,
    [continueSession] sends SIGTERM to the process the client holds and then
    throws: no process is spawned.  And the call terminates the process held
    in [this.process] only: once the ['exit'] listener has run for the process
    that a continuation replaced, the client holds none, and the next
    continuation spawns a third process while the second was sent nothing. *)
Lemma C10_counterexample :
  GeminiClient.trace
    (GeminiClient.continueSession missingCli (lit "next") (Some 0%nat) startedWithModel).1
  = GeminiClient.trace startedWithModel ++ [killed 0]
  /\ (GeminiClient.continueSession missingCli (lit "next") (Some 0%nat) startedWithModel).2
     = Threw GeminiClient.notFound
  /\ GeminiClient.process
       (GeminiClient.continueSession healthy (lit "next") (Some 0%nat) startedWithModel).1
     = Some 1%nat
  /\ GeminiClient.trace
       (GeminiClient.continueSession healthy (lit "again") (Some 0%nat)
          (GeminiClient.onExit
             (GeminiClient.continueSession healthy (lit "next") (Some 0%nat)
                startedWithModel).1)).1
     = GeminiClient.trace
         (GeminiClient.continueSession healthy (lit "next") (Some 0%nat)
            startedWithModel).1
       ++ [readerClosed 1;
           spawned 2
             {| sp_path := lit "/usr/local/bin/agent";
                sp_args := [arg (lit "--output-format"); arg (lit "stream-json");
                            arg (lit "-p"); arg (lit "again")];
                sp_cwd := lit "/work"; sp_stdio := pipe;
                sp_signal := Some 0%nat; sp_shell := false |}].
Proof. repeat split; reflexivity. Qed.

(** C10, amended: every call of [continueSession(prompt)] sends SIGTERM to
    the process the client holds in [this.process], if it holds one, and to no
    other.  When the Gemini command-line tool is found and [spawn] succeeds,
    the call then spawns a new process whose invocation is made of the prompt
    and the current working directory only: no model argument, nothing of an
    MCP configuration and nothing of the session identifiers.  When the tool
    is not found, or [spawn] throws, the call throws and spawns nothing, and
    the client is left without a process.  In every case the session
    identifiers of the client are left as they were. *)
Theorem C10_continuation_is_a_fresh_invocation
    (env : Env) (prompt : jsstr) (signal : option Signal) (c : GeminiClient.t) :
  GeminiClient.trace (GeminiClient.continueSession env prompt signal c).1
  = GeminiClient.trace c
    ++ match GeminiClient.process c with
       | Some pid => [killed pid]
       | None => []
       end
    ++ match cliPath env, spawnThrows env with
       | Some geminiPath, None =>
           [spawned (pidsSpawned (GeminiClient.trace c))
              (GeminiClient.promptOnly env prompt signal geminiPath)]
       | _, _ => []
       end
  /\ (GeminiClient.continueSession env prompt signal c).2
     = match cliPath env, spawnThrows env with
       | None, _ => Threw GeminiClient.notFound
       | Some geminiPath, Some cause =>
           Threw (GeminiClient.startFailed cause geminiPath)
       | Some _, None => Returned
       end
  /\ GeminiClient.process (GeminiClient.continueSession env prompt signal c).1
     = match cliPath env, spawnThrows env with
       | Some _, None => Some (pidsSpawned (GeminiClient.trace c))
       | _, _ => None
       end
  /\ (forall ch rest geminiPath,
        sp_args (GeminiClient.promptOnly env (ch :: rest) signal geminiPath)
        = [arg (lit "--output-format"); arg (lit "stream-json");
           arg (lit "-p"); arg (ch :: rest)])
  /\ GeminiClient.sessionId (GeminiClient.continueSession env prompt signal c).1
     = GeminiClient.sessionId c
  /\ GeminiClient.conversationId (GeminiClient.continueSession env prompt signal c).1
     = GeminiClient.conversationId c.
Proof.
  unfold GeminiClient.continueSession, GeminiClient.startSession.
  set (c0 := GeminiClient.killProcess (if GeminiClient.connected c then c
                                        else GeminiClient.connect c)).
  assert (Hk : GeminiClient.trace c0
               = GeminiClient.trace c
                 ++ match GeminiClient.process c with
                    | Some pid => [killed pid]
                    | None => []
                    end
               /\ pidsSpawned (GeminiClient.trace c0)
                  = pidsSpawned (GeminiClient.trace c)
               /\ GeminiClient.sessionId c0 = GeminiClient.sessionId c
               /\ GeminiClient.conversationId c0 = GeminiClient.conversationId c
               /\ GeminiClient.process c0 = None).
  { subst c0.
    destruct (ClientFacts.gemini_killProcess
                (if GeminiClient.connected c then c else GeminiClient.connect c))
      as (Hp & Ht & Hn & Hs & Hc).
    rewrite Hn, Ht, Hs, Hc, Hp. destruct (GeminiClient.connected c); simpl; auto. }
  destruct Hk as (Ht & Hn & Hs & Hc & Hp).
  assert (Hcwd : or_lit (Some (processCwd env)) (processCwd env) = processCwd env).
  { destruct (processCwd env); reflexivity. }
  assert (Hargs : forall ch rest geminiPath,
    sp_args (GeminiClient.promptOnly env (ch :: rest) signal geminiPath)
    = [arg (lit "--output-format"); arg (lit "stream-json");
       arg (lit "-p"); arg (ch :: rest)]).
  { intros ch rest geminiPath. unfold GeminiClient.promptOnly. simpl.
    rewrite !andb_false_r. reflexivity. }
  destruct (cliPath env) as [geminiPath|]; [destruct (spawnThrows env) as [cause|]|].
  - simpl. rewrite Ht, Hs, Hc, Hp, !app_nil_r. repeat split; auto.
  - simpl. rewrite Hcwd, Hn, Ht, Hs, Hc, app_nil_r.
    unfold GeminiClient.promptOnly. simpl. rewrite <- app_assoc.
    repeat split; auto.
  - simpl. rewrite Ht, Hs, Hc, Hp, !app_nil_r. repeat split; auto.
Qed.

Lemma C10_continuation_is_a_fresh_invocation_witness :
  GeminiClient.sessionId startedWithModel = Some (lit "A")
  /\ GeminiClient.trace
       (GeminiClient.continueSession healthy (lit "next") (Some 0%nat) startedWithModel).1
     = GeminiClient.trace startedWithModel
       ++ [killed 0;
           spawned 1
             {| sp_path := lit "/usr/local/bin/agent";
                sp_args := [arg (lit "--output-format"); arg (lit "stream-json");
                            arg (lit "-p"); arg (lit "next")];
                sp_cwd := lit "/work"; sp_stdio := pipe;
                sp_signal := Some 0%nat; sp_shell := false |}]
  /\ GeminiClient.sessionId
       (GeminiClient.continueSession healthy (lit "next") (Some 0%nat) startedWithModel).1
     = Some (lit "A").
Proof.
  pose proof (C10_continuation_is_a_fresh_invocation healthy (lit "next") (Some 0%nat)
                startedWithModel) as (H & _ & _ & _ & Hs & _).
  split; [reflexivity|]. split; [exact H | exact Hs].
Defined.

End ClientClaims.

(** ** The session loop *)

Module LoopFacts.
Import Wire Host MessageQueue Loop.

Lemma promptsDelivered_app a b :
  promptsDelivered (a ++ b) = promptsDelivered a ++ promptsDelivered b.
Proof. unfold promptsDelivered. rewrite fmap_app, concat_app. reflexivity. Qed.

(** Clearing the Gemini session delivers no prompt and forgets the process
    and both identifiers. *)
Lemma gemini_clearSession c :
  promptsDelivered (GeminiClient.trace (GeminiClient.clearSession c))
  = promptsDelivered (GeminiClient.trace c)
  /\ GeminiClient.process (GeminiClient.clearSession c) = None
  /\ GeminiClient.sessionId (GeminiClient.clearSession c) = None
  /\ GeminiClient.conversationId (GeminiClient.clearSession c) = None.
Proof.
  unfold GeminiClient.clearSession, GeminiClient.closeReader, GeminiClient.killProcess.
  destruct (GeminiClient.process c) as [pid|] eqn:Hp; simpl;
    destruct (GeminiClient.stdoutReader c) as [r|]; simpl;
    rewrite ?promptsDelivered_app; simpl; rewrite ?app_nil_r; auto.
Qed.

Lemma cursor_clearSession c :
  promptsDelivered (CursorClient.trace (CursorClient.clearSession c))
  = promptsDelivered (CursorClient.trace c)
  /\ CursorClient.process (CursorClient.clearSession c) = None
  /\ CursorClient.sessionId (CursorClient.clearSession c) = None
  /\ CursorClient.conversationId (CursorClient.clearSession c) = None.
Proof.
  unfold CursorClient.clearSession, CursorClient.closeReader, CursorClient.killProcess.
  destruct (CursorClient.process c) as [[pid io]|] eqn:Hp; simpl;
    destruct (CursorClient.stdoutReader c) as [r|]; simpl;
    rewrite ?promptsDelivered_app; simpl; rewrite ?app_nil_r; auto.
Qed.

Section Generic.
Variables (separator titleInstruction : jsstr) (A : Adapter).

(** On a mode change the pass ends in the restart branch. *)
Lemma pass_restart env (s : State A) batch rest :
  drainNextBatch separator (messageQueue s) = Some (batch, rest) ->
  wasCreated s = true ->
  truthy (currentModeHash s) = true ->
  currentModeHash s <> Some (hash batch) ->
  pass separator titleInstruction A env s
  = again
      (restart A env
         {| messageQueue := rest; theClient := theClient s;
            permissionHandler := permissionHandler s;
            handlerVars := handlerVars s; first := first s;
            wasCreated := wasCreated s; currentModeHash := currentModeHash s;
            abortSignal := abortSignal s; sent := sent s |}).
Proof.
  intros Hd Hw Ht Hh. unfold pass. rewrite Hd.
  unfold modeChanged, differs. simpl. rewrite Hw, Ht.
  rewrite bool_decide_eq_false_2 by assumption. reflexivity.
Qed.



End Generic.

(** The restart branch of either loop hands no prompt to the backend. *)
Lemma gemini_restart_delivers_nothing env (s : State gemini) :
  promptsDelivered (GeminiClient.trace (theClient (restart gemini env s)))
  = promptsDelivered (GeminiClient.trace (theClient s))
  /\ messageQueue (restart gemini env s) = messageQueue s
  /\ wasCreated (restart gemini env s) = false.
Proof.
  simpl. destruct (gemini_clearSession (theClient s)) as (H & _). auto.
Qed.

Lemma cursor_restart_delivers_nothing env (s : State cursor) :
  promptsDelivered (CursorClient.trace (theClient (restart cursor env s)))
  = promptsDelivered (CursorClient.trace (theClient s))
  /\ messageQueue (restart cursor env s) = messageQueue s
  /\ wasCreated (restart cursor env s) = false.
Proof.
  simpl. destruct (cursor_clearSession (theClient s)) as (H & _). auto.
Qed.

End LoopFacts.

Section LoopClaims.
Import Wire Host MessageQueue Loop Samples.

(** C1: the loops started with message ["a"] under one mode and message ["b"]
    under another, on a healthy host.  They start a session with ["a"], drain
    ["b"], find its fingerprint different and tear the session down; the next
    pass finds the queue empty and stays suspended.  The only prompt the
    backend ever received is the one made of ["a"]: the batch of ["b"] was
    drained and is neither queued nor delivered, and no session is running.
    When a third message ["c"] arrives later, a session is started with
    ["c"] alone: ["b"] never reaches the backend. *)
Theorem C1_mode_change_batch_is_dropped :
  (exists s : State gemini,
     geminiTwoModesRun = suspended s
     /\ messageQueue s = []
     /\ promptsDelivered (GeminiClient.trace (theClient s))
        = [lit "a" ++ lit_newline ++ lit_newline ++ titleText]
     /\ GeminiClient.process (theClient s) = None
     /\ wasCreated s = false)
  /\ (exists s : State cursor,
        cursorTwoModesRun = suspended s
        /\ messageQueue s = []
        /\ promptsDelivered (CursorClient.trace (theClient s))
           = [lit "a" ++ lit_newline ++ lit_newline ++ titleText]
        /\ CursorClient.process (theClient s) = None
        /\ wasCreated s = false)
  /\ promptsDelivered (GeminiClient.trace (theClient (stateOf geminiThirdMessageRun)))
     = [lit "a" ++ lit_newline ++ lit_newline ++ titleText; lit "c"]
  /\ promptsDelivered (CursorClient.trace (theClient (stateOf cursorThirdMessageRun)))
     = [lit "a" ++ lit_newline ++ lit_newline ++ titleText; lit "c"].
Proof.
  split; [|split; [|split]].
  - eexists. split; [vm_compute; reflexivity|]. repeat split; vm_compute; reflexivity.
  - eexists. split; [vm_compute; reflexivity|]. repeat split; vm_compute; reflexivity.
  - vm_compute. reflexivity.
  - vm_compute. reflexivity.
Qed.

(** C5: when the Gemini loop, with a session created, drains a batch whose
    fingerprint differs from that of the session, the pass ends in the
    restart branch, and the state the next pass starts from has no pending
    permission entry, no session identifier, no conversation identifier and
    no process, with the session marked as not created. *)
Theorem C5_restart_clears_broker_and_identifiers
    (separator titleInstruction : jsstr) (env : Env) (s : State gemini)
    (batch : Batch) (rest : MessageQueue.t) :
  drainNextBatch separator (messageQueue s) = Some (batch, rest) ->
  wasCreated s = true ->
  truthy (currentModeHash s) = true ->
  currentModeHash s <> Some (hash batch) ->
  exists s' : State gemini,
    pass separator titleInstruction gemini env s = again s'
    /\ Permission.enumeratePending (permissionHandler s') = []
    /\ GeminiClient.sessionId (theClient s') = None
    /\ GeminiClient.conversationId (theClient s') = None
    /\ GeminiClient.process (theClient s') = None
    /\ wasCreated s' = false
    /\ currentModeHash s' = None.
Proof.
  intros Hd Hw Ht Hh. eexists. split.
  - apply (LoopFacts.pass_restart separator titleInstruction gemini env s batch rest);
      assumption.
  - simpl. destruct (LoopFacts.gemini_clearSession (theClient s)) as (_ & Hp & Hs & Hc).
    repeat split; assumption || reflexivity.
Qed.

Lemma C5_restart_clears_broker_and_identifiers_witness :
  Permission.enumeratePending (permissionHandler geminiActive) <> []
  /\ GeminiClient.sessionId (theClient geminiActive) = Some (lit "A")
  /\ exists s' : State gemini,
       pass lit_newline titleText gemini healthy geminiActive = again s'
       /\ Permission.enumeratePending (permissionHandler s') = []
       /\ GeminiClient.sessionId (theClient s') = None
       /\ GeminiClient.conversationId (theClient s') = None.
Proof.
  split; [vm_compute; discriminate|]. split; [reflexivity|].
  destruct (C5_restart_clears_broker_and_identifiers lit_newline titleText healthy
              geminiActive
              {| message := lit "b"; batchMode := modeB; hash := lit "hashB" |} [])
    as (s' & H1 & H2 & H3 & H4 & _).
  - reflexivity.
  - reflexivity.
  - reflexivity.
  - vm_compute. discriminate.
  - exists s'. repeat split; assumption.
Defined.




End LoopClaims.

(** * Further properties of the modelled code *)

(** ** The Gemini permission handler over sequences of calls *)

Module PermissionRuns.
Import Permission PermissionFacts.

Lemma logged_create : logged create.
Proof.
  split; [constructor|]. split.
  - intros p v H. apply elem_of_nil in H. contradiction.
  - intros p v H. simpl in H. discriminate.
Qed.

Lemma logged_invoke p v h :
  logged h -> promises h !! p = Some Pending -> v <> Pending ->
  logged (invoke p v h).
Proof.
  intros (Hnd & Hlog & Hset) Hp Hv. unfold logged. simpl.
  split; [|split].
  - rewrite fmap_app. apply NoDup_app. split; [assumption|]. split.
    + intros q Hq Hq'. apply list_elem_of_singleton in Hq'. simpl in Hq'. subst q.
      apply list_elem_of_fmap in Hq as ([q w] & Heq & Hin). simpl in Heq. subst q.
      destruct (Hlog _ _ Hin) as [Hw Hne]. congruence.
    + apply NoDup_singleton.
  - intros q w Hin. rewrite settlePromise_lookup, Hp.
    apply elem_of_app in Hin as [Hin|Hin].
    + destruct (Hlog _ _ Hin) as [Hw Hne].
      destruct (decide (p = q)) as [->|_]; [congruence|]. split; assumption.
    + apply list_elem_of_singleton in Hin. injection Hin as -> ->.
      rewrite decide_True by reflexivity. split; [reflexivity | assumption].
  - intros q w Hq Hne. rewrite settlePromise_lookup, Hp in Hq.
    apply elem_of_app. destruct (decide (p = q)) as [->|_].
    + injection Hq as ->. right. apply list_elem_of_singleton. reflexivity.
    + left. apply Hset; assumption.
Qed.

Lemma invoke_other p v h q :
  p <> q -> promises (invoke p v h) !! q = promises h !! q.
Proof.
  intros Hne. simpl. rewrite settlePromise_lookup.
  destruct (promises h !! p) as [[| |]|]; try reflexivity.
  rewrite decide_False by assumption. reflexivity.
Qed.

Lemma logged_rejectAll entries h :
  logged h ->
  NoDup ((fun e => promise e.2) <$> entries) ->
  (forall e, e ∈ entries -> promises h !! promise e.2 = Some Pending) ->
  logged (rejectAll entries h).
Proof.
  revert h. induction entries as [|e entries IH]; intros h Hl Hnd Hp; [exact Hl|].
  unfold rejectAll in *. simpl foldl. rewrite fmap_cons in Hnd.
  apply NoDup_cons in Hnd as [Hnotin Hnd].
  apply IH; [| assumption |].
  - apply logged_invoke; [assumption | apply Hp, list_elem_of_here | discriminate].
  - intros e' Hin. rewrite invoke_other.
    + apply Hp, list_elem_of_further, Hin.
    + intros Heq. apply Hnotin. rewrite Heq.
      apply (list_elem_of_fmap_2 (fun x => promise x.2) _ _ Hin).
Qed.

Lemma logged_apply o h : wf h -> logged h -> wf (apply o h) /\ logged (apply o h).
Proof.
  intros Hwf Hl. split.
  { destruct o; simpl;
      [apply wf_handleToolCall | apply wf_onPermission | apply wf_reset]; assumption. }
  destruct o as [id tool inp now|id ok why|]; simpl.
  - destruct Hl as (Hnd & Hlog & Hset). unfold logged. simpl.
    split; [assumption|]. split.
    + intros p v Hin. destruct (Hlog _ _ Hin) as [Hp Hne]. split; [|assumption].
      rewrite lookup_app_l; [assumption|]. eapply lookup_lt_Some, Hp.
    + intros p v Hp Hne. apply Hset; [|assumption].
      destruct (decide (p < length (promises h))%nat) as [Hlt|Hge].
      * rewrite lookup_app_l in Hp; assumption.
      * rewrite lookup_app_r in Hp by lia.
        destruct (p - length (promises h))%nat; simpl in Hp; [congruence | discriminate].
  - unfold onPermission.
    destruct (JSMap.get id (pendingRequests h)) as [e|] eqn:Hget; [|assumption].
    destruct Hwf as [_ Hwf].
    apply (logged_invoke (promise e) _
             {| pendingRequests := JSMap.delete id (pendingRequests h);
                promises := promises h; callbackLog := callbackLog h;
                agentRequests := agentRequests h |}).
    + exact Hl.
    + simpl. eapply Hwf, JSMapFacts.get_Some_elem, Hget.
    + discriminate.
  - destruct Hwf as [Hnd Hwf].
    pose proof (logged_rejectAll (pendingRequests h) h Hl Hnd) as H.
    unfold reset, logged in *. simpl. apply H.
    intros [k e] Hin. simpl. eapply Hwf, Hin.
Qed.

Lemma logged_applyAll ops h :
  wf h -> logged h -> wf (applyAll ops h) /\ logged (applyAll ops h).
Proof.
  revert h. induction ops as [|o ops IH]; intros h Hwf Hl; [split; assumption|].
  unfold applyAll in *. simpl. destruct (logged_apply o h Hwf Hl) as [Hwf' Hl'].
  apply IH; assumption.
Qed.

Lemma agentRequests_apply o h k :
  is_Some (agentRequests h !! k) -> is_Some (agentRequests (apply o h) !! k).
Proof.
  intros Hk. destruct o as [id tool inp now|id ok why|]; simpl.
  - destruct (decide (id = k)) as [->|Hne].
    + rewrite lookup_insert_eq. eexists; reflexivity.
    + rewrite lookup_insert_ne by assumption. exact Hk.
  - unfold onPermission. destruct (JSMap.get id (pendingRequests h)); exact Hk.
  - rewrite rejectAll_agentRequests. exact Hk.
Qed.

Lemma agentRequests_applyAll ops h k :
  is_Some (agentRequests h !! k) -> is_Some (agentRequests (applyAll ops h) !! k).
Proof.
  revert h. induction ops as [|o ops IH]; intros h Hk; [exact Hk|].
  unfold applyAll in *. simpl. apply IH, agentRequests_apply, Hk.
Qed.

End PermissionRuns.

Section PermissionExtras.
Import Permission PermissionFacts PermissionRuns.

(** X1: whatever calls are made on a new Gemini permission handler, the
    callbacks of a promise are invoked at most once, the log of invocations
    lists exactly the settled promises with their outcomes, and every entry
    of the pending table holds a promise that is still pending. *)
Theorem X1_promises_settled_at_most_once (ops : list Op) :
  NoDup (callbackLog (applyAll ops create)).*1
  /\ (forall p v,
        (p, v) ∈ callbackLog (applyAll ops create)
        <-> promises (applyAll ops create) !! p = Some v /\ v <> Pending)
  /\ (forall k e,
        JSMap.get k (pendingRequests (applyAll ops create)) = Some e ->
        promises (applyAll ops create) !! promise e = Some Pending).
Proof.
  destruct (logged_applyAll ops create wf_create logged_create)
    as [[_ Hwf] (Hnd & Hlog & Hset)].
  split; [assumption|]. split.
  - intros p v. split; [apply Hlog|]. intros [Hp Hne]. apply Hset; assumption.
  - intros k e Hget. eapply Hwf, JSMapFacts.get_Some_elem, Hget.
Qed.

(** X2: the Gemini handler never takes a request out of the agent state: a
    call identifier passed to [handleToolCall] is still listed in [requests]
    after any later calls, settlements and resets included. *)
Theorem X2_agent_requests_are_never_removed
    (before after : list Op) (id tool : jsstr) (inp : json) (now : N) :
  is_Some
    (agentRequests (applyAll (before ++ opToolCall id tool inp now :: after) create)
       !! id).
Proof.
  unfold applyAll. rewrite foldl_app. simpl.
  apply (agentRequests_applyAll after). simpl.
  rewrite lookup_insert_eq. eexists; reflexivity.
Qed.

End PermissionExtras.

(** ** The Cursor permission handler *)

Module CursorPermissionFacts.
Import Permission CursorPermission.

Lemma cursor_settlePromise_lookup p v ps q :
  settlePromise p v ps !! q =
  match ps !! p with
  | Some Pending => if decide (p = q) then Some v else ps !! q
  | _ => ps !! q
  end.
Proof.
  unfold settlePromise. destruct (ps !! p) as [[| |]|] eqn:Hp; try reflexivity.
  destruct (decide (p = q)) as [<-|Hne].
  - apply list_lookup_insert_eq. eapply lookup_lt_Some, Hp.
  - apply list_lookup_insert_ne, Hne.
Qed.

Lemma rejecting_fields entries h :
  pendingRequests (rejecting entries h) = pendingRequests h
  /\ agentRequests (rejecting entries h) = agentRequests h
  /\ completedRequests (rejecting entries h) = completedRequests h.
Proof.
  revert h. induction entries as [|e entries IH]; intros h; [auto|].
  unfold rejecting in *. simpl. destruct (IH (invoke (promise e.2) (Rejected resetMessage) h))
    as (H1 & H2 & H3). rewrite H1, H2, H3. auto.
Qed.

Lemma rejecting_promises entries h q :
  promises h !! q = Some Pending ->
  q ∈ (fun e => promise e.2) <$> entries ->
  promises (rejecting entries h) !! q = Some (Rejected resetMessage).
Proof.
  assert (Hkeep : forall l h0, promises h0 !! q = Some (Rejected resetMessage) ->
            promises (rejecting l h0) !! q = Some (Rejected resetMessage)).
  { induction l as [|e l IH]; intros h0 Hq; [exact Hq|].
    unfold rejecting in *. simpl foldl. apply IH. simpl.
    rewrite cursor_settlePromise_lookup.
    destruct (promises h0 !! promise e.2) as [[| |]|] eqn:He; try assumption.
    destruct (decide (promise e.2 = q)) as [Heq|_]; [congruence | assumption]. }
  revert h. induction entries as [|e entries IH]; intros h Hq Hin.
  - apply elem_of_nil in Hin. contradiction.
  - unfold rejecting in *. simpl foldl. rewrite fmap_cons in Hin.
    destruct (decide (promise e.2 = q)) as [Heq|Hne].
    + apply Hkeep. simpl. rewrite cursor_settlePromise_lookup, Heq, Hq.
      rewrite decide_True by reflexivity. reflexivity.
    + apply IH.
      * simpl. rewrite cursor_settlePromise_lookup.
        destruct (promises h !! promise e.2) as [[| |]|]; try assumption.
        rewrite decide_False by assumption. assumption.
      * apply elem_of_cons in Hin as [Hin|Hin]; [congruence | assumption].
Qed.

Lemma cursor_get_Some_elem k (e : PendingRequest) m : JSMap.get k m = Some e -> (k, e) ∈ m.
Proof. apply JSMapFacts.get_Some_elem. Qed.

(** The pending table and the requests of the agent state list the same call
    identifiers. *)
Lemma apply_in_step o h :
  (forall k, is_Some (JSMap.get k (pendingRequests h)) <-> is_Some (agentRequests h !! k)) ->
  forall k, is_Some (JSMap.get k (pendingRequests (apply o h)))
            <-> is_Some (agentRequests (apply o h) !! k).
Proof.
  intros Hs k. destruct o as [id tool inp now|now r|now]; simpl.
  - destruct (decide (id = k)) as [->|Hne].
    + rewrite JSMapFacts.get_set_eq, lookup_insert_eq. split; eexists; reflexivity.
    + rewrite JSMapFacts.get_set_ne, lookup_insert_ne by assumption. apply Hs.
  - unfold onPermission.
    destruct (JSMap.get (responseId r) (pendingRequests h)) as [e|] eqn:Hget; [|apply Hs].
    simpl. destruct (agentRequests h !! responseId r) as [req|] eqn:Hreq; simpl.
    + destruct (decide (responseId r = k)) as [<-|Hne].
      * rewrite JSMapFacts.get_delete_eq, lookup_delete_eq.
        split; intros [? [=]].
      * rewrite JSMapFacts.get_delete_ne, lookup_delete_ne by assumption. apply Hs.
    + exfalso. assert (H : is_Some (agentRequests h !! responseId r)).
      { apply Hs. rewrite Hget. eexists; reflexivity. }
      rewrite Hreq in H. destruct H as [? [=]].
  - rewrite lookup_empty. split; intros [? [=]].
Qed.

End CursorPermissionFacts.

Section CursorPermissionExtras.
Import Permission CursorPermission CursorPermissionFacts.

(** X3: when the Cursor RPC handler receives a response for a pending call,
    it removes the entry and fulfils its promise with a decision that agrees
    with the [approved] flag whatever the [decision] field says: an approved
    response grants ([approved_for_session] only when it asks for it), any
    other response refuses ([denied] only when it says so, [abort]
    otherwise).  The request leaves [requests] of the agent state and is
    recorded in [completedRequests] with the matching status. *)
Theorem X3_cursor_decision_follows_the_approved_flag
    (now : N) (response : PermissionResponse) (h : t)
    (e : PendingRequest) (r : AgentRequest) :
  JSMap.get (responseId response) (pendingRequests h) = Some e ->
  promises h !! promise e = Some Pending ->
  agentRequests h !! responseId response = Some r ->
  JSMap.get (responseId response) (pendingRequests (onPermission now response h)) = None
  /\ promises (onPermission now response h) !! promise e
     = Some (Fulfilled (resultOf response))
  /\ grants (resultOf response) = isApproved response
  /\ (resultOf response = approved_for_session
      <-> isApproved response = true
          /\ responseDecision response = Some approved_for_session)
  /\ (resultOf response = denied
      <-> isApproved response = false /\ responseDecision response = Some denied)
  /\ agentRequests (onPermission now response h) !! responseId response = None
  /\ completedRequests (onPermission now response h) !! responseId response
     = Some {| request := r; completedAt := now;
               status := if isApproved response then status_approved else status_denied;
               completedDecision := Some (resultOf response);
               completedReason := None |}.
Proof.
  intros Hget Hp Hr. unfold onPermission. rewrite Hget. simpl. rewrite Hr. simpl.
  rewrite JSMapFacts.get_delete_eq, cursor_settlePromise_lookup, Hp, lookup_delete_eq,
    lookup_insert_eq.
  rewrite decide_True by reflexivity.
  repeat split; try reflexivity.
  - unfold resultOf. destruct (isApproved response), (responseDecision response) as [[| | |]|];
      reflexivity.
  - unfold resultOf in H.
    destruct (isApproved response), (responseDecision response) as [[| | |]|];
      congruence.
  - unfold resultOf in H.
    destruct (isApproved response), (responseDecision response) as [[| | |]|];
      congruence.
  - intros [Ha Hd]. unfold resultOf. rewrite Ha, Hd. reflexivity.
  - unfold resultOf in H.
    destruct (isApproved response), (responseDecision response) as [[| | |]|];
      congruence.
  - unfold resultOf in H.
    destruct (isApproved response), (responseDecision response) as [[| | |]|];
      congruence.
  - intros [Ha Hd]. unfold resultOf. rewrite Ha, Hd. reflexivity.
Qed.

Lemma X3_cursor_decision_follows_the_approved_flag_witness :
  promises (onPermission 5 Samples.mixedResponse Samples.cursorOnePending) !! 0%nat
  = Some (Fulfilled abort)
  /\ completedRequests (onPermission 5 Samples.mixedResponse Samples.cursorOnePending)
       !! lit "t1"
     = Some {| request := {| tool := lit "Bash"; arguments := Wire.emptyObject;
                             createdAt := 0 |};
               completedAt := 5; status := status_denied;
               completedDecision := Some abort; completedReason := None |}.
Proof.
  pose proof (X3_cursor_decision_follows_the_approved_flag 5 Samples.mixedResponse
                Samples.cursorOnePending
                {| promise := 0; toolName := lit "Bash"; input := Wire.emptyObject |}
                {| tool := lit "Bash"; arguments := Wire.emptyObject; createdAt := 0 |}
                eq_refl eq_refl) as H.
  destruct H as (_ & H1 & _ & _ & _ & _ & H2).
  - vm_compute. reflexivity.
  - exact (conj H1 H2).
Defined.

(** X4: [reset] of the Cursor handler empties the pending table and the
    [requests] of the agent state, rejects the promise of every pending entry
    with ["Session reset"], and records every request that was listed as
    completed with status [canceled] and that reason; completed requests of
    other call identifiers are kept. *)
Theorem X4_cursor_reset_cancels_every_request (now : N) (h : t) :
  (forall k e, (k, e) ∈ pendingRequests h -> promises h !! promise e = Some Pending) ->
  pendingRequests (reset now h) = []
  /\ agentRequests (reset now h) = ∅
  /\ (forall k e, JSMap.get k (pendingRequests h) = Some e ->
        promises (reset now h) !! promise e = Some (Rejected resetMessage))
  /\ (forall k r, agentRequests h !! k = Some r ->
        completedRequests (reset now h) !! k
        = Some {| request := r; completedAt := now; status := status_canceled;
                  completedDecision := None;
                  completedReason := Some resetMessage |})
  /\ (forall k, agentRequests h !! k = None ->
        completedRequests (reset now h) !! k = completedRequests h !! k).
Proof.
  intros Hwf.
  destruct (rejecting_fields (pendingRequests h) h) as (F1 & F2 & F3).
  unfold reset. fold (rejecting (pendingRequests h) h). simpl.
  rewrite F2, F3. repeat split.
  - intros k e Hget. apply cursor_get_Some_elem in Hget.
    apply rejecting_promises; [eapply Hwf, Hget|].
    apply (list_elem_of_fmap_2 (fun x => promise x.2) _ _ Hget).
  - intros k r Hk. rewrite lookup_union, lookup_fmap, Hk. simpl.
    destruct (completedRequests h !! k); reflexivity.
  - intros k Hk. rewrite lookup_union, lookup_fmap, Hk. simpl.
    destruct (completedRequests h !! k); reflexivity.
Qed.

Lemma X4_cursor_reset_cancels_every_request_witness :
  agentRequests (reset 9 Samples.cursorOnePending) = ∅
  /\ promises (reset 9 Samples.cursorOnePending) !! 0%nat
     = Some (Rejected (lit "Session reset"))
  /\ completedRequests (reset 9 Samples.cursorOnePending) !! lit "t1"
     = Some {| request := {| tool := lit "Bash"; arguments := Wire.emptyObject;
                             createdAt := 0 |};
               completedAt := 9; status := status_canceled;
               completedDecision := None;
               completedReason := Some (lit "Session reset") |}.
Proof.
  destruct (X4_cursor_reset_cancels_every_request 9 Samples.cursorOnePending)
    as (_ & H1 & H2 & H3 & _).
  - intros k e Hin. apply list_elem_of_singleton in Hin. injection Hin as -> ->.
    reflexivity.
  - split; [exact H1|]. split.
    + exact (H2 (lit "t1") _ eq_refl).
    + apply (H3 (lit "t1")). vm_compute. reflexivity.
Defined.

(** X5: whatever calls are made on a new Cursor permission handler, the
    pending table and the [requests] of the agent state list the same call
    identifiers. *)
Theorem X5_cursor_requests_mirror_the_pending_table (ops : list Op) (k : jsstr) :
  is_Some (JSMap.get k (pendingRequests (applyAll ops create)))
  <-> is_Some (agentRequests (applyAll ops create) !! k).
Proof.
  revert k.
  assert (H : forall h,
            (forall k, is_Some (JSMap.get k (pendingRequests h))
                       <-> is_Some (agentRequests h !! k)) ->
            forall k, is_Some (JSMap.get k (pendingRequests (applyAll ops h)))
                      <-> is_Some (agentRequests (applyAll ops h) !! k)).
  { induction ops as [|o ops IH]; intros h Hs; [exact Hs|].
    unfold applyAll in *. simpl. apply IH, apply_in_step, Hs. }
  apply H. intros k. simpl. rewrite lookup_empty. split; intros [? [=]].
Qed.

End CursorPermissionExtras.

(** ** [GeminiClient]: failures, identifiers and process exit *)

Module GeminiClientFacts.
Import Wire Host GeminiClient.

Lemma connect_fields c :
  process (if connected c then c else connect c) = process c
  /\ trace (if connected c then c else connect c) = trace c
  /\ sessionId (if connected c then c else connect c) = sessionId c
  /\ conversationId (if connected c then c else connect c) = conversationId c
  /\ stdoutReader (if connected c then c else connect c) = stdoutReader c.
Proof. destruct (connected c); simpl; auto. Qed.

(** The client after the first two steps of [startSession]. *)
Lemma prepared c :
  let c0 := killProcess (if connected c then c else connect c) in
  process c0 = None
  /\ trace c0 = trace c ++ match process c with
                          | Some pid => [killed pid]
                          | None => []
                          end
  /\ pidsSpawned (trace c0) = pidsSpawned (trace c)
  /\ sessionId c0 = sessionId c
  /\ conversationId c0 = conversationId c
  /\ stdoutReader c0 = stdoutReader c.
Proof.
  destruct (connect_fields c) as (P & T & S & C & R).
  destruct (ClientFacts.gemini_killProcess
              (if connected c then c else connect c)) as (K1 & K2 & K3 & K4 & K5).
  cbv zeta. rewrite K1, K3, K2, K4, K5, P, T, S, C.
  repeat split; try reflexivity.
  unfold killProcess. rewrite P.
  destruct (process c); simpl; exact R.
Qed.

(** [startSession] never touches the identifiers. *)
Lemma startSession_identifiers env config signal c :
  sessionId (startSession env config signal c).1 = sessionId c
  /\ conversationId (startSession env config signal c).1 = conversationId c.
Proof.
  destruct (prepared c) as (_ & _ & _ & S & C & _).
  unfold startSession.
  destruct (cliPath env); [|simpl; auto].
  destruct (spawnThrows env); simpl; auto.
Qed.

End GeminiClientFacts.

Section GeminiClientExtras.
Import Wire Host GeminiClient GeminiClientFacts.

(** X6: when the Gemini command-line tool is not found, or [spawn] throws,
    [startSession] throws an error named ["Error"] after it has sent SIGTERM
    to the process the client held: nothing is spawned and the client is
    left without a session, its identifiers unchanged. *)
Theorem X6_gemini_failed_start_leaves_no_session
    (env : Env) (config : SessionConfig) (signal : option Signal) (c : t) :
  cliPath env = None \/ is_Some (spawnThrows env) ->
  (exists e, (startSession env config signal c).2 = Threw e /\ name e = lit "Error")
  /\ hasActiveSession (startSession env config signal c).1 = false
  /\ trace (startSession env config signal c).1
     = trace c ++ match process c with
                  | Some pid => [killed pid]
                  | None => []
                  end
  /\ sessionId (startSession env config signal c).1 = sessionId c
  /\ conversationId (startSession env config signal c).1 = conversationId c.
Proof.
  intros Hfail.
  destruct (prepared c) as (P & T & _ & S & C & _).
  unfold startSession, hasActiveSession.
  destruct (cliPath env) as [path|].
  - destruct Hfail as [[=]|[cause Hc]]. rewrite Hc. simpl.
    rewrite P, T, S, C. repeat split; try reflexivity.
    eexists. split; reflexivity.
  - simpl. rewrite P, T, S, C. repeat split; try reflexivity.
    eexists. split; reflexivity.
Qed.

Lemma X6_gemini_failed_start_leaves_no_session_witness :
  hasActiveSession Samples.startedWithModel = true
  /\ hasActiveSession
       (continueSession Samples.missingCli (lit "next") None Samples.startedWithModel).1
     = false
  /\ trace (continueSession Samples.missingCli (lit "next") None
              Samples.startedWithModel).1
     = trace Samples.startedWithModel ++ [killed 0].
Proof.
  destruct (X6_gemini_failed_start_leaves_no_session Samples.missingCli
              {| prompt := Some (lit "next"); model := None;
                 cwd := Some (processCwd Samples.missingCli);
                 mcpServers := None; outputFormat := None |}
              None Samples.startedWithModel (or_introl eq_refl)) as (_ & H1 & H2 & _).
  split; [reflexivity|]. exact (conj H1 H2).
Defined.

(** X8: neither [startSession] nor [continueSession] changes the session and
    conversation identifiers, whatever their outcome; an identifier latched
    from an earlier process therefore stays through a continuation and
    through every event of the new process. *)
Theorem X8_gemini_identifiers_survive_a_continuation
    (env : Env) (prompt : jsstr) (signal : option Signal) (c : t)
    (msgs : list RawEvent) :
  truthy (sessionId c) = true ->
  sessionId (continueSession env prompt signal c).1 = sessionId c
  /\ conversationId (continueSession env prompt signal c).1 = conversationId c
  /\ sessionId (handleMessages msgs (continueSession env prompt signal c).1)
     = sessionId c.
Proof.
  intros Hlatched. unfold continueSession.
  destruct (startSession_identifiers env
              {| prompt := Some prompt; model := None; cwd := Some (processCwd env);
                 mcpServers := None; outputFormat := None |} signal c) as [S C].
  split; [exact S|]. split; [exact C|].
  destruct (ClientFacts.gemini_stream msgs
              (startSession env
                 {| prompt := Some prompt; model := None; cwd := Some (processCwd env);
                    mcpServers := None; outputFormat := None |} signal c).1) as [H _].
  rewrite H, S. unfold latch. rewrite Hlatched. reflexivity.
Qed.

Lemma X8_gemini_identifiers_survive_a_continuation_witness :
  sessionId
    (handleMessages [sessionIdEvent (lit "B")]
       (continueSession Samples.healthy (lit "next") None Samples.startedWithModel).1)
  = Some (lit "A").
Proof.
  destruct (X8_gemini_identifiers_survive_a_continuation Samples.healthy (lit "next")
              None Samples.startedWithModel [sessionIdEvent (lit "B")] eq_refl)
    as (_ & _ & H).
  exact H.
Defined.

(** X9: the ['exit'] listener does not look at which process exited.  When a
    continuation has replaced a running process and started reading the new
    one, the listener closes the reader of the new process and makes the
    client forget the new process. *)
Theorem X9_gemini_exit_listener_drops_the_current_process
    (env : Env) (prompt : jsstr) (signal : option Signal) (c : t)
    (old : nat) (geminiPath : jsstr) :
  process c = Some old ->
  cliPath env = Some geminiPath ->
  spawnThrows env = None ->
  prompt <> [] ->
  process (continueSession env prompt signal c).1 = Some (pidsSpawned (trace c))
  /\ stdoutReader (continueSession env prompt signal c).1
     = Some (pidsSpawned (trace c))
  /\ process (onExit (continueSession env prompt signal c).1) = None
  /\ stdoutReader (onExit (continueSession env prompt signal c).1) = None
  /\ trace (onExit (continueSession env prompt signal c).1)
     = trace (continueSession env prompt signal c).1
       ++ [readerClosed (pidsSpawned (trace c))].
Proof.
  intros Hold Hpath Hspawn Hne.
  destruct (prepared c) as (P & T & N & S & C & R).
  unfold continueSession, startSession. rewrite Hpath, Hspawn.
  destruct prompt as [|ch rest]; [congruence|].
  simpl. rewrite !andb_false_r. simpl. rewrite N.
  unfold onExit, closeReader. simpl. repeat split; reflexivity.
Qed.

Lemma X9_gemini_exit_listener_drops_the_current_process_witness :
  hasActiveSession
    (continueSession Samples.healthy (lit "next") None Samples.startedWithModel).1
  = true
  /\ hasActiveSession
       (onExit (continueSession Samples.healthy (lit "next") None
                  Samples.startedWithModel).1)
     = false
  /\ stdoutReader
       (onExit (continueSession Samples.healthy (lit "next") None
                  Samples.startedWithModel).1)
     = None.
Proof.
  destruct (X9_gemini_exit_listener_drops_the_current_process Samples.healthy
              (lit "next") None Samples.startedWithModel 0%nat
              (lit "/usr/local/bin/agent") eq_refl eq_refl eq_refl)
    as (_ & _ & H1 & H2 & _).
  - discriminate.
  - split; [reflexivity|]. split; [|exact H2].
    unfold hasActiveSession. rewrite H1. reflexivity.
Defined.

(** X10: a chunk of standard error of the Gemini process reaches the session
    exactly when its trimmed text is recognised by neither the filter of the
    client nor [isGeminiDebugOutput]; it is then sent once, trimmed, as an
    error body, and otherwise nothing is sent and nothing changes. *)
Theorem X10_gemini_stderr_reaches_the_session_iff_unrecognised
    (data : jsstr) (v : GeminiHandler.Vars) :
  Pipeline.geminiStderr data v
  = if negb (Noise.isDebugOutput (trim data))
       && negb (Noise.isGeminiDebugOutput (trim data))
    then
      ({| GeminiHandler.currentMessageContent := GeminiHandler.currentMessageContent v;
          GeminiHandler.isStreamingMessage := GeminiHandler.isStreamingMessage v;
          GeminiHandler.thinking := GeminiHandler.thinking v;
          GeminiHandler.uuids := S (GeminiHandler.uuids v) |},
       [sendAgentMessage (ErrorMessage (trim data) (uuid (GeminiHandler.uuids v)))])
    else (v, []).
Proof.
  unfold Pipeline.geminiStderr, onStderrData.
  destruct (trim data) as [|ch rest] eqn:Htrim.
  - change (negb (length (@nil N) =? 0)%nat) with false.
    change (Noise.isGeminiDebugOutput []) with true.
    change (negb true) with false. rewrite !andb_false_r. reflexivity.
  - change (negb (length (ch :: rest) =? 0)%nat) with true. rewrite andb_true_r.
    destruct (Noise.isDebugOutput (ch :: rest)); cbn [negb andb]; [reflexivity|].
    unfold GeminiHandler.handleAll, GeminiHandler.andThen, GeminiHandler.handler.
    change (GeminiHandler.kindOf (GeminiHandler.msgTypeOf (typedText (lit "error") (ch :: rest))))
      with GeminiHandler.KError.
    cbv beta iota.
    change (or_lit (or_else (ev_message (typedText (lit "error") (ch :: rest)))
                      (ev_error (typedText (lit "error") (ch :: rest)))) [])
      with (ch :: rest).
    change (negb (length (ch :: rest) =? 0)%nat) with true. rewrite andb_true_l.
    destruct (Noise.isGeminiDebugOutput (ch :: rest)); cbn [negb]; reflexivity.
Qed.

End GeminiClientExtras.

(** ** [CursorClient]: continuation and text output *)

Module CursorClientFacts.
Import Wire Host CursorClient.

Lemma pidsSpawned_kill c :
  process (killProcess (if connected c then c else connect c)) = None
  /\ trace (killProcess (if connected c then c else connect c))
     = trace c ++ match process c with
                  | Some (pid, _) => [killed pid]
                  | None => []
                  end
  /\ pidsSpawned (trace (killProcess (if connected c then c else connect c)))
     = pidsSpawned (trace c).
Proof.
  unfold killProcess.
  destruct (connected c); simpl; destruct (process c) as [[pid io]|] eqn:Hp; simpl;
    rewrite ?ClientFacts.pidsSpawned_app, ?app_nil_r; simpl; rewrite ?Nat.add_0_r; auto.
Qed.

Lemma kind_error text :
  CursorHandler.kindOf (CursorHandler.msgTypeOf (typedText (lit "error") text))
  = CursorHandler.KError.
Proof. vm_compute. reflexivity. Qed.

Lemma kind_thinking text :
  CursorHandler.kindOf (CursorHandler.msgTypeOf (typedText (lit "thinking") text))
  = CursorHandler.KThinking.
Proof. vm_compute. reflexivity. Qed.

Lemma kind_message text :
  CursorHandler.kindOf (CursorHandler.msgTypeOf (typedText (lit "message") text))
  = CursorHandler.KMessage.
Proof. vm_compute. reflexivity. Qed.

Lemma trim_nonempty (line : jsstr) : trim line <> [] -> line <> [].
Proof. intros H ->. apply H. reflexivity. Qed.

End CursorClientFacts.

Section CursorClientExtras.
Import Wire Host CursorClient CursorClientFacts.

(** X11: when the Cursor client holds a process with piped standard input and
    the write succeeds, [continueSession] writes the prompt followed by a
    line feed to that process and does nothing else: no process is killed or
    spawned, and the client state is otherwise unchanged. *)
Theorem X11_cursor_continuation_writes_to_the_running_process
    (env : Env) (prompt : jsstr) (signal : option Signal) (c : t) (pid : nat) :
  process c = Some (pid, pipe) ->
  stdinWriteThrows env = None ->
  (continueSession env prompt signal c).2 = Returned
  /\ trace (continueSession env prompt signal c).1
     = trace c ++ [stdinWritten pid (prompt ++ lit_newline)]
  /\ promptsDelivered (trace (continueSession env prompt signal c).1)
     = promptsDelivered (trace c) ++ [prompt ++ lit_newline]
  /\ process (continueSession env prompt signal c).1 = process c
  /\ stdoutReader (continueSession env prompt signal c).1 = stdoutReader c
  /\ currentAbortSignal (continueSession env prompt signal c).1 = currentAbortSignal c.
Proof.
  intros Hp Hw. unfold continueSession. rewrite Hp, Hw. simpl.
  rewrite LoopFacts.promptsDelivered_app. repeat split; reflexivity.
Qed.

(** X12: when the Cursor client holds no process with piped standard input,
    or the write to it throws, [continueSession] falls back to a new
    invocation: with the tool found and started, the held process is sent
    SIGTERM and a new process is spawned with no output format, model or MCP
    configuration.  A prompt that is not empty is its only argument pair
    [-p prompt], on piped stdio; with the empty prompt the process gets no
    argument at all, and inherits the stdio when standard input and output
    are terminals. *)
Theorem X12_cursor_continuation_falls_back_to_a_new_process
    (env : Env) (prompt : jsstr) (signal : option Signal) (c : t)
    (cursorPath : jsstr) :
  match process c with
  | Some (_, pipe) => is_Some (stdinWriteThrows env)
  | _ => True
  end ->
  cliPath env = Some cursorPath ->
  spawnThrows env = None ->
  (continueSession env prompt signal c).2 = Returned
  /\ trace (continueSession env prompt signal c).1
     = trace c
       ++ match process c with
          | Some (old, _) => [killed old]
          | None => []
          end
       ++ [spawned (pidsSpawned (trace c))
             {| sp_path := cursorPath;
                sp_args := match prompt with
                           | [] => []
                           | _ => [arg (lit "-p"); arg prompt]
                           end;
                sp_cwd := processCwd env;
                sp_stdio := match prompt with
                            | [] => if stdinIsTTY env && stdoutIsTTY env
                                    then inherit else pipe
                            | _ => pipe
                            end;
                sp_signal := signal;
                sp_shell := isWin32 env && negb (isFullPath cursorPath) |}]
  /\ process (continueSession env prompt signal c).1
     = Some (pidsSpawned (trace c),
             match prompt with
             | [] => if stdinIsTTY env && stdoutIsTTY env then inherit else pipe
             | _ => pipe
             end).
Proof.
  intros Hfall Hpath Hspawn.
  assert (Hstart :
    continueSession env prompt signal c
    = startSession env
        {| prompt := Some prompt; model := None; cwd := Some (processCwd env);
           mcpServers := None; outputFormat := None |} signal c).
  { unfold continueSession. destruct (process c) as [[old [|]]|]; try reflexivity.
    destruct Hfall as [err Herr]. rewrite Herr. reflexivity. }
  rewrite Hstart. unfold startSession. rewrite Hpath, Hspawn.
  destruct (pidsSpawned_kill c) as (K1 & K2 & K3).
  assert (Hcwd : or_lit (Some (processCwd env)) (processCwd env) = processCwd env).
  { destruct (processCwd env); reflexivity. }
  destruct prompt as [|ch rest].
  - simpl. rewrite !andb_true_r. simpl. rewrite Hcwd, K3, K2.
    rewrite <- app_assoc.
    destruct (stdinIsTTY env && stdoutIsTTY env); repeat split; reflexivity.
  - simpl. rewrite !andb_false_r. simpl. rewrite Hcwd, K3, K2.
    rewrite <- app_assoc. repeat split; reflexivity.
Qed.

Lemma X11_cursor_continuation_writes_to_the_running_process_witness :
  trace (continueSession Samples.healthy (lit "next") None Samples.cursorStarted).1
  = trace Samples.cursorStarted ++ [stdinWritten 0 (lit "next" ++ lit_newline)].
Proof.
  destruct (X11_cursor_continuation_writes_to_the_running_process Samples.healthy
              (lit "next") None Samples.cursorStarted 0%nat eq_refl eq_refl)
    as (_ & H & _).
  exact H.
Defined.

Lemma X12_cursor_continuation_falls_back_to_a_new_process_witness :
  trace (continueSession Samples.healthy (lit "next") None create).1
  = [spawned 0
       {| sp_path := lit "/usr/local/bin/agent";
          sp_args := [arg (lit "-p"); arg (lit "next")];
          sp_cwd := lit "/work"; sp_stdio := pipe; sp_signal := None;
          sp_shell := false |}]
  /\ trace (continueSession Samples.terminal [] None create).1
     = [spawned 0
          {| sp_path := lit "/usr/local/bin/agent";
             sp_args := [];
             sp_cwd := lit "/work"; sp_stdio := inherit; sp_signal := None;
             sp_shell := false |}].
Proof.
  destruct (X12_cursor_continuation_falls_back_to_a_new_process Samples.healthy
              (lit "next") None create (lit "/usr/local/bin/agent") I eq_refl eq_refl)
    as (_ & H & _).
  destruct (X12_cursor_continuation_falls_back_to_a_new_process Samples.terminal
              [] None create (lit "/usr/local/bin/agent") I eq_refl eq_refl)
    as (_ & H' & _).
  split; [exact H | exact H'].
Defined.

(** X13: a line of standard output of cursor-agent that is not JSON makes no
    event when it is blank; otherwise it reaches the session verbatim, in
    exactly one body, which is a message, an error or a thinking body, and an
    error body exactly when the line starts with ["Error:"] or ["error:"].
    The client state is unchanged. *)
Theorem X13_cursor_text_line_reaches_the_session_once
    (line : jsstr) (c : t) (v : CursorHandler.Vars) :
  (Pipeline.cursorStdout line notJson c v).1 = c
  /\ match trim line with
     | [] => (Pipeline.cursorStdout line notJson c v).2 = (v, [])
     | _ =>
         exists body,
           agentMessagesOf (Pipeline.cursorStdout line notJson c v).2.2 = [body]
           /\ body ∈ textBodies line (uuid (CursorHandler.uuids v))
           /\ (body = ErrorMessage line (uuid (CursorHandler.uuids v))
               <-> startsWith line (lit "Error:") || startsWith line (lit "error:")
                   = true)
     end.
Proof.
  unfold Pipeline.cursorStdout, processOutputLine, textEvent, textBodies.
  destruct (trim line) as [|ch rest] eqn:Htrim; [split; reflexivity|].
  assert (Hline : line <> []) by (apply trim_nonempty; rewrite Htrim; discriminate).
  destruct line as [|l0 line']; [congruence|].
  split.
  - destruct (_ || _); [reflexivity|]. destruct (_ || _); reflexivity.
  - destruct (startsWith (l0 :: line') (lit "Error:")
              || startsWith (l0 :: line') (lit "error:")) eqn:Herr.
    + exists (ErrorMessage (l0 :: line') (uuid (CursorHandler.uuids v))).
      unfold CursorHandler.handleAll, CursorHandler.andThen, CursorHandler.handler.
      rewrite kind_error. cbn [snd fst]. split; [reflexivity|]. split.
      * apply list_elem_of_further, list_elem_of_here.
      * split; reflexivity.
    + destruct (startsWith (l0 :: line') (lit "Thinking...")
                || includes (l0 :: line') (lit "[thinking]")).
      * exists (Thinking (l0 :: line') (uuid (CursorHandler.uuids v))).
        unfold CursorHandler.handleAll, CursorHandler.andThen, CursorHandler.handler.
        rewrite kind_thinking. cbn [snd fst].
        split; [unfold CursorHandler.andThen; cbv beta;
                destruct (CursorHandler.thinking v); reflexivity|]. split.
        -- do 2 apply list_elem_of_further. apply list_elem_of_here.
        -- split; discriminate.
      * exists (Message (l0 :: line') (uuid (CursorHandler.uuids v))).
        unfold CursorHandler.handleAll, CursorHandler.andThen, CursorHandler.handler.
        rewrite kind_message. cbn [snd fst]. split; [reflexivity|]. split.
        -- apply list_elem_of_here.
        -- split; discriminate.
Qed.

End CursorClientExtras.

(** ** The handler of [runGemini] over event streams *)

Arguments JS.or_else : simpl never.
Arguments JS.truthy : simpl never.
Arguments Wire.callIdOf : simpl never.
Arguments Wire.firstPresent : simpl never.
Arguments GeminiHandler.msgTypeOf : simpl never.
Arguments GeminiHandler.isErrorStatus : simpl never.

Module GeminiStreamFacts.
Import Wire GeminiHandler.

Lemma concat_messageOf text : concat (messageOf text) = text.
Proof. destruct text; simpl; rewrite ?app_nil_r; reflexivity. Qed.

Lemma toolCallsOf_app a b : toolCallsOf (a ++ b) = toolCallsOf a ++ toolCallsOf b.
Proof. unfold toolCallsOf. apply omap_app. Qed.

Lemma toolResultsOf_app a b : toolResultsOf (a ++ b) = toolResultsOf a ++ toolResultsOf b.
Proof. unfold toolResultsOf. apply omap_app. Qed.

Lemma lastKeepAlive_app a b d :
  lastKeepAlive (a ++ b) d = lastKeepAlive b (lastKeepAlive a d).
Proof. unfold lastKeepAlive. apply foldl_app. Qed.

Ltac open_handler :=
  unfold handler, andThen, flushAccumulatedMessage, sendWithCallId, send,
    setThinking, resetStreaming, skip, call, calls.

Ltac name_call_ids :=
  repeat match goal with
         | |- context [callIdOf ?c ?n] => destruct (callIdOf c n)
         end.

(** One event: the text sent and the text buffered. *)
Lemma step_text msg v :
  known msg ->
  buffered v ->
  concat (messagesOf (handler msg v).2) ++ currentMessageContent (handler msg v).1
  = currentMessageContent v ++ textOf msg
  /\ buffered (handler msg v).1.
Proof.
  unfold known, buffered, textOf, messageTextOf. intros Hknown Hb.
  destruct v as [content streaming th n]. simpl in Hb.
  assert (Hc : streaming = true \/ (streaming = false /\ content = [])).
  { destruct streaming; [left; reflexivity | right; auto]. }
  clear Hb. open_handler.
  destruct (kindOf (msgTypeOf msg)).
  - destruct (ev_delta msg); simpl; [split; [reflexivity | intros [=]]|].
    set (text := or_lit _ []).
    destruct Hc as [->|[-> ->]].
    + destruct (content ++ text) eqn:E; simpl; rewrite ?app_nil_r; split; auto.
    + destruct text; simpl; rewrite ?app_nil_r; split; auto.
  - destruct Hc as [->|[-> ->]]; [destruct content|]; simpl; name_call_ids; simpl;
      rewrite ?app_nil_r; split; auto; intros; congruence.
  - destruct Hc as [->|[-> ->]]; [destruct content|]; simpl; name_call_ids; simpl;
      rewrite ?app_nil_r; split; auto; intros; congruence.
  - simpl; name_call_ids; simpl; rewrite ?app_nil_r; split; auto.
    intros Hs. destruct Hc as [->|[_ ->]]; [discriminate | reflexivity].
  - simpl; name_call_ids; simpl; rewrite ?app_nil_r; split; auto.
    intros Hs. destruct Hc as [->|[_ ->]]; [discriminate | reflexivity].
  - destruct th; destruct (truthy _); simpl; rewrite ?app_nil_r; split; auto;
      intros Hs; destruct Hc as [->|[_ ->]]; discriminate || reflexivity.
  - destruct (_ && _); simpl; rewrite ?app_nil_r; split; auto;
      intros Hs; destruct Hc as [->|[_ ->]]; discriminate || reflexivity.
  - simpl; rewrite ?app_nil_r; split; auto.
    intros Hs. destruct Hc as [->|[_ ->]]; [discriminate | reflexivity].
  - destruct Hc as [->|[-> ->]]; [destruct content|]; simpl;
      rewrite ?app_nil_r; split; auto; intros; congruence.
  - destruct (ev_stats msg) as [[i o]|];
      (destruct Hc as [->|[-> ->]]; [destruct content|]); simpl;
      rewrite ?app_nil_r; split; auto; intros; congruence.
  - simpl; rewrite ?app_nil_r; split; auto.
    intros Hs. destruct Hc as [->|[_ ->]]; [discriminate | reflexivity].
  - congruence.
Qed.

Lemma stream_text msgs v :
  Forall known msgs ->
  buffered v ->
  concat (messagesOf (handleAll msgs v).2) ++ currentMessageContent (handleAll msgs v).1
  = currentMessageContent v ++ concat (textOf <$> msgs)
  /\ buffered (handleAll msgs v).1.
Proof.
  revert v. induction msgs as [|msg msgs IH]; intros v Hk Hb.
  - simpl. rewrite app_nil_r. split; [reflexivity | exact Hb].
  - apply Forall_cons in Hk as [Hmsg Hk].
    destruct (step_text msg v Hmsg Hb) as [Hstep Hb'].
    destruct (IH (handler msg v).1 Hk Hb') as [Hrest Hb''].
    change (handleAll (msg :: msgs)) with (andThen (handler msg) (handleAll msgs)).
    rewrite GeminiHandlerFacts.andThen_fst, GeminiHandlerFacts.andThen_snd,
      GeminiHandlerFacts.messagesOf_app, concat_app, fmap_cons.
    split; [|exact Hb''].
    change (concat (textOf msg :: (textOf <$> msgs)))
      with (textOf msg ++ concat (textOf <$> msgs)).
    rewrite <- app_assoc, Hrest, !app_assoc, Hstep. reflexivity.
Qed.


(** One event: the tool bodies sent and the activity flag. *)
Lemma step_tools msg v :
  length (toolCallsOf (handler msg v).2) = (if isToolCall msg then 1 else 0)%nat
  /\ length (toolResultsOf (handler msg v).2) = (if isToolResult msg then 1 else 0)%nat
  /\ thinking (handler msg v).1 = lastKeepAlive (handler msg v).2 (thinking v).
Proof.
  unfold isToolCall, isToolResult. destruct v as [content streaming th n].
  open_handler.
  destruct (kindOf (msgTypeOf msg)).
  - destruct (ev_delta msg); simpl; [repeat split; reflexivity|].
    destruct streaming; [destruct (content ++ _)|destruct (or_lit _ _)]; simpl;
      repeat split; reflexivity.
  - destruct streaming; [destruct content|]; simpl; name_call_ids; simpl;
      repeat split; reflexivity.
  - destruct streaming; [destruct content|]; simpl; name_call_ids; simpl;
      repeat split; reflexivity.
  - simpl; name_call_ids; simpl; repeat split; reflexivity.
  - simpl; name_call_ids; simpl; repeat split; reflexivity.
  - destruct th; destruct (truthy _); simpl; repeat split; reflexivity.
  - destruct (_ && _); simpl; repeat split; reflexivity.
  - simpl; repeat split; reflexivity.
  - destruct streaming; [destruct content|]; simpl; repeat split; reflexivity.
  - destruct (ev_stats msg) as [[i o]|];
      (destruct streaming; [destruct content|]); simpl; repeat split; reflexivity.
  - simpl; repeat split; reflexivity.
  - destruct (or_else _ _) as [[|c s]|];
      [| destruct (Noise.isGeminiDebugOutput (c :: s)) |];
      cbn [negb]; repeat split; reflexivity.
Qed.

Lemma stream_tools msgs v :
  length (toolCallsOf (handleAll msgs v).2) = length (filter (fun m => isToolCall m = true) msgs)
  /\ length (toolResultsOf (handleAll msgs v).2)
     = length (filter (fun m => isToolResult m = true) msgs)
  /\ thinking (handleAll msgs v).1 = lastKeepAlive (handleAll msgs v).2 (thinking v).
Proof.
  revert v. induction msgs as [|msg msgs IH]; intros v; [simpl; auto|].
  destruct (step_tools msg v) as (S1 & S2 & S3).
  destruct (IH (handler msg v).1) as (I1 & I2 & I3).
  change (handleAll (msg :: msgs)) with (andThen (handler msg) (handleAll msgs)).
  rewrite GeminiHandlerFacts.andThen_fst, GeminiHandlerFacts.andThen_snd,
    toolCallsOf_app, toolResultsOf_app, lastKeepAlive_app, !length_app,
    !filter_cons, S1, S2, I1, I2, I3, S3.
  repeat split.
  - destruct (isToolCall msg) eqn:E.
    + rewrite decide_True by reflexivity. reflexivity.
    + rewrite decide_False by discriminate. reflexivity.
  - destruct (isToolResult msg) eqn:E.
    + rewrite decide_True by reflexivity. reflexivity.
    + rewrite decide_False by discriminate. reflexivity.
Qed.

(** The tool events by the [case] labels of the handler. *)
Ltac by_label ty :=
  repeat match goal with
         | |- context [bool_decide (ty = ?l)] =>
             destruct (decide (ty = l)) as [->|?];
             [vm_compute; reflexivity
             | rewrite (bool_decide_eq_false_2 (ty = l)) by assumption]
         end;
  simpl; symmetry; apply bool_decide_eq_false_2; intros Hin;
  repeat (apply elem_of_cons in Hin as [->|Hin]; [congruence|]);
  apply elem_of_nil in Hin; contradiction.

Lemma tool_labels msg :
  isToolCall msg
  = bool_decide (msgTypeOf msg ∈ [lit "tool_use"; lit "tool_call"; lit "function_call"])
  /\ isToolResult msg
     = bool_decide (msgTypeOf msg ∈ [lit "tool_result"; lit "function_result"]).
Proof.
  unfold isToolCall, isToolResult, kindOf, isLit, str_eqb.
  generalize (msgTypeOf msg). intros ty. split; by_label ty.
Qed.

End GeminiStreamFacts.

Section GeminiHandlerExtras.
Import Wire GeminiHandler GeminiStreamFacts.

(** X14: over a stream of events of known types, the handler of [runGemini]
    neither loses, repeats nor reorders streamed text: the texts of the
    messages sent, followed by what the buffer still holds, are the texts of
    the message events in their order. *)
Theorem X14_gemini_streamed_text_is_conserved (msgs : list RawEvent) :
  Forall known msgs ->
  concat (messagesOf (handleAll msgs initialVars).2)
  ++ currentMessageContent (handleAll msgs initialVars).1
  = concat (textOf <$> msgs).
Proof.
  intros Hk.
  destruct (stream_text msgs initialVars Hk GeminiHandlerFacts.buffered_initial) as [H _].
  exact H.
Qed.

Lemma X14_gemini_streamed_text_is_conserved_witness :
  concat (messagesOf
            (handleAll (Samples.helloDeltas ++ [typedText (lit "error") (lit "boom");
                                                messageEvent (lit "!") true])
               initialVars).2)
  ++ currentMessageContent
       (handleAll (Samples.helloDeltas ++ [typedText (lit "error") (lit "boom");
                                           messageEvent (lit "!") true])
          initialVars).1
  = lit "Hello!".
Proof.
  apply (X14_gemini_streamed_text_is_conserved
           (Samples.helloDeltas ++ [typedText (lit "error") (lit "boom");
                                    messageEvent (lit "!") true])).
  repeat constructor; vm_compute; discriminate.
Defined.

(** X15: over any stream of events and from any state, the handler of
    [runGemini] sends exactly one tool-call body for every event of type
    [tool_use], [tool_call] or [function_call], and exactly one tool-result
    body for every event of type [tool_result] or [function_result]; the
    type of an event is [msg.type || msg.event || 'unknown']. *)
Theorem X15_gemini_tool_events_are_sent_one_for_one (msgs : list RawEvent) (v : Vars) :
  length (toolCallsOf (handleAll msgs v).2)
  = length (filter (fun m => isToolCall m = true) msgs)
  /\ length (toolResultsOf (handleAll msgs v).2)
     = length (filter (fun m => isToolResult m = true) msgs)
  /\ (forall msg,
        isToolCall msg
        = bool_decide (msgTypeOf msg
                       ∈ [lit "tool_use"; lit "tool_call"; lit "function_call"]))
  /\ (forall msg,
        isToolResult msg
        = bool_decide (msgTypeOf msg ∈ [lit "tool_result"; lit "function_result"])).
Proof.
  destruct (stream_tools msgs v) as (H1 & H2 & _).
  split; [assumption|]. split; [assumption|].
  split; intros msg; apply (tool_labels msg).
Qed.

(** X16: over any stream of events and from any state, the activity flag
    [thinking] of [runGemini] is the one the session was last told through
    [keepAlive], or its value before the stream when the session was told
    nothing. *)
Theorem X16_gemini_session_knows_the_thinking_flag (msgs : list RawEvent) (v : Vars) :
  thinking (handleAll msgs v).1 = lastKeepAlive (handleAll msgs v).2 (thinking v).
Proof.
  destruct (stream_tools msgs v) as (_ & _ & H). exact H.
Qed.

End GeminiHandlerExtras.

(** ** The handler of [runCursor] over a stream of events *)

Arguments CursorHandler.msgTypeOf : simpl never.

Module CursorStreamFacts.
Import Wire CursorHandler.

Lemma cursor_andThen_fst (f g : Act) v : (andThen f g v).1 = (g (f v).1).1.
Proof. unfold andThen. destruct (f v) as [v1 o1]. simpl. destruct (g v1). reflexivity. Qed.

Lemma cursor_andThen_snd (f g : Act) v : (andThen f g v).2 = (f v).2 ++ (g (f v).1).2.
Proof. unfold andThen. destruct (f v) as [v1 o1]. simpl. destruct (g v1). reflexivity. Qed.

(** One event: the tool bodies sent and the activity flag. *)
Lemma cursor_step_tools msg v :
  length (toolCallsOf (handler msg v).2) = (if isToolCall msg then 1 else 0)%nat
  /\ length (toolResultsOf (handler msg v).2) = (if isToolResult msg then 1 else 0)%nat
  /\ thinking (handler msg v).1 = lastKeepAlive (handler msg v).2 (thinking v).
Proof.
  unfold isToolCall, isToolResult. destruct v as [th n].
  unfold handler, andThen, sendWithCallId, send, setThinking, skip, calls.
  destruct (kindOf (msgTypeOf msg)).
  - simpl; repeat split; reflexivity.
  - simpl; repeat split; reflexivity.
  - simpl; destruct (callIdOf _ _); simpl; repeat split; reflexivity.
  - simpl; destruct (callIdOf _ _); simpl; repeat split; reflexivity.
  - destruct th; destruct (truthy _); simpl; repeat split; reflexivity.
  - simpl; repeat split; reflexivity.
  - simpl; repeat split; reflexivity.
  - simpl; repeat split; reflexivity.
  - destruct (or_else _ _) as [[|c s]|]; simpl; repeat split; reflexivity.
Qed.

Lemma cursor_stream_tools msgs v :
  length (toolCallsOf (handleAll msgs v).2) = length (filter (fun m => isToolCall m = true) msgs)
  /\ length (toolResultsOf (handleAll msgs v).2)
     = length (filter (fun m => isToolResult m = true) msgs)
  /\ thinking (handleAll msgs v).1 = lastKeepAlive (handleAll msgs v).2 (thinking v).
Proof.
  revert v. induction msgs as [|msg msgs IH]; intros v; [simpl; auto|].
  destruct (cursor_step_tools msg v) as (S1 & S2 & S3).
  destruct (IH (handler msg v).1) as (I1 & I2 & I3).
  change (handleAll (msg :: msgs)) with (andThen (handler msg) (handleAll msgs)).
  rewrite cursor_andThen_fst, cursor_andThen_snd, GeminiStreamFacts.toolCallsOf_app,
    GeminiStreamFacts.toolResultsOf_app, GeminiStreamFacts.lastKeepAlive_app,
    !length_app, !filter_cons, S1, S2, I1, I2, I3, S3.
  repeat split.
  - destruct (isToolCall msg) eqn:E.
    + rewrite decide_True by reflexivity. reflexivity.
    + rewrite decide_False by discriminate. reflexivity.
  - destruct (isToolResult msg) eqn:E.
    + rewrite decide_True by reflexivity. reflexivity.
    + rewrite decide_False by discriminate. reflexivity.
Qed.

Lemma cursor_tool_labels msg :
  isToolCall msg
  = bool_decide (msgTypeOf msg ∈ [lit "tool_call"; lit "function_call"])
  /\ isToolResult msg
     = bool_decide (msgTypeOf msg ∈ [lit "tool_result"; lit "function_result"]).
Proof.
  unfold isToolCall, isToolResult, kindOf, isLit, str_eqb.
  generalize (msgTypeOf msg). intros ty. split; GeminiStreamFacts.by_label ty.
Qed.

End CursorStreamFacts.

Section CursorHandlerExtras.
Import Wire CursorHandler CursorStreamFacts.

(** X17: over any stream of events and from any state, the handler of
    [runCursor] sends exactly one tool-call body for every event of type
    [tool_call] or [function_call] and exactly one tool-result body for every
    event of type [tool_result] or [function_result], and its activity flag
    [thinking] is the one the session was last told through [keepAlive], or
    its value before the stream when the session was told nothing; the type
    of an event is [msg.type || msg.event || 'unknown']. *)
Theorem X17_cursor_tool_events_and_thinking_flag (msgs : list RawEvent) (v : Vars) :
  length (toolCallsOf (handleAll msgs v).2)
  = length (filter (fun m => isToolCall m = true) msgs)
  /\ length (toolResultsOf (handleAll msgs v).2)
     = length (filter (fun m => isToolResult m = true) msgs)
  /\ thinking (handleAll msgs v).1 = lastKeepAlive (handleAll msgs v).2 (thinking v)
  /\ (forall msg,
        isToolCall msg
        = bool_decide (msgTypeOf msg ∈ [lit "tool_call"; lit "function_call"]))
  /\ (forall msg,
        isToolResult msg
        = bool_decide (msgTypeOf msg ∈ [lit "tool_result"; lit "function_result"])).
Proof.
  destruct (cursor_stream_tools msgs v) as (H1 & H2 & H3).
  do 3 (split; [assumption|]).
  split; intros msg; apply (cursor_tool_labels msg).
Qed.

End CursorHandlerExtras.

(** ** The loop of [runGemini] and [runCursor], pass by pass *)

Section LoopExtras.
Import Wire Host MessageQueue Loop Samples.

(** X18: however a pass that drained a batch ends (a restart on a mode
    change, a call that returned, an abort, any other error), it leaves the
    permission handler reset and the activity flag off, and the last call it
    made on the session is [keepAlive(false)]; the abort signal is the one it
    started with.  The loop is the one of [runGemini] and of [runCursor]. *)
Theorem X18_every_pass_ends_with_permissions_reset_and_thinking_off
    (separator titleInstruction : jsstr) (A : Adapter) (env : Env) (s s' : State A) :
  pass separator titleInstruction A env s = again s' ->
  permissionHandler s' = resetPermissions A env (permissionHandler s)
  /\ handlerVars s' = stopThinking A (handlerVars s)
  /\ abortSignal s' = abortSignal s
  /\ exists made, sent s' = sent s ++ made ++ [keepAlive false].
Proof.
  unfold pass. destruct (drainNextBatch separator (messageQueue s)) as [[batch rest]|];
    [|discriminate].
  destruct (modeChanged A batch _).
  - intros [= <-]. simpl. repeat split. exists []. reflexivity.
  - intros [= <-]. unfold turn.
    destruct (attempt _ _ _ _ _) as [c [|e]].
    + simpl. destruct (wasCreated s); simpl.
      * repeat split. exists []. reflexivity.
      * unfold awaitExit. destruct (_ && _); simpl.
        -- split; [reflexivity|]. split; [apply processExit_thinking|].
           split; [reflexivity|]. eexists. rewrite <- app_assoc. reflexivity.
        -- repeat split. exists []. reflexivity.
    + unfold catch. destruct (isAbortError e); simpl; repeat split;
        eexists [_]; rewrite <- app_assoc; reflexivity.
Qed.

Lemma X18_every_pass_ends_with_permissions_reset_and_thinking_off_witness :
  permissionHandler (stateOf (pass lit_newline titleText cursor healthy cursorTwoModes))
  = CursorPermission.reset 1000 (permissionHandler cursorTwoModes)
  /\ handlerVars (stateOf (pass lit_newline titleText cursor healthy cursorTwoModes))
     = stopThinking cursor (handlerVars cursorTwoModes)
  /\ abortSignal (stateOf (pass lit_newline titleText cursor healthy cursorTwoModes))
     = abortSignal cursorTwoModes
  /\ exists made,
       sent (stateOf (pass lit_newline titleText cursor healthy cursorTwoModes))
       = sent cursorTwoModes ++ made ++ [keepAlive false].
Proof.
  apply (X18_every_pass_ends_with_permissions_reset_and_thinking_off
           lit_newline titleText cursor healthy cursorTwoModes
           (stateOf (pass lit_newline titleText cursor healthy cursorTwoModes))).
  vm_compute. reflexivity.
Defined.

(** X7: every error [startSession] and [continueSession] of [GeminiClient]
    raise is a plain [Error], never an [AbortError]: a turn of the loop of
    [runGemini] whose call fails tells the session
    ["Process exited unexpectedly"] and then [keepAlive(false)], and keeps the
    session-created flag and the fingerprint; it never takes the
    ["Aborted by user"] branch. *)
Theorem X7_gemini_failures_are_never_reported_as_aborts
    (titleInstruction : jsstr) (env : Env) (batch : Batch) (s : State gemini)
    (c : GeminiClient.t) (e : Error) :
  attempt titleInstruction gemini env batch s = (c, Threw e) ->
  isAbortError e = false
  /\ sent (turn titleInstruction gemini env batch s)
     = sent s ++ [sendSessionEvent (notice (lit "Process exited unexpectedly"));
                  keepAlive false]
  /\ wasCreated (turn titleInstruction gemini env batch s) = wasCreated s
  /\ currentModeHash (turn titleInstruction gemini env batch s) = currentModeHash s.
Proof.
  intros Ha.
  assert (He : isAbortError e = false).
  { revert Ha. unfold attempt. destruct (wasCreated s);
      unfold continueSession, startSession, gemini;
      unfold GeminiClient.continueSession, GeminiClient.startSession;
      destruct (cliPath env) as [path|], (spawnThrows env) as [cause|]; cbv zeta;
      intros [= _ <-]; reflexivity. }
  split; [exact He|].
  unfold turn. rewrite Ha. unfold catch. rewrite He. simpl.
  rewrite <- app_assoc. repeat split.
Qed.

Lemma X7_gemini_failures_are_never_reported_as_aborts_witness :
  isAbortError GeminiClient.notFound = false
  /\ sent (turn titleText gemini missingCli
             {| message := lit "a"; batchMode := modeA; hash := lit "hashA" |}
             geminiTwoModes)
     = sent geminiTwoModes
       ++ [sendSessionEvent (notice (lit "Process exited unexpectedly"));
           keepAlive false]
  /\ wasCreated (turn titleText gemini missingCli
                   {| message := lit "a"; batchMode := modeA; hash := lit "hashA" |}
                   geminiTwoModes)
     = wasCreated geminiTwoModes
  /\ currentModeHash (turn titleText gemini missingCli
                        {| message := lit "a"; batchMode := modeA; hash := lit "hashA" |}
                        geminiTwoModes)
     = currentModeHash geminiTwoModes.
Proof.
  apply (X7_gemini_failures_are_never_reported_as_aborts titleText missingCli
           {| message := lit "a"; batchMode := modeA; hash := lit "hashA" |}
           geminiTwoModes (GeminiClient.connect GeminiClient.create)
           GeminiClient.notFound).
  reflexivity.
Defined.

End LoopExtras.

(** ** [session.onUserMessage]: the overrides kept between messages *)

Module UserMessagesFacts.
Import MessageQueue UserMessages.

Lemma validMode_nonempty s p : validMode s = Some p -> truthy (Some s) = true.
Proof. destruct s; [vm_compute; discriminate | reflexivity]. Qed.

(** The mode queued is the one the overrides hold after the message. *)
Lemma resolve_mode message o :
  permissionMode (resolve message o).2
  = default mode_default (currentPermissionMode (resolve message o).1)
  /\ model (resolve message o).2 = currentModel (resolve message o).1.
Proof.
  unfold resolve.
  destruct (truthy _); [destruct (_ ≫= validMode)|];
    destruct (meta message ≫= metaModel); split; reflexivity.
Qed.

Lemma resolve_valid message o p :
  requestedMode message = Some p ->
  currentPermissionMode (resolve message o).1 = Some p.
Proof.
  unfold requestedMode, resolve. intros H.
  destruct (meta message ≫= metaPermissionMode) as [s|]; [|discriminate].
  simpl in H. rewrite (validMode_nonempty s p H). simpl. rewrite H.
  destruct (meta message ≫= metaModel); reflexivity.
Qed.

Lemma resolve_no_mode message o :
  requestedMode message = None ->
  currentPermissionMode (resolve message o).1 = currentPermissionMode o.
Proof.
  unfold requestedMode, resolve. intros H.
  destruct (truthy _); [rewrite H|]; destruct (meta message ≫= metaModel); reflexivity.
Qed.

Lemma resolve_model message o v :
  requestedModel message = Some v ->
  currentModel (resolve message o).1 = v.
Proof.
  unfold requestedModel, resolve. intros H.
  destruct (meta message ≫= metaModel) as [value|]; [|discriminate].
  injection H as <-.
  destruct (truthy (meta message ≫= metaPermissionMode));
    [destruct (_ ≫= validMode)|]; reflexivity.
Qed.

Lemma resolve_no_model message o :
  meta message ≫= metaModel = None ->
  currentModel (resolve message o).1 = currentModel o.
Proof.
  unfold resolve. intros ->.
  destruct (truthy _); [destruct (_ ≫= validMode)|]; reflexivity.
Qed.

Section Received.
Variable hashObject : EnhancedMode -> jsstr.

Lemma onUserMessage_eq message o q :
  onUserMessage hashObject message (o, q)
  = ((resolve message o).1,
     q ++ [{| text := contentText message; mode := (resolve message o).2;
              modeHash := hashObject (resolve message o).2; isolate := false |}]).
Proof. unfold onUserMessage, push. simpl. destruct (resolve message o). reflexivity. Qed.

Lemma onUserMessages_app a b st :
  onUserMessages hashObject (a ++ b) st
  = onUserMessages hashObject b (onUserMessages hashObject a st).
Proof. unfold onUserMessages. apply foldl_app. Qed.

(** Every message received is queued, after those already there, with its
    text and with the fingerprint of its mode. *)
Lemma queued messages o q :
  exists added,
    (onUserMessages hashObject messages (o, q)).2 = q ++ added
    /\ text <$> added = contentText <$> messages
    /\ Forall (fun item => modeHash item = hashObject (mode item)) added.
Proof.
  revert o q. induction messages as [|m messages IH]; intros o q.
  - exists []. simpl. rewrite app_nil_r. auto.
  - unfold onUserMessages. simpl foldl. rewrite onUserMessage_eq.
    destruct (IH (resolve m o).1 (q ++ [{| text := contentText m; mode := (resolve m o).2;
                    modeHash := hashObject (resolve m o).2; isolate := false |}]))
      as (added & E & T & F).
    eexists (_ :: added). unfold onUserMessages in E. rewrite E, <- app_assoc.
    split; [reflexivity|]. split; [rewrite !fmap_cons, T; reflexivity|].
    constructor; [reflexivity | exact F].
Qed.

(** An override that the messages received leave alone holds for each of
    them. *)
Lemma kept (P : Overrides -> Prop) (Q : EnhancedMode -> Prop) (keeps : UserMessage -> Prop) :
  (forall message o, keeps message -> P o ->
     P (resolve message o).1 /\ Q (resolve message o).2) ->
  forall messages o q,
    P o -> Forall keeps messages ->
    P (onUserMessages hashObject messages (o, q)).1
    /\ exists added,
         (onUserMessages hashObject messages (o, q)).2 = q ++ added
         /\ text <$> added = contentText <$> messages
         /\ Forall (fun item => Q (mode item)) added.
Proof.
  intros Hstep messages. induction messages as [|m messages IH]; intros o q HP Hk.
  - split; [exact HP|]. exists []. simpl. rewrite app_nil_r. auto.
  - apply Forall_cons in Hk as [Hm Hk].
    destruct (Hstep m o Hm HP) as [HP' HQ].
    unfold onUserMessages. simpl foldl. rewrite onUserMessage_eq.
    destruct (IH (resolve m o).1 (q ++ [{| text := contentText m; mode := (resolve m o).2;
                    modeHash := hashObject (resolve m o).2; isolate := false |}]) HP' Hk)
      as (HP'' & added & E & T & F).
    split; [exact HP''|].
    eexists (_ :: added). unfold onUserMessages in E. rewrite E, <- app_assoc.
    split; [reflexivity|]. split; [rewrite !fmap_cons, T; reflexivity|].
    constructor; [exact HQ | exact F].
Qed.

(** A message that sets an override, and the messages after it that leave
    the override alone. *)
Lemma sticky (P : Overrides -> Prop) (Q : EnhancedMode -> Prop) (keeps : UserMessage -> Prop) :
  (forall message o, keeps message -> P o ->
     P (resolve message o).1 /\ Q (resolve message o).2) ->
  forall before message after o q,
    (forall o, P (resolve message o).1 /\ Q (resolve message o).2) ->
    Forall keeps after ->
    P (onUserMessages hashObject (before ++ message :: after) (o, q)).1
    /\ exists older newer,
         (onUserMessages hashObject (before ++ message :: after) (o, q)).2 = older ++ newer
         /\ length older = (length q + length before)%nat
         /\ text <$> newer = contentText <$> (message :: after)
         /\ Forall (fun item => Q (mode item)) newer.
Proof.
  intros Hstep before message after o q Hset Hk.
  rewrite onUserMessages_app.
  destruct (queued before o q) as (added & E & T & _).
  destruct (onUserMessages hashObject before (o, q)) as [o1 q1] eqn:E1.
  simpl in E. subst q1.
  change (message :: after) with ([message] ++ after).
  rewrite onUserMessages_app.
  unfold onUserMessages at 2 4. simpl foldl. rewrite onUserMessage_eq.
  destruct (Hset o1) as [HP HQ].
  destruct (kept P Q keeps Hstep after (resolve message o1).1
              ((q ++ added) ++ [{| text := contentText message; mode := (resolve message o1).2;
                    modeHash := hashObject (resolve message o1).2; isolate := false |}])
              HP Hk) as (HP' & newer & E & T' & F).
  split; [exact HP'|].
  exists (q ++ added), ({| text := contentText message; mode := (resolve message o1).2;
                          modeHash := hashObject (resolve message o1).2;
                          isolate := false |} :: newer).
  rewrite E, <- app_assoc. split; [reflexivity|].
  split.
  { rewrite length_app. f_equal.
    rewrite <- (length_fmap text added), T, length_fmap. reflexivity. }
  split; [rewrite !fmap_cons, T'; reflexivity|].
  constructor; [exact HQ | exact F].
Qed.

End Received.
End UserMessagesFacts.

Section UserMessagesExtras.
Import MessageQueue UserMessages UserMessagesFacts.

(** X19: the permission mode of [session.onUserMessage] is sticky.  Once a
    message names one of the valid modes, that message and every message
    after it that names no valid mode (no [meta], no [permissionMode], an
    empty or an unknown one) are queued under that mode, in the order
    received and after everything queued before, and the override holds the
    mode when they are all in; this holds whatever was received before and
    whatever models the messages ask for. *)
Theorem X19_permission_mode_is_sticky
    (hashObject : EnhancedMode -> jsstr) (before : list UserMessage)
    (message : UserMessage) (after : list UserMessage)
    (o : Overrides) (q : MessageQueue.t) (p : PermissionMode) :
  requestedMode message = Some p ->
  Forall (fun later => requestedMode later = None) after ->
  currentPermissionMode
    (onUserMessages hashObject (before ++ message :: after) (o, q)).1 = Some p
  /\ exists older newer,
       (onUserMessages hashObject (before ++ message :: after) (o, q)).2 = older ++ newer
       /\ length older = (length q + length before)%nat
       /\ text <$> newer = contentText <$> (message :: after)
       /\ Forall (fun item => permissionMode (mode item) = p) newer.
Proof.
  intros Hm Hafter.
  apply (sticky hashObject (fun o => currentPermissionMode o = Some p)
           (fun m => permissionMode m = p) (fun later => requestedMode later = None)).
  - intros later o' Hl Ho.
    destruct (resolve_mode later o') as [E _].
    rewrite E, (resolve_no_mode later o' Hl), Ho. auto.
  - intros o'. destruct (resolve_mode message o') as [E _].
    rewrite E, (resolve_valid message o' p Hm). auto.
  - exact Hafter.
Qed.

Lemma X19_permission_mode_is_sticky_witness :
  currentPermissionMode
    (onUserMessages Samples.modelFingerprint
       ([Samples.plainMessage (lit "a")]
        ++ Samples.yoloMessage (lit "b")
           :: [Samples.bogusModeMessage (lit "c"); Samples.modelMessage None (lit "d")])
       (noOverrides, [])).1 = Some yolo
  /\ exists older newer,
       (onUserMessages Samples.modelFingerprint
          ([Samples.plainMessage (lit "a")]
           ++ Samples.yoloMessage (lit "b")
              :: [Samples.bogusModeMessage (lit "c"); Samples.modelMessage None (lit "d")])
          (noOverrides, [])).2 = older ++ newer
       /\ length older = (length (@nil QueuedMessage) + length [Samples.plainMessage (lit "a")])%nat
       /\ text <$> newer
          = contentText <$> (Samples.yoloMessage (lit "b")
                             :: [Samples.bogusModeMessage (lit "c");
                                 Samples.modelMessage None (lit "d")])
       /\ Forall (fun item => permissionMode (mode item) = yolo) newer.
Proof.
  apply (X19_permission_mode_is_sticky Samples.modelFingerprint
           [Samples.plainMessage (lit "a")] (Samples.yoloMessage (lit "b"))
           [Samples.bogusModeMessage (lit "c"); Samples.modelMessage None (lit "d")]
           noOverrides [] yolo).
  - vm_compute. reflexivity.
  - repeat (constructor; try (vm_compute; reflexivity)).
Defined.

(** X20: the model of [session.onUserMessage] is sticky.  Once a message
    carries a [model] property, that message and every message after it
    without the property are queued under its model, the default model when
    the property holds [null], [undefined] or the empty string; this holds
    whatever was received before and whatever permission modes the messages
    ask for. *)
Theorem X20_model_is_sticky
    (hashObject : EnhancedMode -> jsstr) (before : list UserMessage)
    (message : UserMessage) (after : list UserMessage)
    (o : Overrides) (q : MessageQueue.t) (v : option jsstr) :
  requestedModel message = Some v ->
  Forall (fun later => meta later ≫= metaModel = None) after ->
  currentModel (onUserMessages hashObject (before ++ message :: after) (o, q)).1 = v
  /\ exists older newer,
       (onUserMessages hashObject (before ++ message :: after) (o, q)).2 = older ++ newer
       /\ length older = (length q + length before)%nat
       /\ text <$> newer = contentText <$> (message :: after)
       /\ Forall (fun item => model (mode item) = v) newer.
Proof.
  intros Hm Hafter.
  apply (sticky hashObject (fun o => currentModel o = v)
           (fun m => model m = v) (fun later => meta later ≫= metaModel = None)).
  - intros later o' Hl Ho.
    destruct (resolve_mode later o') as [_ E].
    rewrite E, (resolve_no_model later o' Hl), Ho. auto.
  - intros o'. destruct (resolve_mode message o') as [_ E].
    rewrite E, (resolve_model message o' v Hm). auto.
  - exact Hafter.
Qed.

End UserMessagesExtras.

Section UserMessagesWitnesses.
Import MessageQueue UserMessages.

Lemma X20_model_is_sticky_witness :
  currentModel
    (onUserMessages Samples.modelFingerprint
       ([Samples.modelMessage (Some (lit "gemini-2.5-pro")) (lit "a")]
        ++ Samples.modelMessage (Some []) (lit "b")
           :: [Samples.yoloMessage (lit "c"); Samples.plainMessage (lit "d")])
       (noOverrides, [])).1 = None
  /\ exists older newer,
       (onUserMessages Samples.modelFingerprint
          ([Samples.modelMessage (Some (lit "gemini-2.5-pro")) (lit "a")]
           ++ Samples.modelMessage (Some []) (lit "b")
              :: [Samples.yoloMessage (lit "c"); Samples.plainMessage (lit "d")])
          (noOverrides, [])).2 = older ++ newer
       /\ length older
          = (length (@nil QueuedMessage)
             + length [Samples.modelMessage (Some (lit "gemini-2.5-pro")) (lit "a")])%nat
       /\ text <$> newer
          = contentText <$> (Samples.modelMessage (Some []) (lit "b")
                             :: [Samples.yoloMessage (lit "c");
                                 Samples.plainMessage (lit "d")])
       /\ Forall (fun item => model (mode item) = None) newer.
Proof.
  apply (X20_model_is_sticky Samples.modelFingerprint
           [Samples.modelMessage (Some (lit "gemini-2.5-pro")) (lit "a")]
           (Samples.modelMessage (Some []) (lit "b"))
           [Samples.yoloMessage (lit "c"); Samples.plainMessage (lit "d")]
           noOverrides [] None).
  - vm_compute. reflexivity.
  - repeat (constructor; try (vm_compute; reflexivity)).
Defined.

End UserMessagesWitnesses.
